(** * Surge Bulls & Void Bears metadata generator: the deterministic core

    A shallow embedding of [tools/meta-gen/generator.ts] and
    [tools/meta-gen/station-distribution.ts], with the properties of the
    seeded stream generator, the shuffler, the allocation planner, the
    blueprint builder, the attribute drafter, the tier resolver and the
    short-code generator.

    Numbers.  A JavaScript number is an IEEE-754 binary64 value.  Counts,
    ids, indices, weights and scores are integers far below 2^53, where
    binary64 arithmetic is exact; they are modelled in [Z].  Fractions
    (draws, ratios) are binary64 values [num / 2^exp], and the two places
    where the source's arithmetic can leave the exact range have their
    rounding written out:
    - the generator state times its multiplier ([jsMul], [jsAdd]);
    - a fraction multiplied by an integer ([mulInt]), then floored or
      rounded to an integer. *)

From Stdlib Require Import ZArith Lia Bool List String Ascii Permutation.
From stdpp Require Import base numbers list strings gmap.

Open Scope Z_scope.

(** ** Binary64 arithmetic *)

Module Binary64.

(** [roundNat53 n], for [0 <= n]: the integer with at most 53 significant
    bits nearest to [n], ties to the even significand. *)
Definition roundNat53 (n : Z) : Z :=
  let b := Z.log2 n - 52 in
  if b <=? 0 then n
  else
    let q := n / 2 ^ b in
    let r := n mod 2 ^ b in
    let half := 2 ^ (b - 1) in
    if (half <? r) || ((r =? half) && Z.odd q) then (q + 1) * 2 ^ b
    else q * 2 ^ b.

(** Round to nearest, ties to even, at 53 bits of precision: what every
    binary64 operation does to its exact result. *)
Definition round53 (n : Z) : Z := Z.sgn n * roundNat53 (Z.abs n).

(** JavaScript [a * b] and [a + b] on integer-valued numbers. *)
Definition jsMul (a b : Z) : Z := round53 (a * b).
Definition jsAdd (a b : Z) : Z := round53 (a + b).

(** A binary64 fraction: the value [d_num / 2 ^ d_exp]. *)
Record dyadic := Dyadic { d_num : Z; d_exp : Z }.

(** JavaScript [n * x] for an integer [n] and a fraction [x]: scaling by
    a power of two commutes with rounding. *)
Definition mulInt (n : Z) (x : dyadic) : dyadic :=
  {| d_num := round53 (n * d_num x); d_exp := d_exp x |}.

(** [Math.floor(x)]. *)
Definition mathFloor (x : dyadic) : Z := d_num x / 2 ^ d_exp x.

(** [Math.round(x)]: the nearest integer, ties towards plus infinity. *)
Definition mathRound (x : dyadic) : Z :=
  (2 * d_num x + 2 ^ d_exp x) / 2 ^ (d_exp x + 1).

(** The binary64 values in the half-open interval [0,1): at most 53
    significant bits, a multiple of 2^-1074, and below 1. *)
Definition is_draw (d : dyadic) : Prop :=
  0 <= d_num d < 2 ^ 53 /\ d_num d < 2 ^ d_exp d /\ 0 <= d_exp d <= 1074.

(** [Math.floor(d * n)]. *)
Definition floorMul (d : dyadic) (n : Z) : Z := mathFloor (mulInt n d).

End Binary64.
Export Binary64.

(** ** Data model ([types.ts]) *)

Inductive TraitCategory := CHAOS | THRESHOLD | ORDEAL_REWARD | MYTHIC.

Inductive Archetype := Bull | Bear | Hybrid.

Record TraitConfig := {
  trait_name : string;
  trait_category : TraitCategory }.

Record LayerConfig := {
  layer_name : string;
  layer_key : string;
  layer_traits : list TraitConfig }.

Record TierThreshold := {
  tier_number : Z;
  tier_name : string;
  tier_min : Z;
  tier_max : Z }.

Record HeroStation := {
  station_id : Z;
  station_name : string }.

Record ScoringConfig := {
  categories : TraitCategory -> Z;
  tier_thresholds : list TierThreshold }.

(** [MetaGenConfig] without its [collection] block, which only the JSON
    serialisation reads. *)
Record MetaGenConfig := {
  scoring : ScoringConfig;
  stations : list HeroStation;      (* hero_journey.stations *)
  layers : list LayerConfig }.

Record GeneratedTrait := {
  layerKey : string;
  traitType : string;
  value : string;
  category : TraitCategory;
  score : Z }.

Record NftBlueprint := {
  bp_id : Z;
  bp_station : HeroStation;
  bp_archetype : Archetype }.

Record GeneratedNft := {
  nft_id : Z;
  nft_station : HeroStation;
  nft_archetype : Archetype;
  traits : list GeneratedTrait;
  totalScore : Z;
  tier : TierThreshold;
  inscriptionTag : string;
  mintTimestamp : Z }.

#[global] Instance Archetype_eq_dec : EqDecision Archetype.
Proof. solve_decision. Defined.

(** ** Station distribution ([station-distribution.ts]) *)

Record StationAllocation := {
  stationId : Z;
  count : Z;
  bullRatio : dyadic;
  bearRatio : dyadic;
  hybridCount : option Z }.

Definition ratio_0_5 : dyadic := Dyadic 1 1.
(** The binary64 value of the literal [0.48]. *)
Definition ratio_0_48 : dyadic := Dyadic 1080863910568919 51.

Definition plainStation (sid n : Z) : StationAllocation :=
  {| stationId := sid; count := n; bullRatio := ratio_0_5;
     bearRatio := ratio_0_5; hybridCount := None |}.

Definition STATION_DISTRIBUTION : list StationAllocation :=
  [ plainStation 1 28; plainStation 2 28; plainStation 3 28;
    plainStation 4 28; plainStation 5 28; plainStation 6 28;
    plainStation 7 28;
    {| stationId := 8; count := 29; bullRatio := ratio_0_48;
       bearRatio := ratio_0_48; hybridCount := Some 1 |};
    plainStation 9 27; plainStation 10 27; plainStation 11 27;
    plainStation 12 27 ].

Record ArchetypeCounts := { bulls : Z; bears : Z; hybrids : Z }.

(** [alloc.hybridCount || 0]: an absent or zero count gives 0. *)
Definition orZero (x : option Z) : Z :=
  match x with
  | Some h => if h =? 0 then 0 else h
  | None => 0
  end.

(** The product is rounded to binary64 and then to an integer.  The two
    subtractions are between integers; for a documented allocation they
    lie between 0 and the station count (lemma
    [wellFormed_countsNonNegative]), where binary64 is exact. *)
Definition getArchetypeCounts (alloc : StationAllocation) : ArchetypeCounts :=
  let hybrids := orZero (hybridCount alloc) in
  let remaining := count alloc - hybrids in
  let bulls := mathRound (mulInt remaining (bullRatio alloc)) in
  let bears := remaining - bulls in
  {| bulls := bulls; bears := bears; hybrids := hybrids |}.

(** ** Exceptions *)

Inductive error :=
  | UnknownStation (sid : Z)              (* Error: Unknown stationId ... *)
  | ScoreOutsideTiers (score lo hi : Z)   (* Error: Score ... outside tier thresholds *)
  | ExpectedBlueprints (got : nat)        (* Error: Expected 333 blueprints *)
  | TypeError.                            (* a property read on undefined *)

(** ** Code running against a draw function

    [rng : () => number] is a closure over its own state.  It is modelled
    by the type [St] of that state and the function [next] performing one
    call; [Cursor] pairs the state with the number of calls made so far.
    A computation that may call [rng] and may throw is a function from
    the cursor to an outcome and the cursor it leaves behind. *)

Record Cursor (St : Type) := mkCursor { state : St; calls : nat }.
Arguments mkCursor {St} _ _.
Arguments state {St} _.
Arguments calls {St} _.

Definition fresh {St : Type} (s : St) : Cursor St := mkCursor s 0.

Definition Gen (St A : Type) : Type := Cursor St -> (error + A) * Cursor St.

Definition ret {St A} (a : A) : Gen St A := fun c => (inr a, c).

Definition throw {St A} (e : error) : Gen St A := fun c => (inl e, c).

Definition bind {St A B} (m : Gen St A) (k : A -> Gen St B) : Gen St B :=
  fun c =>
    match m c with
    | (inr a, c') => k a c'
    | (inl e, c') => (inl e, c')
    end.

Declare Scope gen_scope.
Delimit Scope gen_scope with gen.
Notation "x <- m ;; k" := (bind m (fun x => k))
  (at level 100, m at next level, right associativity) : gen_scope.
Open Scope gen_scope.

(** [array[i]] read with an integer index: [undefined] out of range. *)
Definition jsIndex {T} (array : list T) (i : Z) : option T :=
  if i <? 0 then None else array !! Z.to_nat i.

(** A JavaScript array as its slots: a slot holds a value or reads as
    [undefined].  [array[i]] for a slot index [i]: *)
Definition jsRead {T} (array : list (option T)) (i : nat) : option T :=
  default None (array !! i).

(** [array[i] = v]: inside the array the slot is overwritten; at or past
    its end the array grows to hold slot [i], the slots in between
    staying empty. *)
Definition jsWrite {T} (array : list (option T)) (i : nat) (v : option T)
  : list (option T) :=
  if (i <? length array)%nat then <[i := v]> array
  else array ++ replicate (i - length array) None ++ [v].

(** [[array[i], array[j]] = [array[j], array[i]]]: both reads, then the
    write to slot [i], then the write to slot [j]. *)
Definition jsSwap {T} (array : list (option T)) (i j : nat) : list (option T) :=
  let vj := jsRead array j in
  let vi := jsRead array i in
  jsWrite (jsWrite array i vj) j vi.

(** The values of an array none of whose slots is [undefined]. *)
Fixpoint allDefined {T} (array : list (option T)) : option (list T) :=
  match array with
  | [] => Some []
  | Some x :: array' => cons x <$> allDefined array'
  | None :: _ => None
  end.

Fixpoint mapGen {St A B} (f : A -> Gen St B) (l : list A) : Gen St (list B) :=
  match l with
  | [] => ret []
  | a :: l' => b <- f a ;; bs <- mapGen f l' ;; ret (b :: bs)
  end.

Definition INSCRIPTION_CHARS : string := "ABCDEFGHJKLMNPQRSTUVWXYZ23456789".

(** [INSCRIPTION_CHARS[idx]] as it is appended to a string. *)
Definition charAt (s : string) (idx : Z) : string :=
  match (if idx <? 0 then None else String.get (Z.to_nat idx) s) with
  | Some ch => String ch EmptyString
  | None => "undefined"
  end.

Definition computeTotalScore (traits : list GeneratedTrait) : Z :=
  fold_left (fun sum t => sum + score t) traits 0.

Definition inTier (score : Z) (t : TierThreshold) : bool :=
  (tier_min t <=? score) && (score <=? tier_max t).

(** The message of the error reads [tiers[0].min] and
    [tiers[tiers.length - 1].max]: with no tiers at all that read is the
    failure. *)
Definition resolveTier (score : Z) (tiers : list TierThreshold)
  : error + TierThreshold :=
  match List.find (inTier score) tiers with
  | Some t => inr t
  | None =>
      match tiers, last tiers with
      | t0 :: _, Some tn => inl (ScoreOutsideTiers score (tier_min t0) (tier_max tn))
      | _, _ => inl TypeError
      end
  end.

Definition findStation (config : MetaGenConfig) (sid : Z) : option HeroStation :=
  List.find (fun s => station_id s =? sid) (stations config).

(** [for (let i = 0; i < n; i++) blueprints.push({ id: id++, station, archetype })] *)
Fixpoint pushBlueprints (n : nat) (station : HeroStation) (archetype : Archetype)
    (acc : list NftBlueprint * Z) : list NftBlueprint * Z :=
  match n with
  | O => acc
  | S n' =>
      let '(blueprints, id) := acc in
      pushBlueprints n' station archetype
        (blueprints ++ [ {| bp_id := id; bp_station := station;
                            bp_archetype := archetype |} ], id + 1)
  end.

(** The loop over [dist] of [buildNftBlueprints]. *)
Fixpoint appendStations (config : MetaGenConfig) (dist : list StationAllocation)
    (acc : list NftBlueprint * Z) : error + (list NftBlueprint * Z) :=
  match dist with
  | [] => inr acc
  | alloc :: dist' =>
      match findStation config (stationId alloc) with
      | None => inl (UnknownStation (stationId alloc))
      | Some station =>
          let counts := getArchetypeCounts alloc in
          let acc := pushBlueprints (Z.to_nat (hybrids counts)) station Hybrid acc in
          let acc := pushBlueprints (Z.to_nat (bulls counts)) station Bull acc in
          let acc := pushBlueprints (Z.to_nat (bears counts)) station Bear acc in
          appendStations config dist' acc
      end
  end.

(** [blueprints.forEach((bp, idx) => { bp.id = idx + 1; })] *)
Definition reassignIds (blueprints : list NftBlueprint) : list NftBlueprint :=
  imap (fun idx bp => {| bp_id := Z.of_nat idx + 1; bp_station := bp_station bp;
                         bp_archetype := bp_archetype bp |}) blueprints.

Section Generator.
Context {St : Type}.
Variable next : St -> dyadic * St.

(** One call [rng()]. *)
Definition rng : Gen St dyadic :=
  fun c => let (d, s') := next (state c) in
           (inr d, mkCursor s' (S (calls c))).

(** [for (let i = array.length - 1; i > 0; i--)]: the loop from index
    [i] down to 1.  A draw is not negative, and neither is [j]. *)
Fixpoint shuffleFrom {T} (i : nat) (array : list (option T))
  : Gen St (list (option T)) :=
  match i with
  | O => ret array
  | S i' =>
      d <- rng ;;
      let j := floorMul d (Z.of_nat i + 1) in
      shuffleFrom i' (jsSwap array i (Z.to_nat j))
  end.

Definition shuffleInPlace {T} (array : list (option T))
  : Gen St (list (option T)) :=
  shuffleFrom (length array - 1) array.

(** Every blueprint pushed is an object; after the shuffle, [forEach]
    writes [bp.id] for each slot in turn and fails on a slot that holds
    [undefined]. *)
Definition buildNftBlueprints (config : MetaGenConfig)
    (dist : list StationAllocation) : Gen St (list NftBlueprint) :=
  match appendStations config dist ([], 1) with
  | inl e => throw e
  | inr (blueprints, _) =>
      shuffled <- shuffleInPlace (Some <$> blueprints) ;;
      match allDefined shuffled with
      | None => throw TypeError
      | Some blueprints => ret (reassignIds blueprints)
      end
  end.

(** [undefined] for a layer without traits. *)
Definition pickRandomTrait (layer : LayerConfig) : Gen St (option TraitConfig) :=
  d <- rng ;;
  let idx := floorMul d (Z.of_nat (length (layer_traits layer))) in
  ret (jsIndex (layer_traits layer) idx).

Definition generateTraitsForNft (config : MetaGenConfig)
  : Gen St (list GeneratedTrait) :=
  mapGen (fun layer =>
    picked <- pickRandomTrait layer ;;
    match picked with
    | None => throw TypeError          (* trait.category on undefined *)
    | Some trait =>
        let category := trait_category trait in
        let baseScore := categories (scoring config) category in
        ret {| layerKey := layer_key layer;
               traitType := layer_name layer;
               value := trait_name trait;
               category := category;
               score := baseScore |}
    end) (layers config).

(** [for (let i = 0; i < 4; i++)] with [n] rounds to go. *)
Fixpoint tagLoop (n : nat) (tag : string) : Gen St string :=
  match n with
  | O => ret tag
  | S n' =>
      d <- rng ;;
      let idx := floorMul d (Z.of_nat (String.length INSCRIPTION_CHARS)) in
      tagLoop n' (tag +:+ charAt INSCRIPTION_CHARS idx)
  end.

Definition generateTag : Gen St string := tagLoop 4 "".

Definition buildGeneratedNft (blueprint : NftBlueprint) (config : MetaGenConfig)
    (mintTimestamp : Z) : Gen St GeneratedNft :=
  traits <- generateTraitsForNft config ;;
  let totalScore := computeTotalScore traits in
  match resolveTier totalScore (tier_thresholds (scoring config)) with
  | inl e => throw e
  | inr tier =>
      inscriptionTag <- generateTag ;;
      ret {| nft_id := bp_id blueprint;
             nft_station := bp_station blueprint;
             nft_archetype := bp_archetype blueprint;
             traits := traits;
             totalScore := totalScore;
             tier := tier;
             inscriptionTag := inscriptionTag;
             mintTimestamp := mintTimestamp |}
  end.

(** The generation steps of [generateCollection], from the blueprints
    to the last record, without the file writes between them. *)
Definition generateRecords (config : MetaGenConfig) (mintTimestamp : Z)
  : Gen St (list NftBlueprint * list GeneratedNft) :=
  blueprints <- buildNftBlueprints config STATION_DISTRIBUTION ;;
  if negb (length blueprints =? 333)%nat then
    throw (ExpectedBlueprints (length blueprints))
  else
    nfts <- mapGen (fun bp => buildGeneratedNft bp config mintTimestamp) blueprints ;;
    ret (blueprints, nfts).

End Generator.

(** ** The seeded generator ([createRng]) *)

(** A JavaScript string is a sequence of UTF-16 code units, each in
    0..65535. *)
Definition jsstring := list N.

(** The code units of an ASCII literal. *)
Definition ofString (s : string) : jsstring :=
  List.map N_of_ascii (list_ascii_of_string s).

Definition LCG_A : Z := 1664525.
Definition LCG_C : Z := 1013904223.
Definition LCG_M : Z := 4294967296.

(** [seed.split("").reduce((acc, ch) => acc + ch.charCodeAt(0), 0)] *)
Definition charCodeSum (seed : jsstring) : Z :=
  fold_left (fun acc ch => jsAdd acc (Z.of_N ch)) seed 0.

(** The initial value of the captured variable [s]: [... || 1]. *)
Definition createRng (seed : jsstring) : Z :=
  let sum := charCodeSum seed in
  if sum =? 0 then 1 else sum.

(** One call of the closure returned by [createRng]:
    [s = (s * 1664525 + 1013904223) % 4294967296; return s / 4294967296].
    [%] is exact and takes the sign of the dividend; the division by 2^32
    is exact. *)
Definition lcgNext (s : Z) : dyadic * Z :=
  let s' := Z.rem (jsAdd (jsMul s LCG_A) LCG_C) LCG_M in
  (Dyadic s' 32, s').

(** The state after [k] calls, and the value returned by call number
    [k] (counted from 1). *)
Definition stateAfter (k : nat) (seed : jsstring) : Z :=
  Nat.iter k (fun s => snd (lcgNext s)) (createRng seed).

Definition drawNumber (k : nat) (seed : jsstring) : dyadic :=
  fst (lcgNext (stateAfter (k - 1) seed)).

(** The records of a collection generated from a seed, each run with a
    generator of its own. *)
Definition generateFromSeed (config : MetaGenConfig) (seed : jsstring)
    (mintTimestamp : Z) :=
  generateRecords lcgNext config mintTimestamp (fresh (createRng seed)).

(** ** Configuration loading ([loadConfig])

    What [JSON.parse] hands to [loadConfig], as far as [loadConfig] looks
    at it: arrays that may be missing and a scoring table that is an
    object with string keys. *)

Record JsonTrait := { jt_name : string; jt_category : string }.

Record JsonLayer := {
  jl_name : string;
  jl_key : string;
  jl_traits : option (list JsonTrait) }.

Record JsonScoring := {
  js_categories : option (gmap string Z);
  js_tier_thresholds : option (list TierThreshold) }.

Record JsonConfig := {
  jc_layers : option (list JsonLayer);
  jc_scoring : option JsonScoring;
  jc_stations : option (option (list HeroStation)) }.
    (* hero_journey, then hero_journey.stations *)

Inductive configError :=
  | ExpectedLayers (got : nat)
  | LayerTraitCount (layer : string) (got : nat)
  | MissingCategory (cat : string)
  | ExpectedTiers
  | ExpectedStations
  | ConfigTypeError.               (* a property read on undefined *)

(** [x?.length || 0] *)
Definition lengthOrZero {T} (x : option (list T)) : nat :=
  match x with Some l => length l | None => 0%nat end.

(** [!x || x.length !== n] *)
Definition lengthIsNot {T} (x : option (list T)) (n : nat) : bool :=
  match x with
  | None => true
  | Some l => negb (length l =? n)%nat
  end.

Definition requiredCategories : list string :=
  ["CHAOS"; "THRESHOLD"; "ORDEAL_REWARD"; "MYTHIC"].

(** [for (const layer of config.layers)]: the first layer without
    exactly 9 traits. *)
Fixpoint checkLayers (ls : list JsonLayer) : option configError :=
  match ls with
  | [] => None
  | layer :: ls' =>
      if lengthIsNot (jl_traits layer) 9
      then Some (LayerTraitCount (jl_name layer) (lengthOrZero (jl_traits layer)))
      else checkLayers ls'
  end.

(** [for (const cat of requiredCategories) if (!(cat in categories))] *)
Fixpoint checkCategories (cats : list string) (table : gmap string Z)
  : option configError :=
  match cats with
  | [] => None
  | cat :: cats' =>
      match table !! cat with
      | None => Some (MissingCategory cat)
      | Some _ => checkCategories cats' table
      end
  end.

Definition loadConfig (config : JsonConfig) : configError + JsonConfig :=
  if lengthIsNot (jc_layers config) 7 then
    inl (ExpectedLayers (lengthOrZero (jc_layers config)))
  else
    match checkLayers (default [] (jc_layers config)) with
    | Some e => inl e
    | None =>
        match jc_scoring config with
        | None => inl ConfigTypeError
        | Some scoring =>
            match js_categories scoring with
            | None => inl ConfigTypeError
            | Some table =>
                match checkCategories requiredCategories table with
                | Some e => inl e
                | None =>
                    if lengthIsNot (js_tier_thresholds scoring) 7 then
                      inl ExpectedTiers
                    else
                      match jc_stations config with
                      | None => inl ConfigTypeError
                      | Some stations =>
                          if lengthIsNot stations 12 then inl ExpectedStations
                          else inr config
                      end
                end
            end
        end
    end.

(** ** Closures in one process

    Every call of [createRng] returns a new closure with a variable [s]
    of its own.  The variables of the closures created so far form a
    heap; a closure is the index of its variable, and a call of it
    updates that variable and no other. *)

Abbreviation Heap := (list Z).

(** [createRng(seed)] as an allocation. *)
Definition allocRng (seed : jsstring) (heap : Heap) : nat * Heap :=
  (length heap, heap ++ [createRng seed]).

(** A call of closure number [r]. *)
Definition callRng (r : nat) (heap : Heap) : dyadic * Heap :=
  match heap !! r with
  | Some s => let (d, s') := lcgNext s in (d, <[r := s']> heap)
  | None => (Dyadic 0 0, heap)       (* no such closure: never called *)
  end.

(** Two generators made from the same seed, then two generation runs in
    the same process, the first with the first generator and the second
    with the second. *)
Definition twoRuns (config : MetaGenConfig) (seed : jsstring)
    (stamp1 stamp2 : Z) (heap : Heap) :=
  let (rng1, heap1) := allocRng seed heap in
  let (rng2, heap2) := allocRng seed heap1 in
  let (out1, c1) := generateRecords (callRng rng1) config stamp1 (fresh heap2) in
  let (out2, c2) := generateRecords (callRng rng2) config stamp2 (fresh (state c1)) in
  (out1, out2).

(** ** Vocabulary of the properties *)

(** The state of a draw function after [k] calls. *)
Definition advance {St} (next : St -> dyadic * St) (k : nat) (s : St) : St :=
  Nat.iter k (fun s => snd (next s)) s.

(** Every value the draw function returns from state [s] on, whatever the
    number of calls, lies in [0,1). *)
Definition draws_in_range {St} (next : St -> dyadic * St) (s : St) : Prop :=
  forall k : nat, is_draw (fst (next (advance next k s))).

(** The configuration knows every station the distribution names. *)
Definition coversStations (config : MetaGenConfig)
    (dist : list StationAllocation) : Prop :=
  forall alloc, alloc ∈ dist ->
    exists s, s ∈ stations config /\ station_id s = stationId alloc.

(** No archetype of the allocation gets a negative count. *)
Definition countsNonNegative (alloc : StationAllocation) : Prop :=
  0 <= hybrids (getArchetypeCounts alloc) /\
  0 <= bulls (getArchetypeCounts alloc) /\
  0 <= bears (getArchetypeCounts alloc).

Definition sumCounts (dist : list StationAllocation) : Z :=
  fold_right (fun alloc acc => count alloc + acc) 0 dist.

Definition assignment (bp : NftBlueprint) : HeroStation * Archetype :=
  (bp_station bp, bp_archetype bp).

(** The (station, archetype) pairs an allocation contributes, in the
    order they are appended: hybrids, bulls, bears. *)
Definition expectedAssignments (config : MetaGenConfig)
    (alloc : StationAllocation) : list (HeroStation * Archetype) :=
  match findStation config (stationId alloc) with
  | None => []
  | Some station =>
      let counts := getArchetypeCounts alloc in
      replicate (Z.to_nat (hybrids counts)) (station, Hybrid)
      ++ replicate (Z.to_nat (bulls counts)) (station, Bull)
      ++ replicate (Z.to_nat (bears counts)) (station, Bear)
  end.

(** The generator the specification describes, in exact integer
    arithmetic: the accumulator is the sum of the character codes, 1 if
    that sum is zero, and each step is [(s * A + C) mod M]. *)
Module SpecRng.
Definition codeSum (seed : jsstring) : Z :=
  fold_right (fun ch acc => Z.of_N ch + acc) 0 seed.
Definition accumulator (seed : jsstring) : Z :=
  let sum := codeSum seed in
  if sum =? 0 then 1 else sum.
Definition step (s : Z) : Z := (s * 1664525 + 1013904223) mod 2 ^ 32.
Definition stateNumber (k : nat) (seed : jsstring) : Z :=
  Nat.iter k step (accumulator seed).
End SpecRng.

(** The value of a fraction is [n / 2 ^ 32]. *)
Definition isOver2p32 (d : dyadic) (n : Z) : Prop :=
  d_num d * 2 ^ 32 = n * 2 ^ d_exp d.

(** The alphabet as the documentation describes it: the capital letters
    without I and O, then the digits 2 to 9. *)
Definition isTagSymbol (ch : ascii) : bool :=
  let n := nat_of_ascii ch in
  (((65 <=? n) && (n <=? 90) && negb (n =? 73) && negb (n =? 79))
   || ((50 <=? n) && (n <=? 57)))%nat.

(** The cardinality and coverage invariants the specification lists for
    a configuration. *)
Module SpecConfig.
Definition sevenLayers (c : JsonConfig) : Prop :=
  exists ls, jc_layers c = Some ls /\ length ls = 7%nat.
Definition nineTraitsEach (c : JsonConfig) : Prop :=
  forall ls, jc_layers c = Some ls ->
    Forall (fun l => exists ts, jl_traits l = Some ts /\ length ts = 9%nat) ls.
Definition weightTable (c : JsonConfig) : gmap string Z :=
  default ∅ (jc_scoring c ≫= js_categories).
Definition fourCategories (c : JsonConfig) : Prop :=
  (exists sc table, jc_scoring c = Some sc /\ js_categories sc = Some table) /\
  Forall (fun cat => is_Some (weightTable c !! cat)) requiredCategories.
Definition weightsIncreasing (c : JsonConfig) : Prop :=
  exists w1 w2 w3 w4,
    weightTable c !! "CHAOS" = Some w1 /\
    weightTable c !! "THRESHOLD" = Some w2 /\
    weightTable c !! "ORDEAL_REWARD" = Some w3 /\
    weightTable c !! "MYTHIC" = Some w4 /\
    w1 < w2 < w3 /\ w3 < w4.
Definition tiers (c : JsonConfig) : list TierThreshold :=
  default [] (jc_scoring c ≫= js_tier_thresholds).
Definition sevenTiers (c : JsonConfig) : Prop :=
  exists sc ts, jc_scoring c = Some sc /\ js_tier_thresholds sc = Some ts /\
                length ts = 7%nat.
(** Consecutive tiers leave no gap and do not overlap. *)
Fixpoint contiguous (ts : list TierThreshold) : Prop :=
  match ts with
  | t1 :: ((t2 :: _) as ts') => tier_min t2 = tier_max t1 + 1 /\ contiguous ts'
  | _ => True
  end.
(** The tiers cover every score from 7 times the lowest weight to 7
    times the highest. *)
Definition tiersCover (c : JsonConfig) : Prop :=
  contiguous (tiers c) /\
  exists t1 tn w1 w4,
    head (tiers c) = Some t1 /\ last (tiers c) = Some tn /\
    weightTable c !! "CHAOS" = Some w1 /\
    weightTable c !! "MYTHIC" = Some w4 /\
    tier_min t1 <= 7 * w1 /\ 7 * w4 <= tier_max tn.
Definition twelveStations (c : JsonConfig) : Prop :=
  exists h, jc_stations c = Some (Some h) /\ length h = 12%nat.

(** All seven invariants. *)
Definition allInvariants (c : JsonConfig) : Prop :=
  sevenLayers c /\ nineTraitsEach c /\ fourCategories c /\
  weightsIncreasing c /\ sevenTiers c /\ tiersCover c /\ twelveStations c.

(** The five of them that [loadConfig] tests. *)
Definition checkedInvariants (c : JsonConfig) : Prop :=
  sevenLayers c /\ nineTraitsEach c /\ fourCategories c /\
  sevenTiers c /\ twelveStations c.
End SpecConfig.

(** A decision procedure for [coversStations]. *)
Definition coversStationsb (config : MetaGenConfig)
    (dist : list StationAllocation) : bool :=
  forallb (fun alloc =>
             existsb (fun s => station_id s =? stationId alloc) (stations config))
          dist.

(** An allocation as documented: a hybrid count between 0 and the station
    count, a station count that is an exact binary64 integer, and a bull
    ratio between 0 and 1. *)
Definition wellFormedAllocation (alloc : StationAllocation) : Prop :=
  0 <= orZero (hybridCount alloc) <= count alloc /\
  count alloc < 2 ^ 53 /\
  0 <= d_exp (bullRatio alloc) /\
  0 <= d_num (bullRatio alloc) <= 2 ^ d_exp (bullRatio alloc).

(** The symbols of the alphabet. *)
Definition alphabet : list ascii := list_ascii_of_string INSCRIPTION_CHARS.

(** The score lies in the inclusive range of the tier. *)
Definition contains (t : TierThreshold) (score : Z) : Prop :=
  tier_min t <= score <= tier_max t.

(** Two outcomes are both the same error, or both values, related by [Q]. *)
Definition outcomeRel {A B} (Q : A -> B -> Prop)
    (r1 : error + A) (r2 : error + B) : Prop :=
  match r1, r2 with
  | inl e1, inl e2 => e1 = e2
  | inr a, inr b => Q a b
  | _, _ => False
  end.

(** Two computations, over two draw functions whose states are related by
    [R], proceed in step: related outcomes, related states, as many
    calls. *)
Definition related {S1 S2 A B} (R : S1 -> S2 -> Prop) (Q : A -> B -> Prop)
    (m1 : Gen S1 A) (m2 : Gen S2 B) : Prop :=
  forall c1 c2, R (state c1) (state c2) -> calls c1 = calls c2 ->
    outcomeRel Q (m1 c1).1 (m2 c2).1 /\
    R (state (m1 c1).2) (state (m2 c2).2) /\
    calls (m1 c1).2 = calls (m2 c2).2.

(** Two records that differ in their timestamps at most. *)
Definition sameButTimestamp (n1 n2 : GeneratedNft) : Prop :=
  nft_id n1 = nft_id n2 /\ nft_station n1 = nft_station n2 /\
  nft_archetype n1 = nft_archetype n2 /\ traits n1 = traits n2 /\
  totalScore n1 = totalScore n2 /\ tier n1 = tier n2 /\
  inscriptionTag n1 = inscriptionTag n2.

(** Two runs returned the same blueprints and records that differ in
    their timestamps at most, or threw the same error. *)
Definition sameOutcome (r1 r2 : error + (list NftBlueprint * list GeneratedNft))
  : Prop :=
  outcomeRel (fun o1 o2 => o1.1 = o2.1 /\ Forall2 sameButTimestamp o1.2 o2.2) r1 r2.

(** ** A configuration of the documented shape

    Seven layers of nine traits, the weights of the README, seven
    contiguous tiers from 49 to 294 and the twelve stations: the input of
    the examples below. *)

Definition sampleStations : list HeroStation :=
  [ {| station_id := 1; station_name := "Ordinary World" |};
    {| station_id := 2; station_name := "Call to Adventure" |};
    {| station_id := 3; station_name := "Refusal of the Call" |};
    {| station_id := 4; station_name := "Meeting the Mentor" |};
    {| station_id := 5; station_name := "Crossing the Threshold" |};
    {| station_id := 6; station_name := "Tests, Allies, Enemies" |};
    {| station_id := 7; station_name := "Approach to the Inmost Cave" |};
    {| station_id := 8; station_name := "The Ordeal" |};
    {| station_id := 9; station_name := "Reward" |};
    {| station_id := 10; station_name := "The Road Back" |};
    {| station_id := 11; station_name := "Resurrection" |};
    {| station_id := 12; station_name := "Return with the Elixir" |} ].

Definition sampleCategories : list TraitCategory :=
  [CHAOS; CHAOS; CHAOS; THRESHOLD; THRESHOLD; THRESHOLD;
   ORDEAL_REWARD; ORDEAL_REWARD; MYTHIC].

Definition sampleLayer (name key : string) : LayerConfig :=
  {| layer_name := name; layer_key := key;
     layer_traits :=
       imap (fun i cat =>
               {| trait_name := name +:+ " " +:+ String (ascii_of_nat (49 + i)) "";
                  trait_category := cat |}) sampleCategories |}.

Definition sampleWeights (cat : TraitCategory) : Z :=
  match cat with
  | CHAOS => 7 | THRESHOLD => 12 | ORDEAL_REWARD => 21 | MYTHIC => 42
  end.

Definition sampleTier (n : Z) (name : string) (lo hi : Z) : TierThreshold :=
  {| tier_number := n; tier_name := name; tier_min := lo; tier_max := hi |}.

Definition sampleTiers : list TierThreshold :=
  [ sampleTier 1 "Tier 1" 49 69; sampleTier 2 "Tier 2" 70 94;
    sampleTier 3 "Tier 3" 95 124; sampleTier 4 "Tier 4" 125 159;
    sampleTier 5 "Tier 5" 160 199; sampleTier 6 "Tier 6" 200 244;
    sampleTier 7 "Tier 7" 245 294 ].

Definition sampleConfig : MetaGenConfig :=
  {| scoring := {| categories := sampleWeights; tier_thresholds := sampleTiers |};
     stations := sampleStations;
     layers :=
       [ sampleLayer "Background" "background"; sampleLayer "Body" "body";
         sampleLayer "Eyes" "eyes"; sampleLayer "Headwear" "headwear";
         sampleLayer "Mouth" "mouth"; sampleLayer "Accessory" "accessory";
         sampleLayer "Aura" "aura" ] |}.

Definition sampleSeed : jsstring := ofString "test-seed-deterministic".

(** A distribution with a ratio above 1: four blueprints asked for, with
    one and a half times as many bulls. *)
Definition overfullDistribution : list StationAllocation :=
  [ {| stationId := 1; count := 4; bullRatio := Dyadic 3 1;
       bearRatio := Dyadic 0 1; hybridCount := None |} ].

(** A seed of 82572 code units U+FFFF. *)
Definition longSeed : jsstring := repeat 65535%N (Z.to_nat 82572).

(** The sample configuration as a parsed JSON document, and a variant of
    it with the weights in decreasing order and seven overlapping tiers
    that stop short of the highest score. *)
Definition jsonLayer (name key : string) : JsonLayer :=
  {| jl_name := name; jl_key := key;
     jl_traits :=
       Some ((fun t => {| jt_name := trait_name t; jt_category := "CHAOS" |})
             <$> layer_traits (sampleLayer name key)) |}.

Definition jsonLayers : list JsonLayer :=
  [ jsonLayer "Background" "background"; jsonLayer "Body" "body";
    jsonLayer "Eyes" "eyes"; jsonLayer "Headwear" "headwear";
    jsonLayer "Mouth" "mouth"; jsonLayer "Accessory" "accessory";
    jsonLayer "Aura" "aura" ].

Definition weightsOf (chaos threshold ordeal mythic : Z) : gmap string Z :=
  <["CHAOS" := chaos]> (<["THRESHOLD" := threshold]>
    (<["ORDEAL_REWARD" := ordeal]> (<["MYTHIC" := mythic]> ∅))).

Definition sampleJson : JsonConfig :=
  {| jc_layers := Some jsonLayers;
     jc_scoring := Some {| js_categories := Some (weightsOf 7 12 21 42);
                           js_tier_thresholds := Some sampleTiers |};
     jc_stations := Some (Some sampleStations) |}.

Definition unorderedJson : JsonConfig :=
  {| jc_layers := Some jsonLayers;
     jc_scoring :=
       Some {| js_categories := Some (weightsOf 42 21 12 7);
               js_tier_thresholds :=
                 Some (replicate 7 (sampleTier 1 "Tier" 49 100)) |};
     jc_stations := Some (Some sampleStations) |}.

(** * The rest of the tool

    The validation of the station table ([station-distribution.ts]), the
    metadata of a record and the run that writes the files
    ([generator.ts]), the escaping of the texts of the placeholder assets
    ([create-placeholder-assets.ts]) and the choice of the layer assets
    of an image ([image-generator.ts]). *)

From Stdlib Require DecimalString DecimalPos DecimalZ.

(** ** More binary64 arithmetic: sums, differences and quotients

    What [validateStationDistribution] computes with: the quotient of two
    integers and sums and differences of fractions, each rounded to
    nearest, ties to even, at 53 bits.  The exponents that occur are far
    from the subnormal range and from overflow. *)

Module Binary64Ops.

(** The value of [a / b]: a fraction, an infinity or NaN. *)
Inductive quotient :=
  | Fraction (d : dyadic)
  | Infinite (negative : bool)
  | NotANumber.

(** [a / b] for integers [a] and [b].  For [b <> 0] the quotient is
    computed with at least 55 significant bits and a sticky bit for what
    is left of the division, then rounded once. *)
Definition divInt (a b : Z) : quotient :=
  if b =? 0 then
    if a =? 0 then NotANumber else Infinite (a <? 0)
  else if a =? 0 then Fraction (Dyadic 0 0)
  else
    let p := Z.abs a in
    let q := Z.abs b in
    let e := Z.max 0 (55 + Z.log2 q - Z.log2 p) in
    let n := p * 2 ^ e / q in
    let sticky := if p * 2 ^ e mod q =? 0 then 0 else 1 in
    Fraction (Dyadic (Z.sgn a * Z.sgn b * roundNat53 (2 * n + sticky)) (e + 1)).

(** [x + y] *)
Definition addFrac (x y : dyadic) : dyadic :=
  let e := Z.max (d_exp x) (d_exp y) in
  Dyadic (round53 (d_num x * 2 ^ (e - d_exp x) + d_num y * 2 ^ (e - d_exp y))) e.

(** [x - y] *)
Definition subFrac (x y : dyadic) : dyadic :=
  addFrac x (Dyadic (- d_num y) (d_exp y)).

(** [Math.abs(x)] *)
Definition absFrac (x : dyadic) : dyadic := Dyadic (Z.abs (d_num x)) (d_exp x).

(** [x > y] *)
Definition gtFrac (x y : dyadic) : bool :=
  d_num y * 2 ^ d_exp x <? d_num x * 2 ^ d_exp y.

(** The binary64 value of the literal [0.01]. *)
Definition ratio_0_01 : dyadic := Dyadic 5764607523034235 59.

End Binary64Ops.
Export Binary64Ops.

(** ** Validation of the distribution ([validateStationDistribution]) *)

Inductive distributionError :=
  | RatioMismatch (sid : Z) (actualRatio : dyadic) (expectedRatio : quotient)
      (* Station ...: Bull + Bear ratios (...) don't match expected (...) *)
  | InvalidStationId (sid : Z)       (* Station ...: Invalid station ID *)
  | TotalMismatch (total : Z)        (* Total NFT count is ..., expected 333 *)
  | DuplicateStationIds.             (* Duplicate station IDs found *)

Record Validation := {
  valid : bool;
  total : Z;
  errors : list distributionError }.

(** [alloc.bullRatio + alloc.bearRatio] *)
Definition actualRatio (alloc : StationAllocation) : dyadic :=
  addFrac (bullRatio alloc) (bearRatio alloc).

(** [(alloc.count - hybridCount) / alloc.count] *)
Definition expectedRatio (alloc : StationAllocation) : quotient :=
  divInt (count alloc - orZero (hybridCount alloc)) (count alloc).

(** [Math.abs(actualRatio - expectedRatio) > 0.01].  The distance to an
    infinity is infinite; a comparison with NaN is false. *)
Definition ratioMismatch (alloc : StationAllocation) : bool :=
  match expectedRatio alloc with
  | Fraction expected =>
      gtFrac (absFrac (subFrac (actualRatio alloc) expected)) ratio_0_01
  | Infinite _ => true
  | NotANumber => false
  end.

(** [alloc.stationId < 1 || alloc.stationId > 12] *)
Definition invalidStationId (alloc : StationAllocation) : bool :=
  (stationId alloc <? 1) || (12 <? stationId alloc).

(** One round of the loop over the allocations. *)
Definition validateAllocation (acc : Z * list distributionError)
    (alloc : StationAllocation) : Z * list distributionError :=
  let '(total, errors) := acc in
  let total := total + count alloc in
  let errors :=
    if ratioMismatch alloc
    then errors ++ [RatioMismatch (stationId alloc) (actualRatio alloc)
                                  (expectedRatio alloc)]
    else errors in
  let errors :=
    if invalidStationId alloc
    then errors ++ [InvalidStationId (stationId alloc)]
    else errors in
  (total, errors).

(** The body of [validateStationDistribution], for the table [dist]. *)
Definition validateDistribution (dist : list StationAllocation) : Validation :=
  let '(total, errors) := fold_left validateAllocation dist (0, []) in
  let errors :=
    if negb (total =? 333) then errors ++ [TotalMismatch total] else errors in
  let stationIds := stationId <$> dist in
  let uniqueIds : gset Z := list_to_set stationIds in
  let errors :=
    if negb (size uniqueIds =? length stationIds)%nat
    then errors ++ [DuplicateStationIds]
    else errors in
  {| valid := (length errors =? 0)%nat; total := total; errors := errors |}.

Definition validateStationDistribution : Validation :=
  validateDistribution STATION_DISTRIBUTION.

(** ** Metaplex metadata ([buildMetadataJson]) *)

Record CollectionConfig := {
  collection_name : string;
  collection_symbol : string;
  collection_family : string;
  description_base : string;
  seller_fee_basis_points : Z;
  image_cid : string;
  external_url : string;
  creator_address : string }.

(** [string | number] *)
Inductive AttributeValue := Text (s : string) | Numeric (n : Z).

Record MetaplexAttribute := {
  trait_type : string;
  attr_value : AttributeValue;
  display_type : option string;
  attr_category : option TraitCategory;
  attr_score : option Z }.

Record MetaplexCreator := { creator : string; share : Z }.

Record MetaplexCollection := { mc_name : string; mc_family : string }.

Record MetaplexFile := { uri : string; file_type : string }.

Record MetaplexProperties := {
  properties_category : string;
  files : list MetaplexFile;
  creators : list MetaplexCreator }.

Record MetaplexMetadata := {
  meta_name : string;
  meta_symbol : string;
  meta_description : string;
  meta_seller_fee_basis_points : Z;
  meta_image : string;
  meta_external_url : string;
  meta_collection : MetaplexCollection;
  meta_attributes : list MetaplexAttribute;
  meta_properties : MetaplexProperties }.

(** [String(n)] for an integer [n]: its decimal digits, with a minus sign
    if it is negative (JavaScript writes all the digits of an integer of
    magnitude below 10^21). *)
Definition stringOfInt (n : Z) : string :=
  DecimalString.NilZero.string_of_int (Z.to_int n).

(** [s.padStart(n, "0")] *)
Definition padStartZero (n : nat) (s : string) : string :=
  string_of_list_ascii (replicate (n - String.length s) "0"%char) +:+ s.

Definition pad3 (id : Z) : string := padStartZero 3 (stringOfInt id).

(** The string an archetype is. *)
Definition archetypeName (a : Archetype) : string :=
  match a with Bull => "Bull" | Bear => "Bear" | Hybrid => "Hybrid" end.

(** An attribute without [display_type], [category] and [score]. *)
Definition plainAttribute (name : string) (v : AttributeValue) : MetaplexAttribute :=
  {| trait_type := name; attr_value := v; display_type := None;
     attr_category := None; attr_score := None |}.

Definition numberAttribute (name : string) (n : Z) : MetaplexAttribute :=
  {| trait_type := name; attr_value := Numeric n; display_type := Some "number";
     attr_category := None; attr_score := None |}.

(** [nft.traits.map((t) => ({ trait_type: t.traitType, value: t.value,
    category: t.category, score: t.score }))] *)
Definition traitAttribute (t : GeneratedTrait) : MetaplexAttribute :=
  {| trait_type := traitType t; attr_value := Text (value t);
     display_type := None; attr_category := Some (category t);
     attr_score := Some (score t) |}.

(** [buildMetadataJson(nft, config)]; [collection] is [config.collection],
    all it reads of the configuration. *)
Definition buildMetadataJson (nft : GeneratedNft) (collection : CollectionConfig)
  : MetaplexMetadata :=
  let attrs :=
    [ numberAttribute "Station" (station_id (nft_station nft));
      plainAttribute "Station Name" (Text (station_name (nft_station nft)));
      plainAttribute "Archetype" (Text (archetypeName (nft_archetype nft)));
      plainAttribute "Tier" (Text (tier_name (tier nft)));
      numberAttribute "Tier Score" (totalScore nft);
      plainAttribute "Hero Journey Stage" (Text (station_name (nft_station nft)));
      numberAttribute "Hero Journey Progress" (station_id (nft_station nft)) ]
    ++ (traitAttribute <$> traits nft)
    ++ [ plainAttribute "Inscription Tag" (Text (inscriptionTag nft));
         {| trait_type := "Mint Timestamp"; attr_value := Numeric (mintTimestamp nft);
            display_type := Some "date"; attr_category := None;
            attr_score := None |} ] in
  {| meta_name :=
       collection_name collection +:+ " #" +:+ pad3 (nft_id nft)
       +:+ " ‚Äì Station " +:+ stringOfInt (station_id (nft_station nft))
       +:+ ": " +:+ station_name (nft_station nft);
     meta_symbol := collection_symbol collection;
     meta_description := description_base collection;
     meta_seller_fee_basis_points := seller_fee_basis_points collection;
     meta_image :=
       "ipfs://" +:+ image_cid collection +:+ "/" +:+ stringOfInt (nft_id nft)
       +:+ ".png";
     meta_external_url := external_url collection;
     meta_collection :=
       {| mc_name := collection_name collection;
          mc_family := collection_family collection |};
     meta_attributes := attrs;
     meta_properties :=
       {| properties_category := "image";
          files := [ {| uri := stringOfInt (nft_id nft) +:+ ".png";
                        file_type := "image/png" |} ];
          creators := [ {| creator := creator_address collection;
                           share := 100 |} ] |} |}.

(** ** The whole run ([generateCollection])

    [generateCollection] from the configuration [loadConfig] returned on:
    the validation of the distribution, the choice of the seed, the
    blueprints, and for each blueprint in turn its record, its metadata
    and the write of its file.  The file system accepts every operation;
    a write is recorded by the name of the file inside the output
    directory and the metadata serialised into it.  [now] is the value of
    [Date.now()]. *)

Definition DEFAULT_SEED : jsstring := ofString "surge-bulls-void-bears-genesis".

(** [seed || process.env.SEED || "surge-bulls-void-bears-genesis"]: an
    absent or empty string is falsy. *)
Definition chooseSeed (seed env : option jsstring) : jsstring :=
  match seed with
  | Some (ch :: s) => ch :: s
  | _ =>
      match env with
      | Some (ch :: s) => ch :: s
      | _ => DEFAULT_SEED
      end
  end.

Record MetadataFile := {
  file_name : string;
  file_content : MetaplexMetadata }.

Inductive collectionError :=
  | ValidationFailed (errors : list distributionError)
      (* Error: Station distribution validation failed *)
  | Failed (e : error).

(** What a run leaves behind: the error it stopped with, if any, the
    files written, in the order of the writes, and the number of calls of
    the generator. *)
Record Run := {
  run_error : option collectionError;
  run_files : list MetadataFile;
  run_draws : nat }.

Section Collection.
Context {St : Type}.
Variable next : St -> dyadic * St.

(** [for (const bp of blueprints)]: record, metadata, file, one
    blueprint after the other; an exception leaves the files written so
    far. *)
Fixpoint writeMetadata (config : MetaGenConfig) (collection : CollectionConfig)
    (mintTimestamp : Z) (blueprints : list NftBlueprint)
    (written : list MetadataFile) (c : Cursor St)
  : option error * list MetadataFile * Cursor St :=
  match blueprints with
  | [] => (None, written, c)
  | bp :: blueprints' =>
      match buildGeneratedNft next bp config mintTimestamp c with
      | (inl e, c') => (Some e, written, c')
      | (inr nft, c') =>
          let meta := buildMetadataJson nft collection in
          let idStr := pad3 (nft_id nft) in
          writeMetadata config collection mintTimestamp blueprints'
            (written ++ [ {| file_name := idStr +:+ ".json";
                             file_content := meta |} ]) c'
      end
  end.

End Collection.

Definition generateCollection (config : MetaGenConfig) (collection : CollectionConfig)
    (seed env : option jsstring) (now : Z) : Run :=
  let validation := validateStationDistribution in
  if negb (valid validation) then
    {| run_error := Some (ValidationFailed (errors validation));
       run_files := []; run_draws := 0 |}
  else
    let rngSeed := chooseSeed seed env in
    match buildNftBlueprints lcgNext config STATION_DISTRIBUTION
            (fresh (createRng rngSeed)) with
    | (inl e, c) =>
        {| run_error := Some (Failed e); run_files := []; run_draws := calls c |}
    | (inr blueprints, c) =>
        if negb (length blueprints =? 333)%nat then
          {| run_error := Some (Failed (ExpectedBlueprints (length blueprints)));
             run_files := []; run_draws := calls c |}
        else
          let '(e, written, c') :=
            writeMetadata lcgNext config collection now blueprints [] c in
          {| run_error := Failed <$> e; run_files := written;
             run_draws := calls c' |}
    end.

(** ** Placeholder assets ([create-placeholder-assets.ts]) *)

(** [text.replace(/ch/g, replacement)] for a pattern of one character:
    every occurrence, from left to right. *)
Definition replaceAll (ch : N) (replacement : jsstring) (text : jsstring) : jsstring :=
  flat_map (fun c => if (c =? ch)%N then replacement else [c]) text.

Definition AMPERSAND : N := 38.
Definition LESS_THAN : N := 60.
Definition GREATER_THAN : N := 62.
Definition QUOTATION_MARK : N := 34.
Definition APOSTROPHE : N := 39.

Definition escapeXml (text : jsstring) : jsstring :=
  replaceAll APOSTROPHE (ofString "&apos;")
    (replaceAll QUOTATION_MARK (ofString "&quot;")
      (replaceAll GREATER_THAN (ofString "&gt;")
        (replaceAll LESS_THAN (ofString "&lt;")
          (replaceAll AMPERSAND (ofString "&amp;") text)))).

(** ** Layer assets ([image-generator.ts])

    The part of the image generator that decides which files are drawn,
    and in which order.  The configuration is read here with an [asset]
    file name for every trait.  Two library functions are left open:
    [toLowerCase], the lower-casing of a string, and [pathJoin], the
    joining of the segments of a path. *)

Record AssetTrait := { asset_trait_name : string; asset : option string }.

Record AssetLayer := { asset_layer_key : string; asset_traits : list AssetTrait }.

Record LayerAsset := { asset_key : string; assetPath : string }.

(** From back to front. *)
Definition LAYER_ORDER : list string :=
  ["background"; "body"; "headwear"; "eyes"; "mouth"; "accessory"; "aura"].

(** [null] for an unknown layer or trait, and what [trait.asset] holds
    else. *)
Definition resolveAssetForTrait (config : list AssetLayer)
    (layerKey traitValue : string) : option string :=
  match List.find (fun l => String.eqb (asset_layer_key l) layerKey) config with
  | None => None
  | Some layer =>
      match List.find (fun t => String.eqb (asset_trait_name t) traitValue)
                      (asset_traits layer) with
      | None => None
      | Some trait => asset trait
      end
  end.

(** [String(attr.value)] *)
Definition stringOfValue (v : AttributeValue) : string :=
  match v with
  | Text s => s
  | Numeric n => stringOfInt n
  end.

Section ImageGenerator.
Variable toLowerCase : string -> string.
Variable pathJoin : list string -> string.

(** One round of the loop of [extractLayerAssets]: the asset of the layer
    [layerKey], if the metadata has an attribute for the layer and the
    configuration an asset file for its value. *)
Definition layerAsset (attributes : list MetaplexAttribute)
    (config : list AssetLayer) (assetsDir layerKey : string) : option LayerAsset :=
  match List.find (fun a => negb (String.eqb (trait_type a) "")
                            && String.eqb (toLowerCase (trait_type a))
                                          (toLowerCase layerKey))
                  attributes with
  | None => None
  | Some attr =>
      let traitValue := stringOfValue (attr_value attr) in
      match resolveAssetForTrait config layerKey traitValue with
      | None => None
      | Some assetFilename =>
          if String.eqb assetFilename "" then None
          else Some {| asset_key := layerKey;
                       assetPath := pathJoin [assetsDir; layerKey; assetFilename] |}
      end
  end.

Definition extractLayerAssets (attributes : list MetaplexAttribute)
    (config : list AssetLayer) (assetsDir : string) : list LayerAsset :=
  fold_left (fun assets layerKey =>
               match layerAsset attributes config assetsDir layerKey with
               | None => assets
               | Some layerAsset => assets ++ [layerAsset]
               end)
            LAYER_ORDER [].

End ImageGenerator.

(** [s.replace(pattern, replacement)] for a pattern that is a string:
    the first occurrence, if there is one. *)
Fixpoint replaceFirst (pattern replacement s : string) : string :=
  if String.prefix pattern s
  then replacement +:+ String.substring (String.length pattern)
                         (String.length s - String.length pattern) s
  else match s with
       | EmptyString => EmptyString
       | String a s' => String a (replaceFirst pattern replacement s')
       end.

(** The name [generateAllImages] gives the image of a metadata file:
    [jsonFile.replace(".json", ".png")]. *)
Definition imageFilename (jsonFile : string) : string :=
  replaceFirst ".json" ".png" jsonFile.

(** ** Vocabulary of the further properties *)

(** A layer has a trait to pick. *)
Definition hasTraits (layer : LayerConfig) : Prop := layer_traits layer <> [].

(** Every weight of the scoring table lies between [lo] and [hi]. *)
Definition weightsWithin (config : MetaGenConfig) (lo hi : Z) : Prop :=
  forall cat, lo <= categories (scoring config) cat <= hi.

(** Each tier starts right after the one before it ends. *)
Fixpoint consecutive (tiers : list TierThreshold) : Prop :=
  match tiers with
  | t1 :: ((t2 :: _) as tiers') => tier_min t2 = tier_max t1 + 1 /\ consecutive tiers'
  | _ => True
  end.

(** The tiers are consecutive and reach from [lo] or below to [hi] or
    above. *)
Definition tiersSpan (tiers : list TierThreshold) (lo hi : Z) : Prop :=
  consecutive tiers /\
  exists t1 tn, head tiers = Some t1 /\ last tiers = Some tn /\
    tier_min t1 <= lo /\ hi <= tier_max tn.

(** The escaping of one character. *)
Definition escapeChar (c : N) : jsstring :=
  if (c =? AMPERSAND)%N then ofString "&amp;"
  else if (c =? LESS_THAN)%N then ofString "&lt;"
  else if (c =? GREATER_THAN)%N then ofString "&gt;"
  else if (c =? QUOTATION_MARK)%N then ofString "&quot;"
  else if (c =? APOSTROPHE)%N then ofString "&apos;"
  else [c].

(** A character that markup gives a meaning to. *)
Definition isMarkup (c : N) : bool :=
  ((c =? LESS_THAN) || (c =? GREATER_THAN) || (c =? QUOTATION_MARK)
   || (c =? APOSTROPHE))%N.

(** The name of the file of record number [id]. *)
Definition fileNameOf (id : Z) : string := pad3 id +:+ ".json".

(** The decimal number a string of digits writes. *)
Definition parseDecimal (s : string) : option Z :=
  Z.of_int <$> DecimalString.NilZero.int_of_string s.

(** The generated trait of a layer for the trait picked from it. *)
Definition traitOf (config : MetaGenConfig) (layer : LayerConfig) (trait : TraitConfig)
  : GeneratedTrait :=
  {| layerKey := layer_key layer;
     traitType := layer_name layer;
     value := trait_name trait;
     category := trait_category trait;
     score := categories (scoring config) (trait_category trait) |}.

(** The count of one archetype. *)
Definition countOf (a : Archetype) (counts : ArchetypeCounts) : Z :=
  match a with
  | Bull => bulls counts
  | Bear => bears counts
  | Hybrid => hybrids counts
  end.

(** The blueprints of one archetype at the station with id [sid]. *)
Definition blueprintsAt (sid : Z) (a : Archetype) (blueprints : list NftBlueprint)
  : list NftBlueprint :=
  filter (fun bp => station_id (bp_station bp) = sid /\ bp_archetype bp = a)
         blueprints.

(** The errors one round of the validation adds. *)
Definition allocationErrors (alloc : StationAllocation) : list distributionError :=
  (if ratioMismatch alloc
   then [RatioMismatch (stationId alloc) (actualRatio alloc) (expectedRatio alloc)]
   else [])
  ++ (if invalidStationId alloc then [InvalidStationId (stationId alloc)] else []).

(** [attributes.find((a) => a.trait_type === name)]: how the attributes
    are read. *)
Definition findAttribute (name : string) (attrs : list MetaplexAttribute)
  : option MetaplexAttribute :=
  List.find (fun a => String.eqb (trait_type a) name) attrs.

(** What an attribute tells of a trait, if it carries a category and a
    score. *)
Definition traitOfAttribute (a : MetaplexAttribute)
  : option (string * AttributeValue * TraitCategory * Z) :=
  match attr_category a, attr_score a with
  | Some cat, Some s => Some (trait_type a, attr_value a, cat, s)
  | _, _ => None
  end.

(** The file of a record. *)
Definition metadataFile (collection : CollectionConfig) (nft : GeneratedNft)
  : MetadataFile :=
  {| file_name := fileNameOf (nft_id nft);
     file_content := buildMetadataJson nft collection |}.

(** The draws of a whole run over [n] layers: one per exchange of the
    shuffle, then one per layer and four for the tag of each record. *)
Definition drawsOfRun (n : nat) : nat := (332 + 333 * (n + 4))%nat.

(** The five entities. *)
Definition ENTITIES : list jsstring :=
  [ ofString "&amp;"; ofString "&lt;"; ofString "&gt;"; ofString "&quot;";
    ofString "&apos;" ].

(** What a character becomes: an entity, or itself if it is neither an
    ampersand nor markup. *)
Definition isToken (token : jsstring) : Prop :=
  token ∈ ENTITIES \/
  exists c, token = [c] /\ c <> AMPERSAND /\ isMarkup c = false.

(** ** Further inputs of the examples

    A collection block, a configuration that knows no station, one whose
    second layer has no trait, a blueprint, and a document without any of
    the parts [loadConfig] looks at. *)

Definition sampleCollection : CollectionConfig :=
  {| collection_name := "Surge Bulls & Void Bears";
     collection_symbol := "SBVB";
     collection_family := "Surge Bulls & Void Bears";
     description_base := "333 heroes on their journey";
     seller_fee_basis_points := 500;
     image_cid := "CID";
     external_url := "https://example.org";
     creator_address := "creator" |}.

Definition configWithoutStations : MetaGenConfig :=
  {| scoring := scoring sampleConfig; stations := []; layers := layers sampleConfig |}.

Definition emptyLayer : LayerConfig :=
  {| layer_name := "Body"; layer_key := "body"; layer_traits := [] |}.

Definition configWithEmptyLayer : MetaGenConfig :=
  {| scoring := scoring sampleConfig; stations := stations sampleConfig;
     layers := [ sampleLayer "Background" "background"; emptyLayer;
                 sampleLayer "Eyes" "eyes" ] |}.

Definition sampleBlueprint : NftBlueprint :=
  {| bp_id := 1; bp_station := {| station_id := 8; station_name := "The Ordeal" |};
     bp_archetype := Hybrid |}.

Definition emptyJson : JsonConfig :=
  {| jc_layers := None; jc_scoring := None; jc_stations := None |}.

(** * Properties *)

(** ** The model at work *)

Example round53_exact_below_2p53 : round53 9007199254740991 = 9007199254740991.
Proof. reflexivity. Qed.

Example round53_tie_to_even :
  round53 9007199254740993 = 9007199254740992 /\
  round53 9007199254740995 = 9007199254740996.
Proof. split; reflexivity. Qed.

Example mathRound_half_up :
  mathRound (Dyadic 27 1) = 14 /\ mathRound (Dyadic (-1) 1) = 0 /\
  mathRound (Dyadic (-3) 1) = -1.
Proof. repeat split; reflexivity. Qed.

Example station_8_counts :
  getArchetypeCounts
    {| stationId := 8; count := 29; bullRatio := ratio_0_48;
       bearRatio := ratio_0_48; hybridCount := Some 1 |}
  = {| bulls := 13; bears := 15; hybrids := 1 |}.
Proof. vm_compute. reflexivity. Qed.

Example jsSwap_inside_array :
  jsSwap [Some 10; Some 20; Some 30] 2 0 = [Some 30; Some 20; Some 10].
Proof. reflexivity. Qed.

(** An index past the end stores [undefined] in slot [i] and grows the
    array. *)
Example jsSwap_past_the_end :
  jsSwap [Some 10; Some 20] 1 3 = [Some 10; None; None; Some 20].
Proof. reflexivity. Qed.

Example first_draws_of_test_seed :
  createRng sampleSeed = 2351 /\
  drawNumber 1 sampleSeed = Dyadic 632235202 32 /\
  drawNumber 2 sampleSeed = Dyadic 2246778169 32 /\
  (generateTag lcgNext (fresh (createRng sampleSeed))).1 = inr "ESUY".
Proof. repeat split; vm_compute; reflexivity. Qed.

Example resolveTier_without_tiers : resolveTier 50 [] = inl TypeError.
Proof. reflexivity. Qed.

Example resolveTier_outside :
  resolveTier 300 sampleTiers = inl (ScoreOutsideTiers 300 49 294).
Proof. reflexivity. Qed.


(** ** Binary64 rounding *)

Lemma roundNat53_small n : n < 2 ^ 53 -> roundNat53 n = n.
Proof.
  intros Hn. unfold roundNat53.
  destruct (Z.leb_spec (Z.log2 n - 52) 0) as [|Hb]; [done|].
  exfalso. destruct (Z.le_gt_cases n 0) as [H0|H0].
  - rewrite Z.log2_nonpos in Hb by done. lia.
  - apply Z.log2_lt_pow2 in Hn; lia.
Qed.

Lemma roundNat53_nonneg n : 0 <= n -> 0 <= roundNat53 n.
Proof.
  intros Hn. unfold roundNat53.
  destruct (Z.leb_spec (Z.log2 n - 52) 0) as [|Hb]; [done|].
  assert (0 < 2 ^ (Z.log2 n - 52)) by (apply Z.pow_pos_nonneg; lia).
  assert (0 <= n / 2 ^ (Z.log2 n - 52)) by (apply Z.div_pos; lia).
  destruct (_ || _); nia.
Qed.

(** Rounding moves a number up by at most half a unit in the last place. *)
Lemma roundNat53_upper n :
  2 ^ 53 <= n -> roundNat53 n <= n + 2 ^ (Z.log2 n - 53).
Proof.
  intros Hn. unfold roundNat53.
  assert (53 <= Z.log2 n) by (apply Z.log2_le_pow2; lia).
  destruct (Z.leb_spec (Z.log2 n - 52) 0) as [|Hb]; [lia|].
  set (b := Z.log2 n - 52) in *.
  replace (Z.log2 n - 53) with (b - 1) by lia.
  assert (Hpow : 2 ^ b = 2 * 2 ^ (b - 1)).
  { rewrite <- Z.pow_succ_r by lia. f_equal. lia. }
  assert (0 < 2 ^ (b - 1)) by (apply Z.pow_pos_nonneg; lia).
  pose proof (Z.div_mod n (2 ^ b) ltac:(lia)) as Hdm.
  pose proof (Z.mod_pos_bound n (2 ^ b) ltac:(lia)) as Hr.
  destruct (Z.ltb_spec (2 ^ (b - 1)) (n mod 2 ^ b)) as [Hlt|Hge]; simpl.
  - nia.
  - destruct (Z.eqb_spec (n mod 2 ^ b) (2 ^ (b - 1))) as [Heq|Hne]; simpl.
    + destruct (Z.odd _); nia.
    + nia.
Qed.

Lemma round53_nonneg_eq n : 0 <= n -> round53 n = roundNat53 n.
Proof.
  intros Hn. unfold round53. rewrite Z.abs_eq by done.
  destruct (Z.eq_dec n 0) as [->|]; [done|].
  rewrite Z.sgn_pos by lia. lia.
Qed.

Lemma round53_small n : 0 <= n < 2 ^ 53 -> round53 n = n.
Proof. intros [? ?]. rewrite round53_nonneg_eq, roundNat53_small; done. Qed.

Lemma round53_nonneg n : 0 <= n -> 0 <= round53 n.
Proof. intros ?. rewrite round53_nonneg_eq by done. by apply roundNat53_nonneg. Qed.

(** Rounding never passes a number that binary64 represents exactly. *)
Lemma roundNat53_below n m j :
  0 <= n <= m * 2 ^ j -> 0 <= m < 2 ^ 53 -> 0 <= j ->
  roundNat53 n <= m * 2 ^ j.
Proof.
  intros [Hn0 Hn] [Hm0 Hm] Hj.
  destruct (Z.lt_ge_cases n (2 ^ 53)) as [Hs|Hb53].
  { by rewrite roundNat53_small. }
  unfold roundNat53.
  assert (H53 : 53 <= Z.log2 n) by (apply Z.log2_le_pow2; lia).
  destruct (Z.leb_spec (Z.log2 n - 52) 0) as [|Hb]; [lia|].
  set (b := Z.log2 n - 52) in *.
  assert (Hpb : 0 < 2 ^ b) by (apply Z.pow_pos_nonneg; lia).
  assert (Hpj : 0 < 2 ^ j) by (apply Z.pow_pos_nonneg; lia).
  pose proof (Z.div_mod n (2 ^ b) ltac:(lia)) as Hdm.
  pose proof (Z.mod_pos_bound n (2 ^ b) ltac:(lia)) as Hr.
  assert (Hq : 2 ^ 52 <= n / 2 ^ b).
  { apply Z.div_le_lower_bound; [done|].
    rewrite Z.mul_comm, <- Z.pow_add_r by lia.
    replace (52 + b) with (Z.log2 n) by lia. apply Z.log2_spec. lia. }
  assert (Hhalf : 0 < 2 ^ (b - 1)) by (apply Z.pow_pos_nonneg; lia).
  destruct (_ || _) eqn:Hup; [|nia].
  assert (Hrpos : 0 < n mod 2 ^ b).
  { apply orb_true_iff in Hup as [Hlt|Heq].
    - apply Z.ltb_lt in Hlt. lia.
    - apply andb_true_iff in Heq as [Heq _]. apply Z.eqb_eq in Heq. lia. }
  destruct (Z.lt_ge_cases j b) as [Hjb|Hjb].
  - exfalso.
    assert (2 ^ j <= 2 ^ (b - 1)) by (apply Z.pow_le_mono_r; lia).
    assert (2 ^ b = 2 * 2 ^ (b - 1)).
    { rewrite <- Z.pow_succ_r by lia. f_equal. lia. }
    change (2 ^ 53) with 9007199254740992 in *.
    change (2 ^ 52) with 4503599627370496 in *. nia.
  - assert (Hsplit : 2 ^ j = 2 ^ (j - b) * 2 ^ b).
    { rewrite <- Z.pow_add_r by lia. f_equal. lia. }
    assert (0 < 2 ^ (j - b)) by (apply Z.pow_pos_nonneg; lia).
    rewrite Hsplit in *.
    destruct (Z.lt_ge_cases (m * 2 ^ (j - b)) (n / 2 ^ b + 1)); nia.
Qed.

(** The product of a draw and a length never rounds up to the length:
    [Math.floor(rng() * n)] is a valid index of an array of length [n]. *)
Lemma floorMul_bound d n : is_draw d -> 0 < n -> 0 <= floorMul d n < n.
Proof.
  intros ([Hn0 Hn53] & Hlt & [He _]) Hn. unfold floorMul, mathFloor, mulInt; simpl.
  set (N := n * d_num d).
  assert (HN : 0 <= N) by (unfold N; nia).
  assert (Hpe : 0 < 2 ^ d_exp d) by (apply Z.pow_pos_nonneg; lia).
  rewrite round53_nonneg_eq by done.
  split.
  - apply Z.div_pos; [by apply roundNat53_nonneg | done].
  - apply Z.div_lt_upper_bound; [done|].
    destruct (Z.lt_ge_cases N (2 ^ 53)) as [Hs|Hb].
    + rewrite roundNat53_small by done. unfold N. nia.
    + pose proof (roundNat53_upper N Hb) as Hup.
      assert (53 <= Z.log2 N) by (apply Z.log2_le_pow2; lia).
      assert (Hlog : 2 ^ Z.log2 N <= N) by (apply Z.log2_spec; lia).
      assert (Hsplit : 2 ^ Z.log2 N = 2 ^ (Z.log2 N - 53) * 2 ^ 53).
      { rewrite <- Z.pow_add_r by lia. f_equal. lia. }
      assert (0 < 2 ^ (Z.log2 N - 53)) by (apply Z.pow_pos_nonneg; lia).
      assert (2 ^ (Z.log2 N - 53) < n) by (unfold N in *; nia).
      unfold N in *. nia.
Qed.

Lemma floorMul_zero d : floorMul d 0 = 0.
Proof. unfold floorMul, mathFloor, mulInt; simpl. done. Qed.

(** When the product fits 53 bits the multiplication is exact. *)
Lemma floorMul_exact d n :
  0 <= n * d_num d < 2 ^ 53 -> floorMul d n = n * d_num d / 2 ^ d_exp d.
Proof. intros H. unfold floorMul, mathFloor, mulInt; simpl. by rewrite round53_small. Qed.

(** ** The monad *)

Section GenFacts.
Context {St : Type}.
Variable next : St -> dyadic * St.

Lemma bind_ok {A B} (m : Gen St A) (k : A -> Gen St B) c b c2 :
  bind m k c = (inr b, c2) ->
  exists a c1, m c = (inr a, c1) /\ k a c1 = (inr b, c2).
Proof.
  unfold bind. destruct (m c) as [[e|a] c1]; [done|]. eauto.
Qed.

Lemma rng_run c :
  rng next c = (inr (fst (next (state c))),
                mkCursor (snd (next (state c))) (S (calls c))).
Proof. unfold rng. by destruct (next (state c)). Qed.

End GenFacts.

(** Run the call of [rng] that a computation starts with. *)
Ltac call_rng := unfold bind at 1; rewrite rng_run.


Section ShuffleFacts.
Context {St : Type}.
Variable next : St -> dyadic * St.

Lemma advance_S k s : advance next (S k) s = advance next k (snd (next s)).
Proof. unfold advance. by rewrite Nat.iter_succ_r. Qed.

Lemma advance_add j k s :
  advance next (j + k) s = advance next k (advance next j s).
Proof.
  revert s. induction j as [|j IH]; intros s; [done|].
  change (S j + k)%nat with (S (j + k)). by rewrite !advance_S, IH.
Qed.

Lemma draws_in_range_step s :
  draws_in_range next s ->
  is_draw (fst (next s)) /\ draws_in_range next (snd (next s)).
Proof.
  intros H. split; [exact (H 0%nat)|].
  intros k. rewrite <- advance_S. apply H.
Qed.

Lemma draws_in_range_advance k s :
  draws_in_range next s -> draws_in_range next (advance next k s).
Proof.
  intros H j. rewrite <- advance_add. apply H.
Qed.

Lemma jsWrite_inside {T} (array : list (option T)) i v :
  (i < length array)%nat -> jsWrite array i v = <[i := v]> array.
Proof.
  intros Hi. unfold jsWrite.
  by destruct (Nat.ltb_spec i (length array)); [|lia].
Qed.

(** With both indices inside an array of values the exchange swaps two
    values and nothing else. *)
Lemma jsSwap_inside {T} (l : list T) (i j : nat) :
  (i < length l)%nat -> (j <= i)%nat ->
  exists x y, l !! i = Some x /\ l !! j = Some y /\
    jsSwap (Some <$> l) i j = Some <$> <[j := x]> (<[i := y]> l).
Proof.
  intros Hi Hj.
  destruct (lookup_lt_is_Some_2 l i Hi) as [x Hx].
  destruct (lookup_lt_is_Some_2 l j ltac:(lia)) as [y Hy].
  exists x, y. split; [done|]. split; [done|].
  unfold jsSwap, jsRead. rewrite !list_lookup_fmap, Hx, Hy. simpl.
  rewrite (jsWrite_inside (Some <$> l)) by (rewrite length_fmap; lia).
  rewrite jsWrite_inside by (rewrite length_insert, length_fmap; lia).
  by rewrite !list_fmap_insert.
Qed.

(** The index drawn at loop position [i] lies between 0 and [i]. *)
Lemma shuffle_index d (i : nat) :
  is_draw d -> (Z.to_nat (floorMul d (Z.of_nat i + 1)) <= i)%nat.
Proof.
  intros Hd. pose proof (floorMul_bound d (Z.of_nat i + 1) Hd ltac:(lia)). lia.
Qed.

(** The loop always runs to its end, calling the draw function once per
    index. *)
Lemma shuffleFrom_run {T} i (array : list (option T)) c :
  exists out,
    shuffleFrom next i array c
      = (inr out, mkCursor (advance next i (state c)) (calls c + i)).
Proof.
  revert array c. induction i as [|i IH]; intros array c.
  - exists array. simpl. unfold ret. destruct c as [s n]; simpl.
    by rewrite Nat.add_0_r.
  - cbn [shuffleFrom]. call_rng.
    destruct (IH (jsSwap array (S i)
                    (Z.to_nat (floorMul (fst (next (state c))) (Z.of_nat (S i) + 1))))
                 (mkCursor (snd (next (state c))) (S (calls c))))
      as (out & Hrun).
    exists out. rewrite Hrun. cbn [state calls].
    rewrite advance_S. do 2 f_equal. lia.
Qed.

(** With draws in [0,1) every exchange stays inside the array: the
    result holds the same values, rearranged. *)
Lemma shuffleFrom_perm {T} i (l : list T) c :
  (i < length l)%nat ->
  draws_in_range next (state c) ->
  exists l',
    (shuffleFrom next i (Some <$> l) c).1 = inr (Some <$> l') /\ l' ≡ₚ l.
Proof.
  revert l c. induction i as [|i IH]; intros l c Hi Hr.
  - exists l. done.
  - cbn [shuffleFrom]. call_rng.
    apply draws_in_range_step in Hr as [Hd Hr].
    pose proof (shuffle_index _ (S i) Hd) as Hj.
    destruct (jsSwap_inside l (S i) _ Hi Hj) as (x & y & Hx & Hy & ->).
    destruct (IH (<[Z.to_nat (floorMul (fst (next (state c))) (Z.of_nat (S i) + 1)) := x]>
                    (<[S i := y]> l))
                 (mkCursor (snd (next (state c))) (S (calls c))))
      as (l' & Hrun & Hperm).
    { rewrite !length_insert. lia. }
    { done. }
    exists l'. split; [done|].
    rewrite Hperm. by apply Permutation_insert_swap.
Qed.

Lemma allDefined_Some {T} (l : list T) : allDefined (Some <$> l) = Some l.
Proof.
  induction l as [|x l IH]; [done|].
  change (Some <$> x :: l) with (Some x :: (Some <$> l)).
  cbn [allDefined]. by rewrite IH.
Qed.

End ShuffleFacts.

(** ** Blueprints *)

Lemma pushBlueprints_assign n station archetype blueprints id :
  assignment <$> (pushBlueprints n station archetype (blueprints, id)).1
  = (assignment <$> blueprints) ++ replicate n (station, archetype).
Proof.
  revert blueprints id. induction n as [|n IH]; intros blueprints id; simpl.
  - by rewrite app_nil_r.
  - rewrite IH, fmap_app, <- app_assoc. done.
Qed.

Lemma findStation_Some config sid s :
  findStation config sid = Some s -> s ∈ stations config /\ station_id s = sid.
Proof.
  intros H. apply find_some in H as [Hin Heq].
  split; [by apply list_elem_of_In | lia].
Qed.

Lemma findStation_covered config sid :
  (exists s, s ∈ stations config /\ station_id s = sid) ->
  is_Some (findStation config sid).
Proof.
  intros (s & Hin & Hid). unfold findStation.
  destruct (List.find _ _) eqn:Hf; [done|].
  apply list_elem_of_In in Hin.
  pose proof (find_none _ _ Hf s Hin) as Hn. simpl in Hn. lia.
Qed.

Lemma appendStations_assign config dist acc :
  coversStations config dist ->
  exists blueprints id,
    appendStations config dist acc = inr (blueprints, id) /\
    assignment <$> blueprints
    = (assignment <$> acc.1) ++ concat (expectedAssignments config <$> dist).
Proof.
  revert acc. induction dist as [|alloc dist IH]; intros [bps id] Hcov.
  - exists bps, id. simpl. by rewrite app_nil_r.
  - cbn [appendStations].
    destruct (findStation_covered config (stationId alloc)) as [station Hst].
    { apply Hcov. by left. }
    rewrite Hst.
    set (counts := getArchetypeCounts alloc).
    destruct (pushBlueprints (Z.to_nat (hybrids counts)) station Hybrid (bps, id))
      as [b1 i1] eqn:E1.
    destruct (pushBlueprints (Z.to_nat (bulls counts)) station Bull (b1, i1))
      as [b2 i2] eqn:E2.
    destruct (pushBlueprints (Z.to_nat (bears counts)) station Bear (b2, i2))
      as [b3 i3] eqn:E3.
    destruct (IH (b3, i3)) as (blueprints & id' & Hrun & Hass).
    { intros a Ha. apply Hcov. by right. }
    exists blueprints, id'. split; [done|].
    rewrite Hass. cbn [fst fmap list_fmap concat].
    pose proof (pushBlueprints_assign (Z.to_nat (bears counts)) station Bear b2 i2) as H3.
    pose proof (pushBlueprints_assign (Z.to_nat (bulls counts)) station Bull b1 i1) as H2.
    pose proof (pushBlueprints_assign (Z.to_nat (hybrids counts)) station Hybrid bps id) as H1.
    rewrite E3 in H3. rewrite E2 in H2. rewrite E1 in H1. simpl in H1, H2, H3.
    rewrite H3, H2, H1. unfold expectedAssignments. rewrite Hst. fold counts.
    by rewrite <- !app_assoc.
Qed.

(** Without a station for some allocation the builder throws. *)
Lemma appendStations_unknown config dist acc alloc :
  alloc ∈ dist -> findStation config (stationId alloc) = None ->
  exists sid, appendStations config dist acc = inl (UnknownStation sid).
Proof.
  revert acc. induction dist as [|a dist IH]; intros acc Hin Hnone.
  - by apply elem_of_nil in Hin.
  - cbn [appendStations]. destruct (findStation config (stationId a)) eqn:Hst.
    + apply elem_of_cons in Hin as [->|Hin]; [congruence|].
      by apply IH.
    + eauto.
Qed.

Lemma reassignIds_ids blueprints :
  bp_id <$> reassignIds blueprints = seqZ 1 (Z.of_nat (length blueprints)).
Proof.
  unfold reassignIds. rewrite fmap_imap.
  rewrite (imap_ext _ (fun j _ => Z.of_nat j + 1)) by done.
  rewrite imap_seq_0. unfold seqZ. by rewrite Nat2Z.id.
Qed.

Lemma reassignIds_assign blueprints :
  assignment <$> reassignIds blueprints = assignment <$> blueprints.
Proof.
  unfold reassignIds. rewrite fmap_imap.
  rewrite (imap_ext _ (fun _ bp => assignment bp)) by done.
  apply imap_const.
Qed.

Lemma reassignIds_length blueprints :
  length (reassignIds blueprints) = length blueprints.
Proof. apply length_imap. Qed.

Lemma expectedAssignments_length config alloc :
  is_Some (findStation config (stationId alloc)) ->
  countsNonNegative alloc ->
  Z.of_nat (length (expectedAssignments config alloc)) = count alloc.
Proof.
  intros [st Hst] (Hh & Hb & Hr). unfold expectedAssignments. rewrite Hst.
  rewrite !length_app, !length_replicate.
  unfold getArchetypeCounts in *. simpl in *. lia.
Qed.

Lemma expected_total config dist :
  coversStations config dist -> Forall countsNonNegative dist ->
  Z.of_nat (length (concat (expectedAssignments config <$> dist))) = sumCounts dist.
Proof.
  induction dist as [|alloc dist IH]; intros Hcov Hnn; [done|].
  apply Forall_cons in Hnn as [Ha Hnn].
  cbn [fmap list_fmap concat sumCounts fold_right]. rewrite length_app, Nat2Z.inj_add.
  rewrite expectedAssignments_length; [|apply findStation_covered, Hcov; by left|done].
  fold (sumCounts dist). rewrite IH; [done| |done].
  intros a Hin. apply Hcov. by right.
Qed.

(** ** The seeded generator *)

Lemma lcgNext_state_bound s :
  0 <= s -> 0 <= snd (lcgNext s) < LCG_M.
Proof.
  intros Hs. unfold lcgNext, jsAdd, jsMul. cbn [snd].
  assert (0 <= round53 (s * LCG_A)) by (apply round53_nonneg; unfold LCG_A; lia).
  assert (0 <= round53 (round53 (s * LCG_A) + LCG_C))
    by (apply round53_nonneg; unfold LCG_C; lia).
  apply Z.rem_bound_pos; [done | by unfold LCG_M].
Qed.

Lemma lcgNext_draw s : fst (lcgNext s) = Dyadic (snd (lcgNext s)) 32.
Proof. done. Qed.

Lemma advance_lcg_nonneg k s : 0 <= s -> 0 <= advance lcgNext k s.
Proof.
  intros Hs. induction k as [|k IH]; [done|].
  unfold advance in *. cbn [Nat.iter]. by apply lcgNext_state_bound.
Qed.

(** Every value the generator returns lies in [0,1), whatever its state. *)
Lemma lcg_draws_in_range s : 0 <= s -> draws_in_range lcgNext s.
Proof.
  intros Hs k. rewrite lcgNext_draw.
  pose proof (lcgNext_state_bound _ (advance_lcg_nonneg k s Hs)) as Hb.
  unfold LCG_M in Hb. unfold is_draw; cbn [d_num d_exp].
  change (2 ^ 32) with 4294967296. change (2 ^ 53) with 9007199254740992. lia.
Qed.

Lemma charCodeSum_from_nonneg seed a :
  0 <= a -> 0 <= fold_left (fun acc ch => jsAdd acc (Z.of_N ch)) seed a.
Proof.
  revert a. induction seed as [|ch seed IH]; intros a Ha; [done|].
  simpl. apply IH. apply round53_nonneg. lia.
Qed.

Lemma createRng_pos seed : 0 < createRng seed.
Proof.
  unfold createRng.
  pose proof (charCodeSum_from_nonneg seed 0 ltac:(lia)) as H.
  fold (charCodeSum seed) in H.
  destruct (Z.eqb_spec (charCodeSum seed) 0); lia.
Qed.

(** The generator made from any seed draws in [0,1) for ever. *)
Lemma createRng_in_range seed : draws_in_range lcgNext (createRng seed).
Proof. apply lcg_draws_in_range. pose proof (createRng_pos seed). lia. Qed.

(** ** Allocation *)

(** [Math.round] returns the integer nearest to its argument, the upper
    one of two equally near. *)
Lemma mathRound_nearest x :
  0 <= d_exp x ->
  (2 * mathRound x - 1) * 2 ^ d_exp x <= 2 * d_num x
    < (2 * mathRound x + 1) * 2 ^ d_exp x.
Proof.
  intros He. unfold mathRound.
  assert (Hp : 0 < 2 ^ d_exp x) by (apply Z.pow_pos_nonneg; lia).
  replace (2 ^ (d_exp x + 1)) with (2 * 2 ^ d_exp x)
    by (rewrite Z.pow_add_r by lia; lia).
  pose proof (Z.div_mod (2 * d_num x + 2 ^ d_exp x) (2 * 2 ^ d_exp x) ltac:(lia)).
  pose proof (Z.mod_pos_bound (2 * d_num x + 2 ^ d_exp x) (2 * 2 ^ d_exp x) ltac:(lia)).
  nia.
Qed.

(** A documented allocation gives no negative count. *)
Lemma wellFormed_countsNonNegative alloc :
  wellFormedAllocation alloc -> countsNonNegative alloc.
Proof.
  intros ([Hh0 Hh] & Hc & He & [Hn0 Hn]).
  unfold countsNonNegative, getArchetypeCounts. cbn [hybrids bulls bears].
  set (remaining := count alloc - orZero (hybridCount alloc)).
  set (e := d_exp (bullRatio alloc)) in *.
  set (num := d_num (bullRatio alloc)) in *.
  assert (Hrem : 0 <= remaining < 2 ^ 53) by (unfold remaining; lia).
  assert (Hpe : 0 < 2 ^ e) by (apply Z.pow_pos_nonneg; lia).
  assert (Hround : 0 <= round53 (remaining * num) <= remaining * 2 ^ e).
  { rewrite round53_nonneg_eq by nia. split; [apply roundNat53_nonneg; nia|].
    apply roundNat53_below; [nia | lia | lia]. }
  unfold mathRound, mulInt. cbn [d_num d_exp]. fold e num.
  replace (2 ^ (e + 1)) with (2 * 2 ^ e) by (rewrite Z.pow_add_r by lia; lia).
  set (p := round53 (remaining * num)) in *.
  assert (0 <= (2 * p + 2 ^ e) / (2 * 2 ^ e) <= remaining).
  { split; [apply Z.div_pos; lia|].
    apply Z.lt_succ_r, Z.div_lt_upper_bound; [lia|]. nia. }
  lia.
Qed.

Lemma STATION_DISTRIBUTION_wellFormed :
  Forall wellFormedAllocation STATION_DISTRIBUTION.
Proof.
  unfold STATION_DISTRIBUTION.
  repeat (apply Forall_cons; split;
          [unfold wellFormedAllocation; vm_compute; intuition discriminate|]).
  apply Forall_nil. done.
Qed.

Lemma STATION_DISTRIBUTION_nonneg : Forall countsNonNegative STATION_DISTRIBUTION.
Proof.
  eapply Forall_impl; [apply STATION_DISTRIBUTION_wellFormed|].
  apply wellFormed_countsNonNegative.
Qed.


(** ** The claims on the shuffle and the blueprints *)

(** C6. Shuffle draw count: on an array of length N >= 2 [shuffleInPlace]
    calls the draw function exactly N - 1 times, once per loop index from
    N - 1 down to 1, and on an array of length 0 or 1 it does not call it;
    it never throws. *)
Theorem shuffleInPlace_draw_count {St T} (next : St -> dyadic * St)
    (array : list (option T)) (c : Cursor St) :
  exists out,
    shuffleInPlace next array c
    = (inr out,
       mkCursor (advance next (length array - 1) (state c))
                (calls c + (if (length array <? 2)%nat then 0
                            else length array - 1))).
Proof.
  unfold shuffleInPlace.
  destruct (shuffleFrom_run next (length array - 1) array c) as (out & ->).
  exists out. do 2 f_equal.
  destruct (Nat.ltb_spec (length array) 2); lia.
Qed.

Lemma buildNftBlueprints_run {St} (next : St -> dyadic * St) config dist c :
  coversStations config dist ->
  draws_in_range next (state c) ->
  exists pre id shuffled c',
    appendStations config dist ([], 1) = inr (pre, id) /\
    buildNftBlueprints next config dist c = (inr (reassignIds shuffled), c') /\
    shuffled ≡ₚ pre /\
    assignment <$> pre = concat (expectedAssignments config <$> dist) /\
    c' = mkCursor (advance next (length pre - 1) (state c))
                  (calls c + (length pre - 1)).
Proof.
  intros Hcov Hr.
  destruct (appendStations_assign config dist ([], 1) Hcov)
    as (pre & id & Happ & Hass).
  unfold buildNftBlueprints. rewrite Happ.
  unfold bind, shuffleInPlace. rewrite length_fmap.
  destruct (shuffleFrom_run next (length pre - 1) (Some <$> pre) c) as (out & Hrun).
  destruct pre as [|b pre'].
  - exists [], id, [], c. simpl in *. unfold ret. destruct c; simpl.
    unfold advance; simpl. rewrite Nat.add_0_r. done.
  - destruct (shuffleFrom_perm next (length (b :: pre') - 1) (b :: pre') c)
      as (l' & Hout & Hperm); [simpl; lia | done |].
    rewrite Hrun in Hout |- *. simpl in Hout. injection Hout as ->.
    rewrite allDefined_Some. unfold ret.
    eexists (b :: pre'), id, l', _. repeat split; try done.
Qed.

Lemma coversStationsb_correct config dist :
  coversStationsb config dist = true -> coversStations config dist.
Proof.
  unfold coversStationsb. rewrite forallb_forall. intros H alloc Hin.
  apply list_elem_of_In in Hin. apply H in Hin.
  apply existsb_exists in Hin as (s & Hs & Heq).
  exists s. split; [by apply list_elem_of_In | lia].
Qed.

(** C4 (as amended). Id permutation: for every distribution none of whose
    allocations yields a negative archetype count (none does when the
    hybrid count lies between 0 and the station count and the bull ratio
    between 0 and 1, as in [STATION_DISTRIBUTION]), every configuration
    that knows the stations of the distribution and every draw function
    with values in [0,1), [buildNftBlueprints] returns as many blueprints
    as the counts of the distribution add up to (333 for
    [STATION_DISTRIBUTION]), and their ids, in order, are 1, 2, ...,
    total. *)
Theorem buildNftBlueprints_ids :
  (Forall wellFormedAllocation STATION_DISTRIBUTION /\
   sumCounts STATION_DISTRIBUTION = 333) /\
  (forall alloc, wellFormedAllocation alloc -> countsNonNegative alloc) /\
  forall St (next : St -> dyadic * St) config dist (c : Cursor St),
    Forall countsNonNegative dist ->
    coversStations config dist ->
    draws_in_range next (state c) ->
    exists blueprints c',
      buildNftBlueprints next config dist c = (inr blueprints, c') /\
      Z.of_nat (length blueprints) = sumCounts dist /\
      bp_id <$> blueprints = seqZ 1 (sumCounts dist).
Proof.
  split; [split; [apply STATION_DISTRIBUTION_wellFormed | done]|].
  split; [apply wellFormed_countsNonNegative|].
  intros St next config dist c Hnn Hcov Hr.
  destruct (buildNftBlueprints_run next config dist c Hcov Hr)
    as (pre & id & shuffled & c' & _ & Hrun & Hperm & Hass & _).
  exists (reassignIds shuffled), c'. split; [done|].
  assert (Hlen : Z.of_nat (length shuffled) = sumCounts dist).
  { rewrite Hperm. rewrite <- (expected_total config dist Hcov Hnn), <- Hass.
    by rewrite length_fmap. }
  rewrite reassignIds_length, reassignIds_ids, Hlen. done.
Qed.

(** The claim C4 as first stated fails on a distribution with a ratio
    above 1: six blueprints come out where the counts add up to four. *)
Lemma buildNftBlueprints_overfull :
  coversStations sampleConfig overfullDistribution /\
  draws_in_range lcgNext (state (fresh (createRng sampleSeed))) /\
  exists blueprints c',
    buildNftBlueprints lcgNext sampleConfig overfullDistribution
      (fresh (createRng sampleSeed)) = (inr blueprints, c') /\
    length blueprints = 6%nat /\
    sumCounts overfullDistribution = 4 /\
    bp_id <$> blueprints <> seqZ 1 (sumCounts overfullDistribution).
Proof.
  split; [by apply coversStationsb_correct|].
  split; [apply createRng_in_range|].
  eexists _, _. split; [vm_compute; reflexivity|].
  split; [done|]. split; [done|]. vm_compute. discriminate.
Qed.

(** C4 on the shipped distribution, the sample configuration and the test
    seed. *)
Lemma buildNftBlueprints_ids_witness :
  exists blueprints c',
    buildNftBlueprints lcgNext sampleConfig STATION_DISTRIBUTION
      (fresh (createRng sampleSeed)) = (inr blueprints, c') /\
    Z.of_nat (length blueprints) = sumCounts STATION_DISTRIBUTION /\
    bp_id <$> blueprints = seqZ 1 (sumCounts STATION_DISTRIBUTION).
Proof.
  apply (proj2 (proj2 buildNftBlueprints_ids)).
  - apply STATION_DISTRIBUTION_nonneg.
  - by apply coversStationsb_correct.
  - apply createRng_in_range.
Defined.

(** ** The single hybrid *)

Lemma filter_fmap_comm {A B} (f : A -> B) (P : B -> Prop)
    `{!forall y, Decision (P y)} (l : list A) :
  filter P (f <$> l) = f <$> filter (fun x => P (f x)) l.
Proof.
  induction l as [|x l IH]; [done|].
  rewrite fmap_cons, !filter_cons, IH. by destruct (decide (P (f x))).
Qed.

Lemma filter_replicate_hybrid (n : nat) (st : HeroStation) (a : Archetype) :
  filter (fun p : HeroStation * Archetype => p.2 = Hybrid) (replicate n (st, a))
  = if decide (a = Hybrid) then replicate n (st, a) else [].
Proof.
  induction n as [|n IH]; simpl.
  - by destruct (decide _).
  - rewrite filter_cons, IH. simpl. by destruct (decide (a = Hybrid)).
Qed.

Lemma expectedAssignments_hybrids config alloc st :
  findStation config (stationId alloc) = Some st ->
  filter (fun p : HeroStation * Archetype => p.2 = Hybrid)
         (expectedAssignments config alloc)
  = replicate (Z.to_nat (hybrids (getArchetypeCounts alloc))) (st, Hybrid).
Proof.
  intros Hst. unfold expectedAssignments. rewrite Hst.
  rewrite !filter_app, !filter_replicate_hybrid. simpl.
  by rewrite !app_nil_r.
Qed.

Lemma shipped_hybrids config :
  coversStations config STATION_DISTRIBUTION ->
  exists st8,
    findStation config 8 = Some st8 /\
    filter (fun p : HeroStation * Archetype => p.2 = Hybrid)
           (concat (expectedAssignments config <$> STATION_DISTRIBUTION))
    = [(st8, Hybrid)].
Proof.
  intros Hcov.
  assert (Hall : Forall (fun alloc => is_Some (findStation config (stationId alloc)))
                        STATION_DISTRIBUTION).
  { apply Forall_forall. intros alloc Hin. by apply findStation_covered, Hcov. }
  unfold STATION_DISTRIBUTION in *.
  repeat match goal with
         | H : Forall _ (_ :: _) |- _ => apply Forall_cons in H as [[? ?] H]
         end.
  simpl in *. eexists. split; [eassumption|].
  cbn [fmap list_fmap concat]. rewrite !filter_app.
  repeat (erewrite expectedAssignments_hybrids by (simpl; eassumption)).
  vm_compute. reflexivity.
Qed.

(** C9. Minority-category exactness: in [STATION_DISTRIBUTION] one
    station, station 8, declares a hybrid count, and that count is 1; for
    every configuration that knows the twelve stations and every draw
    function with values in [0,1), exactly one of the blueprints
    [buildNftBlueprints] returns is a Hybrid, and its station is station
    8; the shuffle and the renumbering rearrange the (station, archetype)
    pairs appended and change none. *)
Theorem single_hybrid_at_station_8 :
  omap (fun alloc => (fun h => (stationId alloc, h)) <$> hybridCount alloc)
       STATION_DISTRIBUTION = [(8, 1)] /\
  forall St (next : St -> dyadic * St) config (c : Cursor St),
    coversStations config STATION_DISTRIBUTION ->
    draws_in_range next (state c) ->
    exists blueprints c' hybrid appended id,
      buildNftBlueprints next config STATION_DISTRIBUTION c
        = (inr blueprints, c') /\
      filter (fun bp => bp_archetype bp = Hybrid) blueprints = [hybrid] /\
      station_id (bp_station hybrid) = 8 /\
      appendStations config STATION_DISTRIBUTION ([], 1) = inr (appended, id) /\
      assignment <$> blueprints ≡ₚ assignment <$> appended.
Proof.
  split; [done|].
  intros St next config c Hcov Hr.
  destruct (buildNftBlueprints_run next config STATION_DISTRIBUTION c Hcov Hr)
    as (pre & id & shuffled & c' & Happ & Hrun & Hperm & Hass & _).
  destruct (shipped_hybrids config Hcov) as (st8 & Hst8 & Hfil).
  assert (Hpairs : assignment <$> reassignIds shuffled ≡ₚ assignment <$> pre).
  { rewrite reassignIds_assign. by rewrite Hperm. }
  assert (Hone : assignment <$> filter (fun bp => bp_archetype bp = Hybrid)
                                       (reassignIds shuffled) = [(st8, Hybrid)]).
  { etrans; [symmetry; exact (filter_fmap_comm assignment
                  (fun p : HeroStation * Archetype => p.2 = Hybrid) _)|].
    apply Permutation_singleton_r. rewrite <- Hfil, <- Hass.
    by rewrite Hpairs. }
  destruct (filter _ (reassignIds shuffled)) as [|hybrid [|? ?]] eqn:Hf;
    try discriminate.
  injection Hone as Hh.
  exists (reassignIds shuffled), c', hybrid, pre, id.
  repeat split; try done.
  apply findStation_Some in Hst8 as [_ Hid].
  unfold assignment in Hh. congruence.
Qed.

(** C9 on the sample configuration and the test seed. *)
Lemma single_hybrid_witness :
  exists blueprints c' hybrid appended id,
    buildNftBlueprints lcgNext sampleConfig STATION_DISTRIBUTION
      (fresh (createRng sampleSeed)) = (inr blueprints, c') /\
    filter (fun bp => bp_archetype bp = Hybrid) blueprints = [hybrid] /\
    station_id (bp_station hybrid) = 8 /\
    appendStations sampleConfig STATION_DISTRIBUTION ([], 1) = inr (appended, id) /\
    assignment <$> blueprints ≡ₚ assignment <$> appended.
Proof.
  apply (proj2 single_hybrid_at_station_8).
  - by apply coversStationsb_correct.
  - apply createRng_in_range.
Defined.

(** ** The inscription tag *)

Lemma string_app_cons a s1 s2 : String a s1 +:+ s2 = String a (s1 +:+ s2).
Proof. done. Qed.

Lemma string_app_assoc s1 s2 s3 : (s1 +:+ s2) +:+ s3 = s1 +:+ (s2 +:+ s3).
Proof.
  induction s1 as [|a s1 IH]; [done|].
  by rewrite !string_app_cons, IH.
Qed.

Lemma alphabet_length : length alphabet = 32%nat.
Proof. done. Qed.

(** An index below 32 selects one symbol of the alphabet. *)
Lemma charAt_inside idx :
  0 <= idx < 32 ->
  exists ch, charAt INSCRIPTION_CHARS idx = String ch "" /\ ch ∈ alphabet.
Proof.
  intros [H0 H32]. unfold charAt.
  destruct (Z.ltb_spec idx 0); [lia|].
  assert (Hn : (Z.to_nat idx < 32)%nat) by lia.
  generalize dependent (Z.to_nat idx). intros n Hn.
  do 32 (destruct n as [|n];
         [eexists; split; [reflexivity|]; apply list_elem_of_In; vm_compute; tauto|]).
  lia.
Qed.

Lemma tagLoop_run {St} (next : St -> dyadic * St) n tag c :
  draws_in_range next (state c) ->
  exists suffix,
    tagLoop next n tag c
      = (inr (tag +:+ string_of_list_ascii suffix),
         mkCursor (advance next n (state c)) (calls c + n)) /\
    length suffix = n /\ Forall (fun ch => ch ∈ alphabet) suffix.
Proof.
  revert tag c. induction n as [|n IH]; intros tag c Hr.
  - exists []. simpl. unfold ret. destruct c; simpl.
    rewrite Nat.add_0_r. split; [|done]. do 2 f_equal.
    induction tag as [|a tag IHt]; [done|]. by rewrite string_app_cons, <- IHt.
  - cbn [tagLoop]. call_rng.
    apply draws_in_range_step in Hr as [Hd Hr].
    destruct (charAt_inside (floorMul (fst (next (state c)))
                               (Z.of_nat (String.length INSCRIPTION_CHARS))))
      as (ch & -> & Hch).
    { change (Z.of_nat (String.length INSCRIPTION_CHARS)) with 32.
      by apply floorMul_bound. }
    destruct (IH (tag +:+ String ch "")
                 (mkCursor (snd (next (state c))) (S (calls c))) Hr)
      as (suffix & -> & Hlen & Hall).
    exists (ch :: suffix). cbn [state calls].
    rewrite advance_S, string_app_assoc. split.
    + do 2 f_equal. lia.
    + split; [simpl; lia | by constructor].
Qed.

Lemma alphabet_documented ch : ch ∈ alphabet <-> isTagSymbol ch = true.
Proof.
  split.
  - intros Hin. apply list_elem_of_In in Hin. unfold alphabet in Hin.
    vm_compute in Hin.
    repeat (destruct Hin as [<-|Hin]; [done|]). done.
  - intros H. apply list_elem_of_In.
    destruct ch as [[] [] [] [] [] [] [] []]; vm_compute in H; try discriminate;
      vm_compute; tauto.
Qed.

(** C7 (as amended). Short-code shape: for every draw function with
    values in [0,1), [generateTag] calls it exactly 4 times and returns a
    string of exactly 4 characters, each of them one of the 32 symbols of
    the declared alphabet: the capital letters without I and O, and the
    digits 2 to 9. *)
Theorem generateTag_shape :
  (length alphabet = 32%nat /\ NoDup alphabet /\
   forall ch, ch ∈ alphabet <-> isTagSymbol ch = true) /\
  forall St (next : St -> dyadic * St) (c : Cursor St),
    draws_in_range next (state c) ->
    exists tag,
      generateTag next c
        = (inr tag, mkCursor (advance next 4 (state c)) (calls c + 4)) /\
      String.length tag = 4%nat /\
      Forall (fun ch => ch ∈ alphabet) (list_ascii_of_string tag).
Proof.
  split.
  - split; [done|]. split; [|apply alphabet_documented].
    apply (bool_decide_unpack _). vm_compute. exact I.
  - intros St next c Hr. unfold generateTag.
    destruct (tagLoop_run next 4 "" c Hr) as (suffix & Hrun & Hlen & Hall).
    exists (string_of_list_ascii suffix). split; [done|].
    rewrite list_ascii_of_string_of_list_ascii. split; [|done].
    do 5 (destruct suffix as [|? suffix]; try discriminate). done.
Qed.

(** The claim C7 as first stated counts 33 symbols; the alphabet has 32. *)
Lemma alphabet_not_33_symbols :
  String.length INSCRIPTION_CHARS <> 33%nat /\
  forall symbols : list ascii,
    (forall ch, ch ∈ symbols <-> isTagSymbol ch = true) -> NoDup symbols ->
    length symbols <> 33%nat.
Proof.
  split; [done|].
  intros symbols Hiff Hnd Hlen.
  assert (Hperm : symbols ≡ₚ alphabet).
  { apply NoDup_Permutation; [done| |].
    - apply (bool_decide_unpack _). vm_compute. exact I.
    - intros ch. by rewrite Hiff, alphabet_documented. }
  apply Permutation_length in Hperm. rewrite alphabet_length in Hperm. lia.
Qed.

(** C7 on the generator of the test seed. *)
Lemma generateTag_shape_witness :
  exists tag,
    generateTag lcgNext (fresh (createRng sampleSeed))
      = (inr tag, mkCursor (advance lcgNext 4 (createRng sampleSeed)) 4) /\
    String.length tag = 4%nat /\
    Forall (fun ch => ch ∈ alphabet) (list_ascii_of_string tag).
Proof.
  apply (proj2 generateTag_shape _ lcgNext (fresh (createRng sampleSeed))).
  apply createRng_in_range.
Defined.

(** ** Traits *)

Section TraitFacts.
Context {St : Type}.
Variable next : St -> dyadic * St.

(** A loop whose body calls the draw function [k] times and does not
    throw. *)
Lemma mapGen_run {A B} (f : A -> Gen St B) (P : A -> B -> Prop) (k : nat)
    (l : list A) c :
  (forall a c, a ∈ l -> draws_in_range next (state c) ->
     exists b, f a c = (inr b, mkCursor (advance next k (state c)) (calls c + k))
               /\ P a b) ->
  draws_in_range next (state c) ->
  exists bs,
    mapGen f l c
      = (inr bs, mkCursor (advance next (length l * k) (state c))
                          (calls c + length l * k)) /\
    Forall2 P l bs.
Proof.
  revert c. induction l as [|a l IH]; intros c Hf Hr.
  - exists []. simpl. unfold ret. destruct c; simpl.
    by rewrite Nat.add_0_r.
  - cbn [mapGen]. unfold bind at 1.
    destruct (Hf a c ltac:(by left) Hr) as (b & -> & Hb).
    unfold bind at 1.
    destruct (IH (mkCursor (advance next k (state c)) (calls c + k)))
      as (bs & -> & Hbs).
    { intros a' c' Hin. apply Hf. by right. }
    { by apply draws_in_range_advance. }
    exists (b :: bs). unfold ret. cbn [state calls length].
    rewrite <- advance_add. split; [|by constructor].
    do 2 f_equal; lia.
Qed.

Lemma pickRandomTrait_run layer c :
  layer_traits layer <> [] ->
  draws_in_range next (state c) ->
  exists (idx : nat) trait,
    pickRandomTrait next layer c
      = (inr (Some trait), mkCursor (advance next 1 (state c)) (calls c + 1)) /\
    Z.of_nat idx
      = floorMul (fst (next (state c))) (Z.of_nat (length (layer_traits layer))) /\
    (idx < length (layer_traits layer))%nat /\
    layer_traits layer !! idx = Some trait.
Proof.
  intros Hne Hr. unfold pickRandomTrait. call_rng.
  apply draws_in_range_step in Hr as [Hd _].
  set (n := length (layer_traits layer)).
  assert (Hn : 0 < Z.of_nat n).
  { subst n. destruct (layer_traits layer); [done | simpl; lia]. }
  pose proof (floorMul_bound _ _ Hd Hn) as Hb.
  set (idx := floorMul (fst (next (state c))) (Z.of_nat n)) in *.
  destruct (lookup_lt_is_Some_2 (layer_traits layer) (Z.to_nat idx)) as [trait Ht];
    [fold n; lia|].
  exists (Z.to_nat idx), trait. unfold ret, jsIndex. cbn [state calls].
  destruct (Z.ltb_spec idx 0); [lia|]. rewrite Ht.
  split; [do 2 f_equal; lia|]. split; [lia|]. split; [fold n; lia | done].
Qed.

End TraitFacts.

(** C10. Trait-draw safety: for every layer with at least one trait and
    every draw function with values in [0,1), the index
    [floor(draw() * traits.length)] of [pickRandomTrait] is inside the
    trait list and the trait returned is the one at that index; and
    [generateTraitsForNft] returns one generated trait per configured
    layer, in order, carrying the layer's key and name, the name and
    category of a trait of that layer, and the weight of that category in
    the scoring table. *)
Theorem trait_draw_in_bounds {St} (next : St -> dyadic * St) :
  (forall layer (c : Cursor St),
     layer_traits layer <> [] ->
     draws_in_range next (state c) ->
     exists (idx : nat) trait,
       pickRandomTrait next layer c
         = (inr (Some trait), mkCursor (advance next 1 (state c)) (calls c + 1)) /\
       Z.of_nat idx
         = floorMul (fst (next (state c))) (Z.of_nat (length (layer_traits layer))) /\
       (idx < length (layer_traits layer))%nat /\
       layer_traits layer !! idx = Some trait) /\
  (forall config (c : Cursor St),
     Forall (fun layer => layer_traits layer <> []) (layers config) ->
     draws_in_range next (state c) ->
     exists generated c',
       generateTraitsForNft next config c = (inr generated, c') /\
       calls c' = (calls c + length (layers config))%nat /\
       Forall2 (fun layer g =>
                  exists trait, trait ∈ layer_traits layer /\
                    g = {| layerKey := layer_key layer;
                           traitType := layer_name layer;
                           value := trait_name trait;
                           category := trait_category trait;
                           score := categories (scoring config) (trait_category trait) |})
               (layers config) generated).
Proof.
  split; [apply pickRandomTrait_run|].
  intros config c Hne Hr. unfold generateTraitsForNft.
  match goal with
  | |- context [mapGen ?f _ _] =>
      destruct (mapGen_run next f
                  (fun layer g =>
                     exists trait, trait ∈ layer_traits layer /\
                       g = {| layerKey := layer_key layer;
                              traitType := layer_name layer;
                              value := trait_name trait;
                              category := trait_category trait;
                              score := categories (scoring config)
                                         (trait_category trait) |})
                  1%nat (layers config) c)
        as (generated & Hrun & Hall)
  end.
  - intros layer c0 Hin Hr0. simpl.
    rewrite Forall_forall in Hne.
    destruct (pickRandomTrait_run next layer c0 (Hne _ Hin) Hr0)
      as (idx & trait & Hpick & _ & _ & Hlook).
    unfold bind. rewrite Hpick. unfold ret.
    eexists. split; [reflexivity|].
    exists trait. split; [|done]. by eapply list_elem_of_lookup_2.
  - done.
  - eexists generated, _. split; [exact Hrun|]. cbn [calls].
    split; [lia | exact Hall].
Qed.

(** C10 on the sample configuration and the test seed. *)
Lemma trait_draw_in_bounds_witness :
  exists generated c',
    generateTraitsForNft lcgNext sampleConfig (fresh (createRng sampleSeed))
      = (inr generated, c') /\
    calls c' = 7%nat /\ length generated = 7%nat.
Proof.
  destruct (proj2 (trait_draw_in_bounds lcgNext) sampleConfig
              (fresh (createRng sampleSeed)))
    as (generated & c' & Hrun & Hcalls & Hall).
  - unfold sampleConfig; cbn [layers]. repeat constructor; done.
  - apply createRng_in_range.
  - exists generated, c'. split; [done|]. split; [done|].
    apply Forall2_length in Hall. by rewrite <- Hall.
Defined.

(** ** Scores and tiers *)

Lemma inTier_contains score t : inTier score t = true <-> contains t score.
Proof. unfold inTier, contains. rewrite andb_true_iff. lia. Qed.

(** [find] returns the first element that passes, and none before it
    does. *)
Lemma find_first {A} (p : A -> bool) (l : list A) x :
  List.find p l = Some x ->
  exists before after,
    l = before ++ x :: after /\ p x = true /\ Forall (fun y => p y = false) before.
Proof.
  induction l as [|y l IH]; [done|]. simpl.
  destruct (p y) eqn:Hy.
  - intros [= ->]. exists [], l. done.
  - intros H. destruct (IH H) as (before & after & -> & Hx & Hb).
    exists (y :: before), after. split; [done|]. split; [done|]. by constructor.
Qed.

Lemma find_nothing {A} (p : A -> bool) (l : list A) :
  List.find p l = None -> Forall (fun y => p y = false) l.
Proof.
  induction l as [|y l IH]; [done|]. simpl.
  destruct (p y) eqn:Hy; [done|]. intros H. constructor; auto.
Qed.

Lemma resolveTier_found score tiers t :
  resolveTier score tiers = inr t ->
  exists before after,
    tiers = before ++ t :: after /\ contains t score /\
    Forall (fun u => ~ contains u score) before.
Proof.
  unfold resolveTier. destruct (List.find _ _) as [t'|] eqn:Hf.
  - intros [= <-]. destruct (find_first _ _ _ Hf) as (before & after & -> & Ht & Hb).
    exists before, after. split; [done|]. split; [by apply inTier_contains|].
    eapply Forall_impl; [exact Hb|]. intros u Hu Hc.
    apply inTier_contains in Hc. congruence.
  - destruct tiers as [|t0 tiers']; [discriminate|].
    destruct (last (t0 :: tiers')); discriminate.
Qed.

Lemma resolveTier_error score tiers e :
  resolveTier score tiers = inl e ->
  Forall (fun u => ~ contains u score) tiers /\
  (e = TypeError /\ tiers = [] \/
   exists t0 tn, head tiers = Some t0 /\ last tiers = Some tn /\
                 e = ScoreOutsideTiers score (tier_min t0) (tier_max tn)).
Proof.
  unfold resolveTier. destruct (List.find _ _) as [t'|] eqn:Hf; [done|].
  intros He. split.
  - eapply Forall_impl; [exact (find_nothing _ _ Hf)|]. intros u Hu Hc.
    apply inTier_contains in Hc. congruence.
  - destruct tiers as [|t0 tiers']; [simpl in He; left; split; congruence|].
    right. destruct (last (t0 :: tiers')) as [tn|] eqn:Hl.
    + exists t0, tn. split; [done|]. split; [done|]. congruence.
    + apply last_None in Hl. discriminate.
Qed.

Lemma computeTotalScore_sum generated :
  computeTotalScore generated = foldr Z.add 0 (score <$> generated).
Proof.
  unfold computeTotalScore.
  assert (H : forall a, fold_left (fun sum t => sum + score t) generated a
                        = a + foldr Z.add 0 (score <$> generated)).
  { induction generated as [|g l IH]; intros a; [simpl; lia|].
    rewrite fmap_cons. cbn [foldr fold_left]. rewrite IH. lia. }
  rewrite H. lia.
Qed.

(** C5. Tier resolution and score/tier consistency: [resolveTier]
    returns the first tier of the list whose inclusive range contains the
    score whenever there is one, and raises an error if and only if there
    is none; so every generated record has a total score within the range
    of its tier, and that total is the sum of the weights of its
    traits. *)
Theorem resolveTier_consistent :
  (forall score tiers,
     (forall t, resolveTier score tiers = inr t ->
        exists before after,
          tiers = before ++ t :: after /\ contains t score /\
          Forall (fun u => ~ contains u score) before) /\
     ((exists t, t ∈ tiers /\ contains t score) ->
        exists t, resolveTier score tiers = inr t) /\
     ((exists e, resolveTier score tiers = inl e) <->
        ~ exists t, t ∈ tiers /\ contains t score)) /\
  (forall St (next : St -> dyadic * St) blueprint config stamp c nft c',
     buildGeneratedNft next blueprint config stamp c = (inr nft, c') ->
     contains (tier nft) (totalScore nft) /\
     tier nft ∈ tier_thresholds (scoring config) /\
     totalScore nft = computeTotalScore (traits nft) /\
     totalScore nft = foldr Z.add 0 (score <$> traits nft)).
Proof.
  split.
  - intros score tiers.
    assert (Herr : (exists e, resolveTier score tiers = inl e) <->
                   ~ exists t, t ∈ tiers /\ contains t score).
    { split.
      - intros [e He] (t & Hin & Hc).
        apply resolveTier_error in He as [Hall _].
        rewrite Forall_forall in Hall. by apply (Hall t).
      - intros Hno. destruct (resolveTier score tiers) as [e|t] eqn:Hres; [eauto|].
        exfalso. apply Hno.
        destruct (resolveTier_found _ _ _ Hres) as (before & after & -> & Hc & _).
        exists t. split; [|done]. apply elem_of_app. right. by left. }
    split; [apply resolveTier_found|]. split; [|exact Herr].
    intros Hex. destruct (resolveTier score tiers) as [e|t] eqn:Hres; [|eauto].
    exfalso. apply (proj1 Herr); eauto.
  - intros St next blueprint config stamp c nft c' Hrun.
    unfold buildGeneratedNft in Hrun.
    apply bind_ok in Hrun as (generated & c1 & _ & Hrun).
    destruct (resolveTier _ _) as [e|t] eqn:Hres; [done|].
    apply bind_ok in Hrun as (tag & c2 & _ & Hret).
    unfold ret in Hret. injection Hret as <- _. cbn [tier totalScore traits].
    destruct (resolveTier_found _ _ _ Hres) as (before & after & Heq & Hc & _).
    split; [done|]. split; [|split; [done | apply computeTotalScore_sum]].
    rewrite Heq. apply elem_of_app. right. by left.
Qed.

(** C5 on the first record of the sample configuration. *)
Lemma resolveTier_consistent_witness :
  exists nft c',
    buildGeneratedNft lcgNext
      {| bp_id := 1; bp_station := {| station_id := 8; station_name := "The Ordeal" |};
         bp_archetype := Hybrid |}
      sampleConfig 1700000000000 (fresh (createRng sampleSeed)) = (inr nft, c') /\
    contains (tier nft) (totalScore nft) /\
    tier nft ∈ tier_thresholds (scoring sampleConfig) /\
    totalScore nft = computeTotalScore (traits nft) /\
    totalScore nft = foldr Z.add 0 (score <$> traits nft).
Proof.
  destruct (buildGeneratedNft lcgNext
              {| bp_id := 1;
                 bp_station := {| station_id := 8; station_name := "The Ordeal" |};
                 bp_archetype := Hybrid |}
              sampleConfig 1700000000000 (fresh (createRng sampleSeed)))
    as [[e|nft] c'] eqn:Hrun.
  - vm_compute in Hrun. discriminate.
  - exists nft, c'. split; [reflexivity|].
    exact (proj2 resolveTier_consistent _ lcgNext _ _ _ _ _ _ Hrun).
Defined.

(** ** The reference generator *)

Lemma codeSum_nonneg seed : 0 <= SpecRng.codeSum seed.
Proof. induction seed as [|ch seed IH]; simpl; lia. Qed.

(** Below 2^53 the running sum of the character codes is exact. *)
Lemma charCodeSum_from_exact seed a :
  0 <= a -> a + SpecRng.codeSum seed < 2 ^ 53 ->
  fold_left (fun acc ch => jsAdd acc (Z.of_N ch)) seed a = a + SpecRng.codeSum seed.
Proof.
  revert a. induction seed as [|ch seed IH]; intros a Ha Hs; simpl in *; [lia|].
  pose proof (codeSum_nonneg seed).
  unfold jsAdd at 2. rewrite round53_small by lia.
  rewrite IH by lia. lia.
Qed.

Lemma createRng_exact seed :
  SpecRng.codeSum seed < 2 ^ 53 -> createRng seed = SpecRng.accumulator seed.
Proof.
  intros H. unfold createRng, SpecRng.accumulator, charCodeSum.
  by rewrite charCodeSum_from_exact by lia.
Qed.

Lemma codeSum_repeat ch n :
  SpecRng.codeSum (repeat ch n) = Z.of_nat n * Z.of_N ch.
Proof.
  induction n as [|n IH]; [done|].
  change (SpecRng.codeSum (repeat ch (S n)))
    with (Z.of_N ch + SpecRng.codeSum (repeat ch n)).
  rewrite IH. lia.
Qed.

(** One step of the generator is the exact recurrence as long as the
    product and the sum fit 53 bits. *)
Lemma lcgNext_exact s :
  0 <= s -> s * LCG_A + LCG_C < 2 ^ 53 -> snd (lcgNext s) = SpecRng.step s.
Proof.
  intros Hs Hb. unfold lcgNext, jsAdd, jsMul, SpecRng.step, LCG_A, LCG_C, LCG_M in *.
  cbn [snd]. rewrite (round53_small (s * 1664525)) by lia.
  rewrite round53_small by lia.
  rewrite Z.rem_mod_nonneg by lia. done.
Qed.

Lemma step_bound s : 0 <= SpecRng.step s < 2 ^ 32.
Proof. unfold SpecRng.step. apply Z.mod_pos_bound. done. Qed.

Lemma stateAfter_exact seed k :
  SpecRng.accumulator seed * 1664525 + 1013904223 < 2 ^ 53 ->
  stateAfter k seed = SpecRng.stateNumber k seed /\
  0 <= stateAfter k seed /\ stateAfter k seed * LCG_A + LCG_C < 2 ^ 53.
Proof.
  intros Hb. change (2 ^ 53) with 9007199254740992 in *.
  pose proof (codeSum_nonneg seed) as Hnn.
  assert (Hacc : 0 < SpecRng.accumulator seed).
  { unfold SpecRng.accumulator.
    destruct (Z.eqb_spec (SpecRng.codeSum seed) 0); lia. }
  assert (Hsum : SpecRng.codeSum seed < 9007199254740992).
  { unfold SpecRng.accumulator in Hb.
    destruct (Z.eqb_spec (SpecRng.codeSum seed) 0); lia. }
  induction k as [|k (IH & H0 & H53)].
  - change (stateAfter 0 seed) with (createRng seed).
    change (SpecRng.stateNumber 0 seed) with (SpecRng.accumulator seed).
    rewrite createRng_exact by done. unfold LCG_A, LCG_C. lia.
  - change (stateAfter (S k) seed) with (lcgNext (stateAfter k seed)).2.
    change (SpecRng.stateNumber (S k) seed)
      with (SpecRng.step (SpecRng.stateNumber k seed)).
    rewrite lcgNext_exact by done. rewrite IH.
    pose proof (step_bound (SpecRng.stateNumber k seed)) as Hs.
    change (2 ^ 32) with 4294967296 in Hs. unfold LCG_A, LCG_C.
    split; [done|]. lia.
Qed.

(** A seed of at most 82570 code units stays within the exact range. *)
Lemma short_seed_fits seed :
  Forall (fun ch => (ch <= 65535)%N) seed -> Z.of_nat (length seed) <= 82570 ->
  SpecRng.accumulator seed * 1664525 + 1013904223 < 2 ^ 53.
Proof.
  intros Hall Hlen.
  assert (Hsum : SpecRng.codeSum seed <= 65535 * Z.of_nat (length seed)).
  { clear Hlen. induction Hall as [|ch seed Hch Hall IH]; [done|].
    change (SpecRng.codeSum (ch :: seed)) with (Z.of_N ch + SpecRng.codeSum seed).
    cbn [length]. lia. }
  pose proof (codeSum_nonneg seed).
  unfold SpecRng.accumulator. change (2 ^ 53) with 9007199254740992.
  destruct (Z.eqb_spec (SpecRng.codeSum seed) 0); lia.
Qed.

(** C2 (as amended). The reference generator: every value the generator
    of any seed returns lies in [0,1); and for every seed whose
    accumulator s0 (the sum of its character codes, 1 when that sum is
    zero) satisfies s0 * 1664525 + 1013904223 < 2^53, as that of every
    seed of at most 82570 code units does, the generator starts from s0
    and its k-th draw is s_k / 2^32 with s_k given by the exact
    recurrence s' = (s * 1664525 + 1013904223) mod 2^32. *)
Theorem createRng_reference (seed : jsstring) :
  (forall k, (1 <= k)%nat -> is_draw (drawNumber k seed)) /\
  (SpecRng.accumulator seed * 1664525 + 1013904223 < 2 ^ 53 ->
   createRng seed = SpecRng.accumulator seed /\
   forall k, (1 <= k)%nat ->
     drawNumber k seed = Dyadic (SpecRng.stateNumber k seed) 32 /\
     0 <= SpecRng.stateNumber k seed < 2 ^ 32) /\
  (Forall (fun ch => (ch <= 65535)%N) seed -> Z.of_nat (length seed) <= 82570 ->
   SpecRng.accumulator seed * 1664525 + 1013904223 < 2 ^ 53).
Proof.
  split; [|split].
  - intros k _. unfold drawNumber, stateAfter.
    apply (createRng_in_range seed (k - 1)%nat).
  - intros Hb. split; [apply (stateAfter_exact seed 0 Hb)|].
    intros k Hk. destruct k as [|k]; [lia|].
    unfold drawNumber. rewrite lcgNext_draw.
    replace (S k - 1)%nat with k by lia.
    destruct (stateAfter_exact seed k Hb) as (Hk0 & H0 & H53).
    destruct (stateAfter_exact seed (S k) Hb) as (HS & _ & _).
    change (snd (lcgNext (stateAfter k seed))) with (stateAfter (S k) seed).
    rewrite HS. split; [done|].
    change (SpecRng.stateNumber (S k) seed)
      with (SpecRng.step (SpecRng.stateNumber k seed)).
    apply step_bound.
  - apply short_seed_fits.
Qed.

(** The claim C2 as first stated fails on a long seed: the sum of 82572
    code units U+FFFF is 5411356020, its product with the multiplier plus
    the increment is the odd number 9007338393094723, above 2^53, which
    binary64 rounds to 9007338393094724; the first draw is
    1699400260 / 2^32 where the exact recurrence gives 1699400259. *)
Lemma createRng_long_seed_rounds :
  createRng longSeed = 5411356020 /\
  SpecRng.accumulator longSeed = 5411356020 /\
  drawNumber 1 longSeed = Dyadic 1699400260 32 /\
  SpecRng.stateNumber 1 longSeed = 1699400259 /\
  ~ isOver2p32 (drawNumber 1 longSeed) (SpecRng.stateNumber 1 longSeed).
Proof.
  assert (Hsum : SpecRng.codeSum longSeed = 5411356020).
  { unfold longSeed. rewrite codeSum_repeat. vm_compute. reflexivity. }
  assert (Hacc : SpecRng.accumulator longSeed = 5411356020).
  { unfold SpecRng.accumulator. cbv zeta. rewrite Hsum. reflexivity. }
  assert (Hrng : createRng longSeed = 5411356020).
  { rewrite createRng_exact; [exact Hacc | rewrite Hsum; reflexivity]. }
  assert (Hdraw : drawNumber 1 longSeed = Dyadic 1699400260 32).
  { change (drawNumber 1 longSeed) with (lcgNext (createRng longSeed)).1.
    rewrite Hrng. vm_compute. reflexivity. }
  assert (Hspec : SpecRng.stateNumber 1 longSeed = 1699400259).
  { change (SpecRng.stateNumber 1 longSeed)
      with (SpecRng.step (SpecRng.accumulator longSeed)).
    rewrite Hacc. vm_compute. reflexivity. }
  split; [exact Hrng|]. split; [exact Hacc|]. split; [exact Hdraw|].
  split; [exact Hspec|].
  rewrite Hdraw, Hspec. unfold isOver2p32. vm_compute. discriminate.
Qed.

(** C2 on the test seed, whose accumulator is 2351. *)
Lemma createRng_reference_witness :
  SpecRng.accumulator sampleSeed * 1664525 + 1013904223 < 2 ^ 53 /\
  createRng sampleSeed = SpecRng.accumulator sampleSeed /\
  forall k, (1 <= k)%nat ->
    drawNumber k sampleSeed = Dyadic (SpecRng.stateNumber k sampleSeed) 32 /\
    0 <= SpecRng.stateNumber k sampleSeed < 2 ^ 32.
Proof.
  assert (H : SpecRng.accumulator sampleSeed * 1664525 + 1013904223 < 2 ^ 53)
    by (vm_compute; reflexivity).
  split; [exact H|].
  exact (proj1 (proj2 (createRng_reference sampleSeed)) H).
Defined.

(** ** Configuration loading *)

Lemma lengthIsNot_false {T} (x : option (list T)) n :
  lengthIsNot x n = false <-> exists l, x = Some l /\ length l = n.
Proof.
  unfold lengthIsNot. destruct x as [l|].
  - rewrite negb_false_iff, Nat.eqb_eq. split; [eauto|]. by intros (? & [= <-] & ?).
  - split; [done|]. by intros (? & ? & _).
Qed.

Lemma checkLayers_None ls :
  checkLayers ls = None <->
  Forall (fun l => exists ts, jl_traits l = Some ts /\ length ts = 9%nat) ls.
Proof.
  induction ls as [|l ls IH]; simpl; [done|].
  destruct (lengthIsNot (jl_traits l) 9) eqn:Hl.
  - split; [done|]. intros [Hh _]%Forall_cons.
    apply lengthIsNot_false in Hh. congruence.
  - rewrite IH, Forall_cons. apply lengthIsNot_false in Hl. tauto.
Qed.

Lemma checkCategories_None cats (table : gmap string Z) :
  checkCategories cats table = None <->
  Forall (fun cat => is_Some (table !! cat)) cats.
Proof.
  induction cats as [|cat cats IH]; simpl; [done|].
  destruct (table !! cat) as [w|] eqn:Hc.
  - rewrite IH, Forall_cons. split; [|tauto]. intros H. split; [|done].
    rewrite Hc. eauto.
  - split; [done|]. intros [Hh _]%Forall_cons. rewrite Hc in Hh.
    by destruct Hh.
Qed.

Lemma loadConfig_same config r : loadConfig config = inr r -> r = config.
Proof.
  unfold loadConfig. repeat case_match; congruence.
Qed.

Lemma loadConfig_accepts config :
  loadConfig config = inr config <-> SpecConfig.checkedInvariants config.
Proof.
  unfold SpecConfig.checkedInvariants, SpecConfig.sevenLayers,
    SpecConfig.nineTraitsEach, SpecConfig.fourCategories, SpecConfig.sevenTiers,
    SpecConfig.twelveStations, SpecConfig.weightTable, loadConfig.
  destruct config as [ls sc st]; cbn [jc_layers jc_scoring jc_stations].
  destruct (lengthIsNot ls 7) eqn:H7.
  { split; [discriminate|]. intros (H & _). apply lengthIsNot_false in H. congruence. }
  apply lengthIsNot_false in H7 as (layers7 & -> & Hlen7).
  cbn [default from_option id].
  destruct (checkLayers layers7) as [e|] eqn:Hck.
  { split; [discriminate|]. intros (_ & H9 & _). specialize (H9 _ eq_refl).
    apply checkLayers_None in H9. congruence. }
  apply checkLayers_None in Hck.
  destruct sc as [[cats tiers]|];
    cbn [js_categories js_tier_thresholds mbind option_bind default from_option id].
  2:{ split; [discriminate|]. intros (_ & _ & ((? & ? & ? & _) & _) & _). discriminate. }
  destruct cats as [table|]; cbn [default from_option id].
  2:{ split; [discriminate|]. intros (_ & _ & ((? & ? & [= <-] & ?) & _) & _). discriminate. }
  destruct (checkCategories requiredCategories table) as [e|] eqn:Hcat.
  { split; [discriminate|]. intros (_ & _ & (_ & Hall) & _).
    apply checkCategories_None in Hall. congruence. }
  apply checkCategories_None in Hcat.
  destruct (lengthIsNot tiers 7) eqn:Ht.
  { split; [discriminate|]. intros (_ & _ & _ & (? & ? & [= <-] & Hts & Hl) & _).
    simpl in Hts. assert (lengthIsNot tiers 7 = false) by (apply lengthIsNot_false; eauto).
    congruence. }
  apply lengthIsNot_false in Ht as (tiers7 & -> & Hlt).
  destruct st as [st|].
  2:{ split; [discriminate|]. intros (_ & _ & _ & _ & (? & ? & _)). discriminate. }
  destruct (lengthIsNot st 12) eqn:Hs.
  { split; [discriminate|]. intros (_ & _ & _ & _ & (h & [= ->] & Hl)).
    assert (lengthIsNot (Some h) 12 = false) by (apply lengthIsNot_false; eauto).
    congruence. }
  apply lengthIsNot_false in Hs as (st12 & -> & Hls).
  split; [|reflexivity]. intros _.
  split; [eauto|]. split; [by intros ? [= <-]|].
  split; [split; [eauto | done]|].
  split; eauto.
Qed.

(** C8 (as amended). Config loading fails fast on the invariants it
    tests: [loadConfig] raises an error whenever the configuration has
    other than exactly 7 layers, other than exactly 9 traits in some
    layer, lacks one of the 4 scoring categories, or has other than
    exactly 7 tier thresholds or other than exactly 12 stations, and
    returns the parsed configuration, unchanged, when those five hold,
    hence whenever all the invariants of the specification hold. *)
Theorem loadConfig_fails_fast (config : JsonConfig) :
  (SpecConfig.checkedInvariants config -> loadConfig config = inr config) /\
  (SpecConfig.allInvariants config -> loadConfig config = inr config) /\
  (~ SpecConfig.checkedInvariants config -> exists e, loadConfig config = inl e) /\
  (forall r, loadConfig config = inr r -> r = config).
Proof.
  split; [apply loadConfig_accepts|].
  split; [intros (? & ? & ? & _ & ? & _ & ?); by apply loadConfig_accepts|].
  split; [|apply loadConfig_same].
  intros Hno. destruct (loadConfig config) as [e|r] eqn:Hload; [eauto|].
  exfalso. apply Hno, loadConfig_accepts.
  by rewrite <- (loadConfig_same _ _ Hload) at 2.
Qed.

Lemma sampleJson_checked : SpecConfig.checkedInvariants sampleJson.
Proof. apply loadConfig_accepts. vm_compute. reflexivity. Qed.

(** The claim C8 as first stated fails on a configuration whose weights
    decrease from CHAOS to MYTHIC and whose tiers overlap and stop at
    100: [loadConfig] returns it. *)
Lemma loadConfig_accepts_unordered :
  loadConfig unorderedJson = inr unorderedJson /\
  ~ SpecConfig.weightsIncreasing unorderedJson /\
  ~ SpecConfig.tiersCover unorderedJson /\
  ~ SpecConfig.allInvariants unorderedJson.
Proof.
  assert (Hw : ~ SpecConfig.weightsIncreasing unorderedJson).
  { intros (w1 & w2 & w3 & w4 & H1 & H2 & H3 & H4 & Hlt & _).
    vm_compute in H1, H2. injection H1 as <-. injection H2 as <-. lia. }
  split; [vm_compute; reflexivity|]. split; [exact Hw|]. split.
  - intros (Hcont & _). vm_compute in Hcont. destruct Hcont as [Hc _]. discriminate.
  - intros (_ & _ & _ & H & _). by apply Hw.
Qed.

(** C8 on the sample configuration. *)
Lemma loadConfig_fails_fast_witness :
  SpecConfig.checkedInvariants sampleJson /\ loadConfig sampleJson = inr sampleJson.
Proof.
  split; [exact sampleJson_checked|].
  exact (proj1 (loadConfig_fails_fast sampleJson) sampleJson_checked).
Defined.

(** ** Computations in step *)

Create HintDb related.

Section Related.
Context {S1 S2 : Type}.
Variable R : S1 -> S2 -> Prop.

Lemma related_ret {A B} (Q : A -> B -> Prop) a b :
  Q a b -> related R Q (ret a) (ret b).
Proof. intros HQ c1 c2 HR Hc. done. Qed.

Lemma related_throw {A B} (Q : A -> B -> Prop) e :
  related R Q (throw e) (throw e).
Proof. intros c1 c2 HR Hc. done. Qed.

Lemma related_bind {A B A' B'} (Q : A -> B -> Prop) (Q' : A' -> B' -> Prop)
    (m1 : Gen S1 A) (m2 : Gen S2 B) k1 k2 :
  related R Q m1 m2 ->
  (forall a b, Q a b -> related R Q' (k1 a) (k2 b)) ->
  related R Q' (bind m1 k1) (bind m2 k2).
Proof.
  intros Hm Hk c1 c2 HR Hc. unfold bind.
  destruct (Hm c1 c2 HR Hc) as (Ho & HR' & Hc').
  destruct (m1 c1) as [[e1|a] c1'], (m2 c2) as [[e2|b] c2']; simpl in *; try done.
  by apply Hk.
Qed.

Lemma related_mapGen {A B A' B'} (P : A -> B -> Prop) (Q : A' -> B' -> Prop)
    (f1 : A -> Gen S1 A') (f2 : B -> Gen S2 B') l1 l2 :
  Forall2 P l1 l2 ->
  (forall a b, P a b -> related R Q (f1 a) (f2 b)) ->
  related R (Forall2 Q) (mapGen f1 l1) (mapGen f2 l2).
Proof.
  intros Hl Hf. induction Hl as [|a b l1 l2 Hab Hl IH]; cbn [mapGen].
  - apply related_ret. constructor.
  - eapply related_bind; [by apply Hf|]. intros a' b' Hq.
    eapply related_bind; [exact IH|]. intros la lb Hqs.
    apply related_ret. by constructor.
Qed.

Variable next1 : S1 -> dyadic * S1.
Variable next2 : S2 -> dyadic * S2.
Hypothesis next_related : forall s1 s2,
  R s1 s2 -> (next1 s1).1 = (next2 s2).1 /\ R (next1 s1).2 (next2 s2).2.

Lemma related_rng : related R eq (rng next1) (rng next2).
Proof.
  intros c1 c2 HR Hc. rewrite !rng_run. simpl.
  destruct (next_related _ _ HR). by rewrite Hc.
Qed.

#[local] Hint Resolve related_ret related_throw related_rng : related.

Lemma related_mapGen_eq {A B} (f1 : A -> Gen S1 B) (f2 : A -> Gen S2 B) l :
  (forall a, related R eq (f1 a) (f2 a)) ->
  related R eq (mapGen f1 l) (mapGen f2 l).
Proof.
  intros Hf c1 c2 HR Hc.
  assert (Hl : Forall2 (@eq A) l l) by (apply Forall_Forall2_diag, Forall_true; done).
  assert (Hf' : forall a b, a = b -> related R (@eq B) (f1 a) (f2 b))
    by (intros a ? <-; apply Hf).
  destruct (related_mapGen (@eq A) (@eq B) f1 f2 l l Hl Hf' c1 c2 HR Hc)
    as (Ho & HR' & Hc').
  split; [|done]. unfold outcomeRel in *.
  destruct (mapGen f1 l c1).1, (mapGen f2 l c2).1; try done.
  apply list_eq_Forall2. exact Ho.
Qed.

Lemma shuffleFrom_related {T} i (array : list (option T)) :
  related R eq (shuffleFrom next1 i array) (shuffleFrom next2 i array).
Proof.
  revert array. induction i as [|i IH]; intros array; cbn [shuffleFrom].
  - auto with related.
  - eapply (related_bind eq); [auto with related|]. intros d ? <-. apply IH.
Qed.

Lemma buildNftBlueprints_related config dist :
  related R eq (buildNftBlueprints next1 config dist)
               (buildNftBlueprints next2 config dist).
Proof.
  unfold buildNftBlueprints.
  destruct (appendStations config dist ([], 1)) as [e|[blueprints id]].
  - auto with related.
  - eapply (related_bind eq); [apply shuffleFrom_related|]. intros shuffled ? <-.
    destruct (allDefined shuffled); auto with related.
Qed.

Lemma pickRandomTrait_related layer :
  related R eq (pickRandomTrait next1 layer) (pickRandomTrait next2 layer).
Proof.
  unfold pickRandomTrait.
  eapply (related_bind eq); [auto with related|].
  intros d ? <-. auto with related.
Qed.

Lemma generateTraitsForNft_related config :
  related R eq (generateTraitsForNft next1 config)
               (generateTraitsForNft next2 config).
Proof.
  unfold generateTraitsForNft. apply related_mapGen_eq. intros layer.
  eapply (related_bind eq); [apply pickRandomTrait_related|].
  intros picked ? <-.
  destruct picked; auto with related.
Qed.

Lemma tagLoop_related n tag :
  related R eq (tagLoop next1 n tag) (tagLoop next2 n tag).
Proof.
  revert tag. induction n as [|n IH]; intros tag; cbn [tagLoop].
  - auto with related.
  - eapply (related_bind eq); [auto with related|]. intros d ? <-. apply IH.
Qed.

(** The timestamp reaches the record and nothing else. *)
Lemma buildGeneratedNft_related blueprint config stamp1 stamp2 :
  related R sameButTimestamp
    (buildGeneratedNft next1 blueprint config stamp1)
    (buildGeneratedNft next2 blueprint config stamp2).
Proof.
  unfold buildGeneratedNft.
  eapply (related_bind eq); [apply generateTraitsForNft_related|].
  intros generated ? <-.
  destruct (resolveTier _ _) as [e|t]; [auto with related|].
  eapply (related_bind eq); [apply tagLoop_related|]. intros tag ? <-.
  apply related_ret. by repeat split.
Qed.

Lemma generateRecords_related config stamp1 stamp2 :
  related R (fun o1 o2 => o1.1 = o2.1 /\ Forall2 sameButTimestamp o1.2 o2.2)
    (generateRecords next1 config stamp1)
    (generateRecords next2 config stamp2).
Proof.
  unfold generateRecords.
  eapply (related_bind eq); [apply buildNftBlueprints_related|].
  intros blueprints ? <-.
  destruct (negb _); [auto with related|].
  eapply (related_bind (Forall2 sameButTimestamp)).
  - apply (related_mapGen eq); [apply Forall_Forall2_diag, Forall_true; done|].
    intros bp ? <-. apply buildGeneratedNft_related.
  - intros nfts1 nfts2 Hn. by apply related_ret.
Qed.

End Related.

(** ** Determinism *)

Lemma sameButTimestamp_refl n : sameButTimestamp n n.
Proof. by repeat split. Qed.

Lemma sameButTimestamp_sym n1 n2 : sameButTimestamp n1 n2 -> sameButTimestamp n2 n1.
Proof. unfold sameButTimestamp. intuition congruence. Qed.

Lemma sameButTimestamp_trans n1 n2 n3 :
  sameButTimestamp n1 n2 -> sameButTimestamp n2 n3 -> sameButTimestamp n1 n3.
Proof. unfold sameButTimestamp. intuition congruence. Qed.

Lemma sameRecords_sym l1 l2 :
  Forall2 sameButTimestamp l1 l2 -> Forall2 sameButTimestamp l2 l1.
Proof.
  induction 1 as [|n1 n2 l1 l2 Hn Hl IH]; constructor;
    [by apply sameButTimestamp_sym | done].
Qed.

Lemma sameRecords_trans l1 l2 l3 :
  Forall2 sameButTimestamp l1 l2 -> Forall2 sameButTimestamp l2 l3 ->
  Forall2 sameButTimestamp l1 l3.
Proof.
  intros H12. revert l3. induction H12 as [|n1 n2 l1 l2 Hn Hl IH]; intros l3 H23.
  - inversion H23. constructor.
  - inversion H23 as [|? n3 ? l3' Hn' Hl']; subst. constructor.
    + by eapply sameButTimestamp_trans.
    + by apply IH.
Qed.

Lemma sameOutcome_sym r1 r2 : sameOutcome r1 r2 -> sameOutcome r2 r1.
Proof.
  unfold sameOutcome, outcomeRel. destruct r1 as [e1|o1], r2 as [e2|o2]; try done.
  intros [Hb Hn]. split; [done | by apply sameRecords_sym].
Qed.

Lemma sameOutcome_trans r1 r2 r3 :
  sameOutcome r1 r2 -> sameOutcome r2 r3 -> sameOutcome r1 r3.
Proof.
  unfold sameOutcome, outcomeRel.
  destruct r1 as [e1|o1], r2 as [e2|o2], r3 as [e3|o3]; try done; [congruence|].
  intros [Hb1 Hn1] [Hb2 Hn2]. split; [congruence|].
  by eapply sameRecords_trans.
Qed.

(** A call of closure [r1] behaves as the generator on the variable of
    that closure, and leaves the variable of closure [r2] alone. *)
Lemma callRng_related (r1 r2 : nat) (s2 : Z) :
  r1 <> r2 ->
  forall s heap,
    heap !! r1 = Some s /\ heap !! r2 = Some s2 ->
    (lcgNext s).1 = (callRng r1 heap).1 /\
    ((callRng r1 heap).2 !! r1 = Some (lcgNext s).2 /\
     (callRng r1 heap).2 !! r2 = Some s2).
Proof.
  intros Hne s heap [H1 H2]. unfold callRng. rewrite H1.
  destruct (lcgNext s) as [d s'] eqn:E. cbn [fst snd].
  split; [done|]. split.
  - apply list_lookup_insert_eq. by eapply lookup_lt_Some.
  - rewrite list_lookup_insert_ne by done. exact H2.
Qed.

(** A generation run with closure [r1] returns what the generator run on
    its own returns, and leaves closure [r2] as it was. *)
Lemma generateRecords_in_heap config stamp (r1 r2 : nat) (s1 s2 : Z) heap :
  r1 <> r2 -> heap !! r1 = Some s1 -> heap !! r2 = Some s2 ->
  sameOutcome (generateRecords lcgNext config stamp (fresh s1)).1
              (generateRecords (callRng r1) config stamp (fresh heap)).1 /\
  state (generateRecords (callRng r1) config stamp (fresh heap)).2 !! r2 = Some s2.
Proof.
  intros Hne H1 H2.
  destruct (generateRecords_related
              (fun s heap => heap !! r1 = Some s /\ heap !! r2 = Some s2)
              lcgNext (callRng r1) (callRng_related r1 r2 s2 Hne)
              config stamp stamp (fresh s1) (fresh heap))
    as (Ho & [_ Hframe] & _); [done|done|].
  done.
Qed.

Lemma allocRng_lookup seed heap :
  (allocRng seed heap).2 !! (allocRng seed heap).1 = Some (createRng seed) /\
  forall r s, heap !! r = Some s -> (allocRng seed heap).2 !! r = Some s.
Proof.
  unfold allocRng. cbn [fst snd]. split.
  - rewrite lookup_app_r by lia. by rewrite Nat.sub_diag.
  - intros r s H. by apply lookup_app_l_Some.
Qed.

(** C1. Determinism of the full pipeline: for every seed, two runs of
    blueprint generation over [STATION_DISTRIBUTION] followed by record
    generation, each from a generator freshly created from that seed,
    return the same blueprints and records that agree field by field (id,
    station, archetype, traits, total score, tier, inscription tag),
    whatever their timestamps, or throw the same error; so do two runs in
    one process, each with a closure of its own. *)
Theorem generation_deterministic (config : MetaGenConfig) (seed : jsstring)
    (stamp1 stamp2 : Z) :
  sameOutcome (generateFromSeed config seed stamp1).1
              (generateFromSeed config seed stamp2).1 /\
  (generateFromSeed config seed stamp1).2 = (generateFromSeed config seed stamp2).2 /\
  forall heap : Heap,
    sameOutcome (twoRuns config seed stamp1 stamp2 heap).1
                (twoRuns config seed stamp1 stamp2 heap).2 /\
    sameOutcome (twoRuns config seed stamp1 stamp2 heap).1
                (generateFromSeed config seed stamp1).1.
Proof.
  unfold generateFromSeed.
  destruct (generateRecords_related eq lcgNext lcgNext
              ltac:(by intros ? ? ->) config stamp1 stamp2
              (fresh (createRng seed)) (fresh (createRng seed)) eq_refl eq_refl)
    as (Hpure & Hst & Hcalls).
  split; [exact Hpure|]. split.
  { destruct (generateRecords lcgNext config stamp1 _).2,
             (generateRecords lcgNext config stamp2 _).2. simpl in *. congruence. }
  intros heap. unfold twoRuns.
  destruct (allocRng seed heap) as [rng1 heap1] eqn:E1.
  destruct (allocRng seed heap1) as [rng2 heap2] eqn:E2.
  assert (Hne : rng1 <> rng2).
  { unfold allocRng in *. injection E1 as <- <-. injection E2 as <- <-.
    rewrite length_app. simpl. lia. }
  assert (H1 : heap2 !! rng1 = Some (createRng seed)).
  { pose proof (allocRng_lookup seed heap) as [Ha _].
    pose proof (allocRng_lookup seed heap1) as [_ Hb].
    rewrite E1 in Ha. rewrite E2 in Hb. by apply Hb. }
  assert (H2 : heap2 !! rng2 = Some (createRng seed)).
  { pose proof (allocRng_lookup seed heap1) as [Ha _]. by rewrite E2 in Ha. }
  destruct (generateRecords_in_heap config stamp1 rng1 rng2 _ _ heap2 Hne H1 H2)
    as [Hrun1 Hframe].
  destruct (generateRecords (callRng rng1) config stamp1 (fresh heap2))
    as [out1 c1] eqn:R1.
  cbn [fst snd] in *.
  assert (H1' : exists s1', state c1 !! rng1 = Some s1').
  { destruct (generateRecords_related
                (fun s heap => heap !! rng1 = Some s /\ heap !! rng2 = Some (createRng seed))
                lcgNext (callRng rng1)
                (callRng_related rng1 rng2 _ Hne)
                config stamp1 stamp1 (fresh (createRng seed)) (fresh heap2))
      as (_ & [Hs _] & _); [done|done|].
    rewrite R1 in Hs. eauto. }
  destruct H1' as [s1' H1'].
  destruct (generateRecords_in_heap config stamp2 rng2 rng1 _ _ (state c1)
              (not_eq_sym Hne) Hframe H1') as [Hrun2 _].
  change (fresh (state c1)) with (mkCursor (state c1) 0) in *.
  unfold fresh in *.
  destruct (generateRecords (callRng rng2) config stamp2 (mkCursor (state c1) 0))
    as [out2 c2] eqn:R2.
  cbn [fst snd] in *.
  split; [|by apply sameOutcome_sym].
  eapply sameOutcome_trans; [apply sameOutcome_sym, Hrun1|].
  eapply sameOutcome_trans; [exact Hpure | exact Hrun2].
Qed.

(** * Further properties of the tool *)

(** ** The further definitions at work *)

Example expectedRatio_station_8 :
  expectedRatio {| stationId := 8; count := 29; bullRatio := ratio_0_48;
                   bearRatio := ratio_0_48; hybridCount := Some 1 |}
  = Fraction (Dyadic 69572849415930424 56).
Proof. reflexivity. Qed.

Example divInt_by_zero :
  divInt 0 0 = NotANumber /\ divInt 3 0 = Infinite false /\
  divInt (-3) 0 = Infinite true.
Proof. done. Qed.

Example pad3_examples :
  pad3 7 = "007" /\ pad3 42 = "042" /\ pad3 333 = "333" /\ pad3 1000 = "1000".
Proof. done. Qed.

Example escapeXml_example :
  escapeXml (ofString "Scarred & Rug-Burned <3")
  = ofString "Scarred &amp; Rug-Burned &lt;3".
Proof. reflexivity. Qed.

Example imageFilename_examples :
  imageFilename "001.json" = "001.png" /\
  imageFilename "a.json.json" = "a.png.json" /\
  imageFilename "readme" = "readme".
Proof. done. Qed.

(** ** The sample configuration *)

Lemma sampleConfig_covers : coversStations sampleConfig STATION_DISTRIBUTION.
Proof. apply coversStationsb_correct. vm_compute. reflexivity. Qed.

Lemma sampleConfig_hasTraits : Forall hasTraits (layers sampleConfig).
Proof. repeat constructor; unfold hasTraits; simpl; discriminate. Qed.

(** ** The shuffle *)

(** X1. With draws in [0,1) [shuffleInPlace] rearranges the array: the
    result holds the same elements as the input, each as often, and no
    slot is left empty or added. *)
Theorem shuffleInPlace_permutes {St T} (next : St -> dyadic * St)
    (l : list T) (c : Cursor St) :
  draws_in_range next (state c) ->
  exists l',
    (shuffleInPlace next (Some <$> l) c).1 = inr (Some <$> l') /\
    l' ≡ₚ l /\ length l' = length l.
Proof.
  intros Hr. unfold shuffleInPlace. rewrite length_fmap.
  destruct l as [|x l].
  - exists []. done.
  - destruct (shuffleFrom_perm next (length (x :: l) - 1) (x :: l) c)
      as (l' & Hrun & Hperm); [simpl; lia | done |].
    exists l'. split; [done|]. split; [done|]. by rewrite Hperm.
Qed.

Lemma shuffleInPlace_permutes_witness :
  exists l',
    (shuffleInPlace lcgNext (Some <$> [1; 2; 3; 4; 5])
       (fresh (createRng sampleSeed))).1 = inr (Some <$> l') /\
    l' ≡ₚ [1; 2; 3; 4; 5] /\ length l' = 5%nat.
Proof.
  apply (shuffleInPlace_permutes lcgNext [1; 2; 3; 4; 5]).
  apply createRng_in_range.
Defined.

(** ** Blueprints *)

Lemma coversStations_cons config alloc dist :
  coversStations config (alloc :: dist) <->
  is_Some (findStation config (stationId alloc)) /\ coversStations config dist.
Proof.
  split.
  - intros Hcov. split.
    + apply findStation_covered, Hcov. by left.
    + intros a Ha. apply Hcov. by right.
  - intros [[s Hs] Hcov] a Ha. apply elem_of_cons in Ha as [->|Ha].
    + exists s. by apply findStation_Some.
    + by apply Hcov.
Qed.

Lemma appendStations_first_unknown config dist acc :
  ~ coversStations config dist ->
  exists before alloc after,
    dist = before ++ alloc :: after /\
    coversStations config before /\
    findStation config (stationId alloc) = None /\
    appendStations config dist acc = inl (UnknownStation (stationId alloc)).
Proof.
  revert acc. induction dist as [|a dist IH]; intros acc Hnot.
  - destruct Hnot. intros a Ha. by apply elem_of_nil in Ha.
  - cbn [appendStations]. destruct (findStation config (stationId a)) eqn:Hst.
    + match goal with
      | |- context [appendStations config dist ?acc'] =>
          destruct (IH acc') as (before & alloc & after & -> & Hcov & Hnone & Hrun)
      end.
      { intros Hcov. apply Hnot, coversStations_cons. split; [by eexists | done]. }
      exists (a :: before), alloc, after. split; [done|].
      split; [|done]. apply coversStations_cons. split; [by eexists | done].
    + exists [], a, dist. split; [done|]. split; [|done].
      intros a' Ha'. by apply elem_of_nil in Ha'.
Qed.

(** X2. When the configuration lacks the station of some allocation,
    [buildNftBlueprints] throws "Unknown stationId" for the first such
    allocation of the distribution, before any call of the draw function;
    and it throws that error in no other case. *)
Theorem buildNftBlueprints_unknown_station {St} (next : St -> dyadic * St)
    (config : MetaGenConfig) (dist : list StationAllocation) (c : Cursor St) :
  (~ coversStations config dist ->
   exists before alloc after,
     dist = before ++ alloc :: after /\
     coversStations config before /\
     findStation config (stationId alloc) = None /\
     buildNftBlueprints next config dist c
       = (inl (UnknownStation (stationId alloc)), c)) /\
  (coversStations config dist ->
   forall sid, (buildNftBlueprints next config dist c).1 <> inl (UnknownStation sid)).
Proof.
  split.
  - intros Hnot.
    destruct (appendStations_first_unknown config dist ([], 1) Hnot)
      as (before & alloc & after & Hd & Hcov & Hnone & Hrun).
    exists before, alloc, after. unfold buildNftBlueprints. rewrite Hrun.
    done.
  - intros Hcov sid.
    destruct (appendStations_assign config dist ([], 1) Hcov)
      as (pre & id & Happ & _).
    unfold buildNftBlueprints. rewrite Happ. unfold bind, shuffleInPlace.
    match goal with
    | |- context [shuffleFrom next ?i ?a c] =>
        destruct (shuffleFrom_run next i a c) as (out & ->)
    end.
    destruct (allDefined out); unfold ret, throw; simpl; discriminate.
Qed.

Lemma buildNftBlueprints_unknown_station_witness :
  exists before alloc after,
    STATION_DISTRIBUTION = before ++ alloc :: after /\
    coversStations configWithoutStations before /\
    findStation configWithoutStations (stationId alloc) = None /\
    buildNftBlueprints lcgNext configWithoutStations STATION_DISTRIBUTION
        (fresh (createRng sampleSeed))
      = (inl (UnknownStation (stationId alloc)), fresh (createRng sampleSeed)).
Proof.
  apply (proj1 (buildNftBlueprints_unknown_station lcgNext configWithoutStations
                  STATION_DISTRIBUTION (fresh (createRng sampleSeed)))).
  intros Hcov.
  destruct (Hcov (plainStation 1 28)) as (s & Hs & _); [by left|].
  by apply elem_of_nil in Hs.
Defined.

(** ** Blueprints, station by station *)

Lemma filter_replicate_dec {A} (P : A -> Prop) `{!forall x, Decision (P x)}
    (n : nat) (x : A) :
  filter P (replicate n x) = if decide (P x) then replicate n x else [].
Proof.
  induction n as [|n IH]; [by destruct (decide _)|].
  cbn [replicate]. rewrite filter_cons, IH. by destruct (decide (P x)).
Qed.

Lemma expectedAssignments_at config alloc st (sid : Z) (a : Archetype) :
  findStation config (stationId alloc) = Some st ->
  length (filter (fun p : HeroStation * Archetype => station_id p.1 = sid /\ p.2 = a)
                 (expectedAssignments config alloc))
  = if decide (stationId alloc = sid)
    then Z.to_nat (countOf a (getArchetypeCounts alloc)) else 0%nat.
Proof.
  intros Hst. unfold expectedAssignments. rewrite Hst.
  apply findStation_Some in Hst as [_ Hid].
  rewrite !filter_app, !filter_replicate_dec, !length_app. cbn [fst snd].
  destruct (decide (stationId alloc = sid)) as [Hsid|Hsid].
  - destruct a; repeat case_decide; destruct_and?; try congruence;
      rewrite ?length_replicate; cbn [length countOf]; try lia;
      exfalso; naive_solver.
  - repeat case_decide; destruct_and?; try congruence; done.
Qed.

Lemma expectedAssignments_elsewhere config dist (sid : Z) (a : Archetype) :
  coversStations config dist ->
  Forall (fun alloc => stationId alloc <> sid) dist ->
  length (filter (fun p : HeroStation * Archetype => station_id p.1 = sid /\ p.2 = a)
                 (concat (expectedAssignments config <$> dist))) = 0%nat.
Proof.
  induction dist as [|alloc dist IH]; intros Hcov Hall; [done|].
  apply coversStations_cons in Hcov as [[st Hst] Hcov].
  apply Forall_cons in Hall as [Hne Hall].
  cbn [fmap list_fmap concat]. rewrite filter_app, length_app.
  rewrite (expectedAssignments_at _ _ st) by done.
  rewrite decide_False by done. by rewrite IH.
Qed.

Lemma expectedAssignments_here config dist alloc (a : Archetype) :
  coversStations config dist ->
  NoDup (stationId <$> dist) ->
  alloc ∈ dist ->
  length (filter (fun p : HeroStation * Archetype =>
                    station_id p.1 = stationId alloc /\ p.2 = a)
                 (concat (expectedAssignments config <$> dist)))
  = Z.to_nat (countOf a (getArchetypeCounts alloc)).
Proof.
  induction dist as [|alloc' dist IH]; intros Hcov Hnd Hin.
  { by apply elem_of_nil in Hin. }
  apply coversStations_cons in Hcov as [[st Hst] Hcov].
  cbn [fmap list_fmap] in Hnd. apply NoDup_cons in Hnd as [Hnotin Hnd].
  cbn [fmap list_fmap concat]. rewrite filter_app, length_app.
  rewrite (expectedAssignments_at _ _ st) by done.
  apply elem_of_cons in Hin as [->|Hin].
  - rewrite decide_True by done.
    rewrite expectedAssignments_elsewhere; [lia | done |].
    apply Forall_forall. intros other Hother Heq. apply Hnotin.
    rewrite <- Heq. by apply list_elem_of_fmap_2.
  - rewrite decide_False.
    + by rewrite IH.
    + intros Heq. apply Hnotin. rewrite Heq. by apply list_elem_of_fmap_2.
Qed.

Lemma blueprintsAt_assignment sid a blueprints :
  length (blueprintsAt sid a blueprints)
  = length (filter (fun p : HeroStation * Archetype => station_id p.1 = sid /\ p.2 = a)
                   (assignment <$> blueprints)).
Proof.
  unfold blueprintsAt. rewrite filter_fmap_comm, length_fmap. done.
Qed.

(** X3. For a distribution with distinct station ids none of whose
    allocations yields a negative count, a configuration that knows its
    stations and a draw function with values in [0,1), the blueprints
    [buildNftBlueprints] returns hold, for each station of the
    distribution, exactly its number of bulls, of bears and of hybrids as
    [getArchetypeCounts] gives them, and so as many blueprints as the
    count of the station: the shuffle moves no blueprint to another
    station or archetype. *)
Theorem buildNftBlueprints_station_counts {St} (next : St -> dyadic * St)
    (config : MetaGenConfig) (dist : list StationAllocation) (c : Cursor St) :
  Forall countsNonNegative dist ->
  coversStations config dist ->
  NoDup (stationId <$> dist) ->
  draws_in_range next (state c) ->
  exists blueprints c',
    buildNftBlueprints next config dist c = (inr blueprints, c') /\
    forall alloc, alloc ∈ dist ->
      (forall a,
         Z.of_nat (length (blueprintsAt (stationId alloc) a blueprints))
         = countOf a (getArchetypeCounts alloc)) /\
      Z.of_nat (length (filter (fun bp => station_id (bp_station bp) = stationId alloc)
                               blueprints))
      = count alloc.
Proof.
  intros Hnonneg Hcov Hnd Hr.
  destruct (buildNftBlueprints_run next config dist c Hcov Hr)
    as (pre & id & shuffled & c' & _ & Hrun & Hperm & Hass & _).
  exists (reassignIds shuffled), c'. split; [exact Hrun|].
  intros alloc Hin.
  assert (Hat : forall a,
            Z.of_nat (length (blueprintsAt (stationId alloc) a (reassignIds shuffled)))
            = countOf a (getArchetypeCounts alloc)).
  { intros a. rewrite blueprintsAt_assignment, reassignIds_assign, Hperm, Hass.
    rewrite expectedAssignments_here by done.
    rewrite Forall_forall in Hnonneg. destruct (Hnonneg alloc Hin) as (? & ? & ?).
    destruct a; cbn [countOf]; lia. }
  split; [exact Hat|].
  pose proof (Hat Bull) as HB. pose proof (Hat Bear) as HE.
  pose proof (Hat Hybrid) as HH. unfold blueprintsAt in HB, HE, HH.
  assert (Hsplit : forall l : list NftBlueprint,
            length (filter (fun bp => station_id (bp_station bp) = stationId alloc) l)
            = (length (filter (fun bp => station_id (bp_station bp) = stationId alloc
                                          /\ bp_archetype bp = Bull) l)
               + length (filter (fun bp => station_id (bp_station bp) = stationId alloc
                                            /\ bp_archetype bp = Bear) l)
               + length (filter (fun bp => station_id (bp_station bp) = stationId alloc
                                            /\ bp_archetype bp = Hybrid) l))%nat).
  { induction l as [|bp l IH]; [done|]. rewrite !filter_cons.
    destruct (bp_archetype bp) eqn:Harch; repeat case_decide; destruct_and?;
      cbn [length]; try lia; try congruence; exfalso; naive_solver. }
  rewrite Hsplit. cbn [countOf] in HB, HE, HH.
  unfold getArchetypeCounts in *. cbn [bulls bears hybrids] in *. lia.
Qed.

Lemma STATION_DISTRIBUTION_distinct : NoDup (stationId <$> STATION_DISTRIBUTION).
Proof.
  change (stationId <$> STATION_DISTRIBUTION) with (seqZ 1 12). apply NoDup_seqZ.
Qed.

(** X3 on the shipped table: station 8 gets 13 bulls among its 29
    blueprints. *)
Lemma buildNftBlueprints_station_counts_witness :
  exists blueprints c',
    buildNftBlueprints lcgNext sampleConfig STATION_DISTRIBUTION
      (fresh (createRng sampleSeed)) = (inr blueprints, c') /\
    Z.of_nat (length (blueprintsAt 8 Bull blueprints)) = 13 /\
    Z.of_nat (length (filter (fun bp => station_id (bp_station bp) = 8) blueprints))
    = 29.
Proof.
  destruct (buildNftBlueprints_station_counts lcgNext sampleConfig STATION_DISTRIBUTION
              (fresh (createRng sampleSeed)) STATION_DISTRIBUTION_nonneg
              sampleConfig_covers STATION_DISTRIBUTION_distinct
              (createRng_in_range sampleSeed))
    as (blueprints & c' & Hrun & Hall).
  exists blueprints, c'. split; [exact Hrun|].
  destruct (Hall {| stationId := 8; count := 29; bullRatio := ratio_0_48;
                    bearRatio := ratio_0_48; hybridCount := Some 1 |})
    as [Hat Hcount].
  { by apply list_elem_of_lookup_2 with 7%nat. }
  split; [exact (Hat Bull) | exact Hcount].
Defined.

(** ** Allocations *)

(** X4. With a bull ratio of 0.5 the bulls and bears of a station are
    its non-hybrid blueprints split in two halves, and when their number
    is odd the bulls get the one more: [Math.round] rounds a half up. *)
Theorem getArchetypeCounts_even_split (alloc : StationAllocation) :
  bullRatio alloc = ratio_0_5 ->
  0 <= count alloc - orZero (hybridCount alloc) < 2 ^ 53 ->
  bulls (getArchetypeCounts alloc)
    = (count alloc - orZero (hybridCount alloc) + 1) / 2 /\
  bears (getArchetypeCounts alloc)
    = (count alloc - orZero (hybridCount alloc)) / 2 /\
  0 <= bulls (getArchetypeCounts alloc) - bears (getArchetypeCounts alloc) <= 1.
Proof.
  intros Hratio Hrem. unfold getArchetypeCounts. cbn [bulls bears].
  rewrite Hratio. unfold mulInt, mathRound, ratio_0_5. cbn [d_num d_exp].
  rewrite Z.mul_1_r, round53_small by done.
  set (r := count alloc - orZero (hybridCount alloc)) in *.
  change (2 ^ 1) with 2. change (2 ^ (1 + 1)) with 4.
  assert (Hb : (2 * r + 2) / 4 = (r + 1) / 2).
  { replace (2 * r + 2) with (2 * (r + 1)) by lia.
    change 4 with (2 * 2). by rewrite Z.div_mul_cancel_l. }
  rewrite Hb. split; [done|].
  pose proof (Z.div_mod r 2). pose proof (Z.div_mod (r + 1) 2).
  pose proof (Z.mod_pos_bound r 2). pose proof (Z.mod_pos_bound (r + 1) 2).
  lia.
Qed.

Lemma getArchetypeCounts_even_split_witness :
  bulls (getArchetypeCounts (plainStation 9 27)) = (27 - 0 + 1) / 2 /\
  bears (getArchetypeCounts (plainStation 9 27)) = (27 - 0) / 2 /\
  0 <= bulls (getArchetypeCounts (plainStation 9 27))
       - bears (getArchetypeCounts (plainStation 9 27)) <= 1.
Proof.
  apply (getArchetypeCounts_even_split (plainStation 9 27)).
  - reflexivity.
  - vm_compute. split; [discriminate | reflexivity].
Defined.

(** ** Validation of the distribution *)

Lemma validateAllocation_eq total errors alloc :
  validateAllocation (total, errors) alloc
  = (total + count alloc, errors ++ allocationErrors alloc).
Proof.
  unfold validateAllocation, allocationErrors.
  destruct (ratioMismatch alloc), (invalidStationId alloc);
    by rewrite <- ?app_assoc, ?app_nil_r.
Qed.

Lemma validate_fold dist total errors :
  fold_left validateAllocation dist (total, errors)
  = (total + sumCounts dist, errors ++ concat (allocationErrors <$> dist)).
Proof.
  revert total errors. induction dist as [|alloc dist IH]; intros total errors.
  - simpl. by rewrite Z.add_0_r, app_nil_r.
  - cbn [fold_left]. rewrite validateAllocation_eq, IH.
    cbn [sumCounts fold_right fmap list_fmap concat].
    rewrite <- app_assoc. f_equal. unfold sumCounts. lia.
Qed.

Lemma allocationErrors_nil alloc :
  allocationErrors alloc = [] <->
  1 <= stationId alloc <= 12 /\ ratioMismatch alloc = false.
Proof.
  unfold allocationErrors, invalidStationId.
  destruct (ratioMismatch alloc);
    destruct (Z.ltb_spec (stationId alloc) 1), (Z.ltb_spec 12 (stationId alloc));
    simpl; split; intros; try done; try lia; destruct_and?; try done; lia.
Qed.

Lemma concat_nil_Forall {A} (ls : list (list A)) :
  concat ls = [] <-> Forall (fun l => l = []) ls.
Proof.
  induction ls as [|l ls IH]; simpl; [done|]. split.
  - intros [-> H]%app_eq_nil. constructor; [done | by apply IH].
  - intros H. apply Forall_cons in H as [-> H]. by apply IH.
Qed.

Lemma unique_size_NoDup (l : list Z) :
  size (list_to_set l : gset Z) = length l <-> NoDup l.
Proof.
  split; [|apply size_list_to_set].
  intros Hsize.
  assert (Hsub : elements (list_to_set l : gset Z) ⊆+ l).
  { apply NoDup_submseteq; [apply NoDup_elements|].
    intros x Hx. by apply elem_of_elements, elem_of_list_to_set in Hx. }
  apply submseteq_length_Permutation in Hsub.
  - rewrite <- Hsub. apply NoDup_elements.
  - unfold size, set_size in Hsize. simpl in Hsize. lia.
Qed.

Lemma NoDup_within_12 (l : list Z) :
  NoDup l -> Forall (fun x => 1 <= x <= 12) l -> (length l <= 12)%nat.
Proof.
  intros Hnd Hall.
  assert (Hsub : l ⊆+ seqZ 1 12).
  { apply NoDup_submseteq; [done|]. intros x Hx.
    rewrite Forall_forall in Hall. apply elem_of_seqZ. specialize (Hall x Hx). lia. }
  apply submseteq_length in Hsub. by rewrite length_seqZ in Hsub.
Qed.

(** X5. The validation of a station table reports it valid exactly when
    it has no error to report, which is exactly when the counts total
    333, every station id lies between 1 and 12, no station id occurs
    twice, and for every station the bull and bear ratios add up to the
    share of its non-hybrid blueprints with a difference of 0.01 at most;
    the total reported is the sum of the counts.  A table reported valid
    has at most twelve stations.  The shipped table is reported valid,
    with a total of 333. *)
Theorem validateDistribution_valid (dist : list StationAllocation) :
  total (validateDistribution dist) = sumCounts dist /\
  (valid (validateDistribution dist) = true <->
     errors (validateDistribution dist) = []) /\
  (valid (validateDistribution dist) = true <->
     sumCounts dist = 333 /\
     NoDup (stationId <$> dist) /\
     Forall (fun alloc => 1 <= stationId alloc <= 12 /\ ratioMismatch alloc = false)
            dist) /\
  (valid (validateDistribution dist) = true -> (length dist <= 12)%nat) /\
  validateStationDistribution = {| valid := true; total := 333; errors := [] |}.
Proof.
  assert (Hiff : valid (validateDistribution dist) = true <->
     sumCounts dist = 333 /\
     NoDup (stationId <$> dist) /\
     Forall (fun alloc => 1 <= stationId alloc <= 12 /\ ratioMismatch alloc = false)
            dist).
  { unfold validateDistribution. rewrite validate_fold. cbn [valid app].
    rewrite Z.add_0_l, Nat.eqb_eq, length_zero_iff_nil.
    rewrite <- unique_size_NoDup.
    destruct (Z.eqb_spec (sumCounts dist) 333) as [Hsum|Hsum];
      destruct (Nat.eqb_spec (size (list_to_set (stationId <$> dist) : gset Z))
                             (length (stationId <$> dist))) as [Hsize|Hsize];
      cbn [negb].
    - rewrite concat_nil_Forall, Forall_fmap. split.
      + intros Hall. split; [done|]. split; [done|].
        eapply Forall_impl; [exact Hall|]. intros a Ha. by apply allocationErrors_nil.
      + intros (_ & _ & Hall). eapply Forall_impl; [exact Hall|].
        intros a Ha. by apply allocationErrors_nil.
    - split; [intros H; by apply app_eq_nil in H as [_ ?] | intros (_ & ? & _); done].
    - split; [intros H; by apply app_eq_nil in H as [_ ?] | intros (? & _); done].
    - split; [intros H; by apply app_eq_nil in H as [_ ?] | intros (? & _); done]. }
  split; [|split; [|split; [exact Hiff|split]]].
  - unfold validateDistribution. rewrite validate_fold. cbn [total]. lia.
  - unfold validateDistribution. rewrite validate_fold. cbn [valid errors].
    by rewrite Nat.eqb_eq, length_zero_iff_nil.
  - intros (_ & Hnd & Hall)%Hiff. rewrite <- (length_fmap stationId).
    apply NoDup_within_12; [done|]. apply Forall_fmap.
    eapply Forall_impl; [exact Hall|]. by intros a [? _].
  - vm_compute. reflexivity.
Qed.

(** X5 on the shipped table. *)
Lemma validateDistribution_valid_witness :
  sumCounts STATION_DISTRIBUTION = 333 /\
  NoDup (stationId <$> STATION_DISTRIBUTION) /\
  Forall (fun alloc => 1 <= stationId alloc <= 12 /\ ratioMismatch alloc = false)
         STATION_DISTRIBUTION.
Proof.
  apply (proj1 (proj1 (proj2 (proj2 (validateDistribution_valid STATION_DISTRIBUTION))))).
  vm_compute. reflexivity.
Defined.

(** ** Traits and scores *)

Section TraitRuns.
Context {St : Type}.
Variable next : St -> dyadic * St.

(** What a loop returned, element by element. *)
Lemma mapGen_inv {A B} (f : A -> Gen St B) (l : list A) c bs c' :
  mapGen f l c = (inr bs, c') ->
  Forall2 (fun a b => exists c1 c2, f a c1 = (inr b, c2)) l bs.
Proof.
  revert c bs c'. induction l as [|a l IH]; intros c bs c' Hrun.
  - simpl in Hrun. injection Hrun as <- _. constructor.
  - cbn [mapGen] in Hrun.
    apply bind_ok in Hrun as (b & c1 & Hb & Hrun).
    apply bind_ok in Hrun as (bs' & c2 & Hbs & Hrun).
    injection Hrun as <- _. constructor; [eauto | by eapply IH].
Qed.

(** A loop stops at the first element whose round throws. *)
Lemma mapGen_throw {A B} (f : A -> Gen St B) before a after c bs c1 e c2 :
  mapGen f before c = (inr bs, c1) ->
  f a c1 = (inl e, c2) ->
  mapGen f (before ++ a :: after) c = (inl e, c2).
Proof.
  revert c bs. induction before as [|x before IH]; intros c bs Hrun Hthrow.
  - simpl in Hrun. injection Hrun as _ <-.
    cbn [app mapGen]. unfold bind at 1. by rewrite Hthrow.
  - cbn [mapGen] in Hrun.
    apply bind_ok in Hrun as (b & c' & Hb & Hrun).
    apply bind_ok in Hrun as (bs' & c'' & Hbs & Hrun).
    injection Hrun as _ <-.
    change ((x :: before) ++ a :: after) with (x :: (before ++ a :: after)).
    cbn [mapGen]. unfold bind at 1. rewrite Hb.
    unfold bind at 1. by rewrite (IH _ _ Hbs Hthrow).
Qed.

End TraitRuns.

Section TraitGeneration.
Context {St : Type}.
Variable next : St -> dyadic * St.

(** One round per layer, one draw per round. *)
Lemma generateTraitsForNft_run config (ls : list LayerConfig) c :
  Forall hasTraits ls ->
  draws_in_range next (state c) ->
  exists generated,
    generateTraitsForNft next
      {| scoring := scoring config; stations := stations config; layers := ls |} c
      = (inr generated,
         mkCursor (advance next (length ls) (state c)) (calls c + length ls)) /\
    Forall2 (fun layer g => exists trait,
               trait ∈ layer_traits layer /\ g = traitOf config layer trait)
            ls generated.
Proof.
  intros Hne Hr. unfold generateTraitsForNft. cbn [layers scoring].
  match goal with
  | |- context [mapGen ?f _ _] =>
      destruct (mapGen_run next f
                  (fun layer g => exists trait,
                     trait ∈ layer_traits layer /\ g = traitOf config layer trait)
                  1%nat ls c)
        as (generated & Hrun & Hall)
  end.
  - intros layer c0 Hin Hr0. simpl.
    rewrite Forall_forall in Hne.
    destruct (pickRandomTrait_run next layer c0 (Hne _ Hin) Hr0)
      as (idx & trait & Hpick & _ & _ & Hlook).
    unfold bind. rewrite Hpick. unfold ret.
    eexists. split; [reflexivity|].
    exists trait. split; [|done]. by eapply list_elem_of_lookup_2.
  - done.
  - exists generated. rewrite Nat.mul_1_r in Hrun. done.
Qed.

Lemma config_eta (config : MetaGenConfig) :
  {| scoring := scoring config; stations := stations config;
     layers := layers config |} = config.
Proof. by destruct config. Qed.

(** A layer without traits: the draw is made, the index is 0 and the
    trait read is [undefined]. *)
Lemma pickRandomTrait_empty layer c :
  layer_traits layer = [] ->
  pickRandomTrait next layer c
  = (inr None, mkCursor (advance next 1 (state c)) (calls c + 1)).
Proof.
  intros Hnil. unfold pickRandomTrait. call_rng. rewrite Hnil.
  cbn [length]. rewrite floorMul_zero. unfold ret, jsIndex. simpl.
  do 2 f_equal. lia.
Qed.

End TraitGeneration.

(** X6. A layer without traits makes [generateTraitsForNft] fail with a
    TypeError: the layers before it are drawn for as usual, the draw for
    the empty layer is still made, and the read of the category of the
    trait that is not there throws; no later layer is drawn for.
    [buildGeneratedNft] fails in the same way. *)
Theorem generateTraitsForNft_empty_layer {St} (next : St -> dyadic * St)
    (config : MetaGenConfig) (before after : list LayerConfig) (layer : LayerConfig)
    (c : Cursor St) :
  layers config = before ++ layer :: after ->
  Forall hasTraits before ->
  layer_traits layer = [] ->
  draws_in_range next (state c) ->
  generateTraitsForNft next config c
  = (inl TypeError,
     mkCursor (advance next (length before + 1) (state c))
              (calls c + (length before + 1))) /\
  forall blueprint stamp,
    buildGeneratedNft next blueprint config stamp c
    = (inl TypeError,
       mkCursor (advance next (length before + 1) (state c))
                (calls c + (length before + 1))).
Proof.
  intros Hls Hne Hnil Hr.
  assert (Hgen : generateTraitsForNft next config c
                 = (inl TypeError,
                    mkCursor (advance next (length before + 1) (state c))
                             (calls c + (length before + 1)))).
  { destruct (generateTraitsForNft_run next config before c Hne Hr)
      as (generated & Hrun & _).
    unfold generateTraitsForNft in *. cbn [layers scoring] in Hrun.
    rewrite Hls. eapply mapGen_throw; [exact Hrun|].
    unfold bind. rewrite pickRandomTrait_empty by done.
    unfold throw. cbn [state calls]. rewrite <- advance_add.
    do 2 f_equal. lia. }
  split; [exact Hgen|]. intros blueprint stamp.
  unfold buildGeneratedNft, bind. by rewrite Hgen.
Qed.

Lemma generateTraitsForNft_empty_layer_witness :
  generateTraitsForNft lcgNext configWithEmptyLayer (fresh (createRng sampleSeed))
  = (inl TypeError,
     mkCursor (advance lcgNext 2 (createRng sampleSeed)) 2) /\
  forall blueprint stamp,
    buildGeneratedNft lcgNext blueprint configWithEmptyLayer stamp
      (fresh (createRng sampleSeed))
    = (inl TypeError, mkCursor (advance lcgNext 2 (createRng sampleSeed)) 2).
Proof.
  apply (generateTraitsForNft_empty_layer lcgNext configWithEmptyLayer
           [sampleLayer "Background" "background"] [sampleLayer "Eyes" "eyes"]
           emptyLayer (fresh (createRng sampleSeed))).
  - reflexivity.
  - repeat constructor. unfold hasTraits. simpl. discriminate.
  - reflexivity.
  - apply createRng_in_range.
Defined.

Lemma sum_within (l : list Z) lo hi :
  Forall (fun x => lo <= x <= hi) l ->
  Z.of_nat (length l) * lo <= foldr Z.add 0 l <= Z.of_nat (length l) * hi.
Proof.
  induction 1 as [|x l Hx Hl IH]; [simpl; lia|].
  cbn [foldr length]. lia.
Qed.

(** One trait per layer, each with the weight of its category. *)
Lemma generated_score_bounds {St} (next : St -> dyadic * St)
    (config : MetaGenConfig) (lo hi : Z) (c : Cursor St) generated c' :
  weightsWithin config lo hi ->
  generateTraitsForNft next config c = (inr generated, c') ->
  length generated = length (layers config) /\
  Forall (fun g => score g = categories (scoring config) (category g)) generated /\
  Z.of_nat (length (layers config)) * lo <= computeTotalScore generated
    <= Z.of_nat (length (layers config)) * hi.
Proof.
  intros Hw Hrun. unfold generateTraitsForNft in Hrun.
  apply mapGen_inv in Hrun.
  assert (Hscore : Forall (fun g => score g
                             = categories (scoring config) (category g)) generated).
  { clear -Hrun. induction Hrun as [|layer g ls gs Hg _ IH]; constructor; [|done].
    destruct Hg as (c1 & c2 & Hg).
    apply bind_ok in Hg as ([trait|] & c3 & _ & Hg); [|discriminate].
    by injection Hg as <- _. }
  pose proof (Forall2_length _ _ _ Hrun) as Hlen.
  split; [done|]. split; [done|].
  rewrite computeTotalScore_sum, Hlen.
  rewrite <- (length_fmap score generated). apply sum_within.
  apply Forall_fmap. eapply Forall_impl; [exact Hscore|].
  intros g Hg. simpl. rewrite Hg. apply Hw.
Qed.



(** ** Scores *)



(** ** Tiers *)

Lemma consecutive_covers tiers score t1 tn :
  consecutive tiers ->
  head tiers = Some t1 -> last tiers = Some tn ->
  tier_min t1 <= score <= tier_max tn ->
  exists t, t ∈ tiers /\ contains t score.
Proof.
  revert t1. induction tiers as [|t tiers IH]; intros t1 Hc Hh Hl Hs; [done|].
  injection Hh as ->.
  destruct tiers as [|t2 tiers].
  - injection Hl as ->. exists tn. split; [by left | done].
  - destruct Hc as [Hnext Hc].
    destruct (Z_le_gt_dec score (tier_max t1)) as [Hle|Hgt].
    + exists t1. split; [by left|]. unfold contains. lia.
    + destruct (IH t2 Hc eq_refl Hl) as (t & Hin & Ht); [lia|].
      exists t. split; [by right | done].
Qed.

(** A tier that contains the score is enough for [resolveTier] to return
    one. *)
Lemma resolveTier_some score tiers t :
  t ∈ tiers -> contains t score ->
  exists u, resolveTier score tiers = inr u /\ u ∈ tiers /\ contains u score.
Proof.
  intros Hin Ht.
  destruct (resolveTier score tiers) as [e|u] eqn:Hres.
  - apply resolveTier_error in Hres as [Hall _].
    rewrite Forall_forall in Hall. by destruct (Hall t Hin).
  - exists u. split; [done|].
    apply resolveTier_found in Hres as (before & after & -> & Hu & _).
    split; [|done]. apply elem_of_app. right. by left.
Qed.

Lemma consecutive_app_r tiers1 tiers2 :
  consecutive (tiers1 ++ tiers2) -> consecutive tiers2.
Proof.
  induction tiers1 as [|t tiers1 IH]; [done|].
  cbn [app]. destruct (tiers1 ++ tiers2) as [|u rest] eqn:Happ.
  - apply app_eq_nil in Happ as [_ ->]. done.
  - intros [_ Hc]. by apply IH.
Qed.

(** After a tier, consecutive tiers that are not empty lie above it. *)
Lemma later_tiers_above t rest :
  consecutive (t :: rest) ->
  Forall (fun u => tier_min u <= tier_max u) (t :: rest) ->
  Forall (fun u => tier_max t < tier_min u) rest.
Proof.
  revert t. induction rest as [|t2 rest IH]; intros t Hc Hwf; [constructor|].
  destruct Hc as [Hnext Hc].
  apply Forall_cons in Hwf as [Ht Hwf].
  pose proof (Forall_inv Hwf) as Ht2. cbn beta in Ht2.
  constructor; [lia|].
  eapply Forall_impl; [exact (IH t2 Hc Hwf)|]. intros u Hu. cbn beta in Hu. lia.
Qed.

(** X9. When the tiers are consecutive (each starts right after the one
    before it ends) and reach from [lo] or below to [hi] or above,
    [resolveTier] finds a tier for every score from [lo] to [hi]: the
    error for a score outside the tiers cannot occur there.  When
    moreover no tier is empty (its min above its max), the tier found is
    the only tier of the list that contains the score. *)
Theorem resolveTier_spanning (tiers : list TierThreshold) (lo hi score : Z) :
  tiersSpan tiers lo hi ->
  lo <= score <= hi ->
  exists t,
    resolveTier score tiers = inr t /\ t ∈ tiers /\ contains t score /\
    (Forall (fun u => tier_min u <= tier_max u) tiers ->
     forall u, u ∈ tiers -> contains u score -> u = t).
Proof.
  intros (Hc & t1 & tn & Hh & Hl & Hlo & Hhi) Hs.
  destruct (consecutive_covers tiers score t1 tn Hc Hh Hl) as (t & Hin & Ht); [lia|].
  destruct (resolveTier_some score tiers t Hin Ht) as (u & Hres & Hu & Hcontains).
  exists u. split; [done|]. split; [done|]. split; [done|].
  intros Hwf v Hv Hvs.
  apply resolveTier_found in Hres as (before & after & -> & _ & Hbefore).
  apply consecutive_app_r in Hc. apply Forall_app in Hwf as [_ Hwf].
  pose proof (later_tiers_above u after Hc Hwf) as Habove.
  apply elem_of_app in Hv as [Hv|Hv].
  - rewrite Forall_forall in Hbefore. by destruct (Hbefore v Hv).
  - apply elem_of_cons in Hv as [->|Hv]; [done|].
    rewrite Forall_forall in Habove. specialize (Habove v Hv).
    unfold contains in *. lia.
Qed.

Lemma sampleTiers_span : tiersSpan sampleTiers 49 294.
Proof.
  split; [simpl; repeat split; reflexivity|].
  eexists _, _. split; [reflexivity|]. split; [reflexivity|]. simpl. lia.
Qed.

(** X9 on the sample tiers: a score of 128 is in the fourth tier and in
    no other. *)
Lemma resolveTier_spanning_witness :
  exists t,
    resolveTier 128 sampleTiers = inr t /\ t ∈ sampleTiers /\ contains t 128 /\
    forall u, u ∈ sampleTiers -> contains u 128 -> u = t.
Proof.
  destruct (resolveTier_spanning sampleTiers 49 294 128 sampleTiers_span ltac:(lia))
    as (t & Hres & Hin & Ht & Honly).
  exists t. split; [exact Hres|]. split; [exact Hin|]. split; [exact Ht|].
  apply Honly. repeat constructor; simpl; lia.
Defined.

(** ** Records *)

Lemma buildGeneratedNft_fields {St} (next : St -> dyadic * St) blueprint config
    stamp (c : Cursor St) nft c' :
  buildGeneratedNft next blueprint config stamp c = (inr nft, c') ->
  nft_id nft = bp_id blueprint /\ nft_station nft = bp_station blueprint /\
  nft_archetype nft = bp_archetype blueprint /\ mintTimestamp nft = stamp /\
  totalScore nft = computeTotalScore (traits nft).
Proof.
  intros Hrun. unfold buildGeneratedNft in Hrun.
  apply bind_ok in Hrun as (generated & c1 & _ & Hrun).
  destruct (resolveTier _ _) as [e|t]; [discriminate|].
  apply bind_ok in Hrun as (tag & c2 & _ & Hrun).
  by injection Hrun as <- _.
Qed.

(** The two ways [buildGeneratedNft] ends, and the draws of each. *)
Lemma buildGeneratedNft_run {St} (next : St -> dyadic * St)
    (blueprint : NftBlueprint) (config : MetaGenConfig) (stamp : Z) (c : Cursor St) :
  Forall hasTraits (layers config) ->
  draws_in_range next (state c) ->
  exists generated,
    generateTraitsForNft next config c
    = (inr generated,
       mkCursor (advance next (length (layers config)) (state c))
                (calls c + length (layers config))) /\
    length generated = length (layers config) /\
    match resolveTier (computeTotalScore generated) (tier_thresholds (scoring config))
    with
    | inr t =>
        exists nft,
          buildGeneratedNft next blueprint config stamp c
          = (inr nft,
             mkCursor (advance next (length (layers config) + 4) (state c))
                      (calls c + (length (layers config) + 4))) /\
          traits nft = generated /\ tier nft = t
    | inl e =>
        buildGeneratedNft next blueprint config stamp c
        = (inl e,
           mkCursor (advance next (length (layers config)) (state c))
                    (calls c + length (layers config)))
    end.
Proof.
  intros Hne Hr.
  destruct (generateTraitsForNft_run next config (layers config) c Hne Hr)
    as (generated & Hrun & Hall).
  rewrite config_eta in Hrun. apply Forall2_length in Hall.
  exists generated. split; [exact Hrun|]. split; [done|].
  unfold buildGeneratedNft, bind. rewrite Hrun.
  destruct (resolveTier _ _) as [e|t] eqn:Hres; [done|].
  unfold generateTag.
  match goal with
  | |- context [tagLoop next 4 ?tag ?c1] =>
      destruct (tagLoop_run next 4 tag c1) as (suffix & Htag & _)
  end.
  { by apply draws_in_range_advance. }
  rewrite Htag. unfold ret. cbn [state calls].
  eexists. split.
  - rewrite <- advance_add. do 2 f_equal. lia.
  - done.
Qed.

(** X10. For a configuration whose layers all have traits and a draw
    function with values in [0,1), [buildGeneratedNft] either returns a
    record, after exactly one draw per layer and four for the tag, whose
    id, station and archetype are the blueprint's and whose timestamp is
    the one given; or it throws the error of [resolveTier] for the total
    score, after exactly one draw per layer and none for a tag. *)
Theorem buildGeneratedNft_draws {St} (next : St -> dyadic * St)
    (blueprint : NftBlueprint) (config : MetaGenConfig) (stamp : Z) (c : Cursor St) :
  Forall hasTraits (layers config) ->
  draws_in_range next (state c) ->
  (exists nft,
     buildGeneratedNft next blueprint config stamp c
       = (inr nft,
          mkCursor (advance next (length (layers config) + 4) (state c))
                   (calls c + (length (layers config) + 4))) /\
     nft_id nft = bp_id blueprint /\ nft_station nft = bp_station blueprint /\
     nft_archetype nft = bp_archetype blueprint /\ mintTimestamp nft = stamp /\
     length (traits nft) = length (layers config) /\
     resolveTier (totalScore nft) (tier_thresholds (scoring config)) = inr (tier nft))
  \/
  (exists e generated,
     buildGeneratedNft next blueprint config stamp c
       = (inl e,
          mkCursor (advance next (length (layers config)) (state c))
                   (calls c + length (layers config))) /\
     (generateTraitsForNft next config c).1 = inr generated /\
     length generated = length (layers config) /\
     resolveTier (computeTotalScore generated) (tier_thresholds (scoring config))
       = inl e).
Proof.
  intros Hne Hr.
  destruct (buildGeneratedNft_run next blueprint config stamp c Hne Hr)
    as (generated & Hgen & Hlen & Hend).
  destruct (resolveTier (computeTotalScore generated) _) as [e|t] eqn:Hres.
  - right. exists e, generated. rewrite Hgen. done.
  - left. destruct Hend as (nft & Hrun & Htraits & Htier). exists nft.
    split; [exact Hrun|].
    destruct (buildGeneratedNft_fields next _ _ _ _ _ _ Hrun)
      as (Hid & Hst & Harch & Hstamp & Htotal).
    rewrite Htotal, Htraits, Htier. done.
Qed.

Lemma buildGeneratedNft_draws_witness :
  (exists nft,
     buildGeneratedNft lcgNext sampleBlueprint sampleConfig 1700000000000
         (fresh (createRng sampleSeed))
       = (inr nft, mkCursor (advance lcgNext 11 (createRng sampleSeed)) 11) /\
     nft_id nft = 1 /\ nft_station nft = bp_station sampleBlueprint /\
     nft_archetype nft = Hybrid /\ mintTimestamp nft = 1700000000000 /\
     length (traits nft) = 7%nat /\
     resolveTier (totalScore nft) sampleTiers = inr (tier nft))
  \/
  (exists e generated,
     buildGeneratedNft lcgNext sampleBlueprint sampleConfig 1700000000000
         (fresh (createRng sampleSeed))
       = (inl e, mkCursor (advance lcgNext 7 (createRng sampleSeed)) 7) /\
     (generateTraitsForNft lcgNext sampleConfig (fresh (createRng sampleSeed))).1
       = inr generated /\
     length generated = 7%nat /\
     resolveTier (computeTotalScore generated) sampleTiers = inl e).
Proof.
  apply (buildGeneratedNft_draws lcgNext sampleBlueprint sampleConfig 1700000000000
           (fresh (createRng sampleSeed))).
  - repeat constructor; unfold hasTraits; simpl; discriminate.
  - apply createRng_in_range.
Defined.

(** ** Seeds *)

Lemma codeSum_perm seed1 seed2 :
  seed1 ≡ₚ seed2 -> SpecRng.codeSum seed1 = SpecRng.codeSum seed2.
Proof.
  induction 1 as [|ch s1 s2 _ IH|ch1 ch2 s|s1 s2 s3 _ IH1 _ IH2]; simpl; lia.
Qed.

(** X11. The generator of a seed depends on the sum of the character
    codes of the seed only: two seeds with the same sum (below 2^53, as
    for every string a program can hold), and so two seeds that are
    rearrangements of one another, start from the same state and give the
    same draws, call after call. *)
Theorem createRng_same_code_sum (seed1 seed2 : jsstring) :
  SpecRng.codeSum seed1 < 2 ^ 53 ->
  SpecRng.codeSum seed2 = SpecRng.codeSum seed1 \/ seed2 ≡ₚ seed1 ->
  createRng seed2 = createRng seed1 /\
  forall k, drawNumber k seed2 = drawNumber k seed1.
Proof.
  intros Hlt Hsame.
  assert (Hsum : SpecRng.codeSum seed2 = SpecRng.codeSum seed1).
  { destruct Hsame as [H|H]; [done | by apply codeSum_perm]. }
  assert (Hrng : createRng seed2 = createRng seed1).
  { rewrite !createRng_exact by lia. unfold SpecRng.accumulator. by rewrite Hsum. }
  split; [done|]. intros k. unfold drawNumber, stateAfter. by rewrite Hrng.
Qed.

Lemma createRng_same_code_sum_witness :
  createRng (ofString "silent") = createRng (ofString "listen") /\
  forall k, drawNumber k (ofString "silent") = drawNumber k (ofString "listen").
Proof.
  apply (createRng_same_code_sum (ofString "listen") (ofString "silent")).
  - vm_compute. reflexivity.
  - left. reflexivity.
Defined.

(** ** Draws of the seeded generator *)

(** X12. With the generator of [createRng] an index [Math.floor(rng() *
    n)] is computed without any rounding for every [n] up to 2^21: it is
    the new state times [n], divided by 2^32 and rounded down.  So the
    trait [pickRandomTrait] returns is the one at that index, and a
    character of a tag is chosen by the five highest of the 32 bits of
    the state. *)
Theorem lcg_index_exact (s n : Z) :
  0 <= s -> 0 <= n <= 2 ^ 21 ->
  floorMul (lcgNext s).1 n = (lcgNext s).2 * n / 2 ^ 32 /\
  floorMul (lcgNext s).1 (Z.of_nat (String.length INSCRIPTION_CHARS))
    = (lcgNext s).2 / 2 ^ 27 /\
  forall layer calls,
    Z.of_nat (length (layer_traits layer)) = n ->
    (pickRandomTrait lcgNext layer (mkCursor s calls)).1
    = inr (layer_traits layer !! Z.to_nat ((lcgNext s).2 * n / 2 ^ 32)).
Proof.
  intros Hs Hn.
  pose proof (lcgNext_state_bound s Hs) as Hb. unfold LCG_M in Hb.
  assert (Hexact : forall m, 0 <= m <= 2 ^ 21 ->
            floorMul (lcgNext s).1 m = (lcgNext s).2 * m / 2 ^ 32).
  { intros m Hm. rewrite lcgNext_draw, floorMul_exact; cbn [d_num d_exp].
    - by rewrite Z.mul_comm.
    - change (2 ^ 21) with 2097152 in Hm.
      change (2 ^ 53) with 9007199254740992. nia. }
  split; [by apply Hexact|]. split.
  - rewrite Hexact by (vm_compute; split; discriminate).
    change (Z.of_nat (String.length INSCRIPTION_CHARS)) with (2 ^ 5).
    change (2 ^ 32) with (2 ^ 27 * 2 ^ 5).
    by rewrite Z.div_mul_cancel_r.
  - intros layer calls Hlen. unfold pickRandomTrait. call_rng.
    unfold ret. cbn [state fst]. rewrite Hlen, Hexact by done.
    unfold jsIndex.
    destruct (Z.ltb_spec ((lcgNext s).2 * n / 2 ^ 32) 0) as [Hneg|]; [|done].
    assert (0 <= (lcgNext s).2 * n / 2 ^ 32); [|lia].
    apply Z.div_pos; [|done]. apply Z.mul_nonneg_nonneg; lia.
Qed.

(** X12 for the first character of the tag of the test seed. *)
Lemma lcg_index_exact_witness :
  floorMul (lcgNext (createRng sampleSeed)).1 32
  = (lcgNext (createRng sampleSeed)).2 * 32 / 2 ^ 32.
Proof.
  apply (proj1 (lcg_index_exact (createRng sampleSeed) 32
                  ltac:(vm_compute; discriminate)
                  ltac:(vm_compute; split; discriminate))).
Defined.

Lemma step_moves (s : Z) : 0 <= s < 2 ^ 32 -> SpecRng.step s <> s.
Proof.
  intros Hs Heq. unfold SpecRng.step in Heq.
  pose proof (Z.div_mod (s * 1664525 + 1013904223) (2 ^ 32) ltac:(done)) as Hdiv.
  rewrite Heq in Hdiv. change (2 ^ 32) with 4294967296 in *.
  set (q := (s * 1664525 + 1013904223) / 4294967296) in *.
  assert (Hodd : 1013904223 = 2 * (2147483648 * q - 832262 * s)) by lia.
  lia.
Qed.

(** X13. The generator of [createRng] never returns the same number
    twice in a row: from the second draw on, every draw differs from the
    draw before it, whatever the seed. *)
Theorem consecutive_draws_differ (seed : jsstring) (k : nat) :
  (1 <= k)%nat -> drawNumber (S k) seed <> drawNumber k seed.
Proof.
  intros Hk. unfold drawNumber. rewrite !lcgNext_draw.
  replace (S k - 1)%nat with (S (k - 1)) by lia.
  change (stateAfter (S (k - 1)) seed)
    with (lcgNext (stateAfter (k - 1) seed)).2.
  set (s := stateAfter (k - 1) seed).
  assert (Hs : 0 <= s).
  { subst s. unfold stateAfter. pose proof (createRng_pos seed).
    change (Nat.iter (k - 1) (fun s => (lcgNext s).2) (createRng seed))
      with (advance lcgNext (k - 1) (createRng seed)).
    apply advance_lcg_nonneg. lia. }
  pose proof (lcgNext_state_bound s Hs) as Hb. unfold LCG_M in Hb.
  intros Heq. apply (f_equal d_num) in Heq. cbn [d_num] in Heq.
  rewrite lcgNext_exact in Heq.
  - apply (step_moves (lcgNext s).2); [|done].
    change (2 ^ 32) with 4294967296. lia.
  - lia.
  - unfold LCG_A, LCG_C. change (2 ^ 53) with 9007199254740992. lia.
Qed.

Lemma consecutive_draws_differ_witness :
  drawNumber 2 sampleSeed <> drawNumber 1 sampleSeed.
Proof. apply (consecutive_draws_differ sampleSeed 1). lia. Defined.

(** ** File names *)

Lemma string_length_app s1 s2 :
  String.length (s1 +:+ s2) = (String.length s1 + String.length s2)%nat.
Proof. induction s1 as [|a s1 IH]; simpl; [done | by rewrite IH]. Qed.

Lemma zeros_length k :
  String.length (string_of_list_ascii (replicate k "0"%char)) = k.
Proof. induction k as [|k IH]; simpl; [done | by rewrite IH]. Qed.

Lemma padStartZero_length n s :
  String.length (padStartZero n s) = Nat.max n (String.length s).
Proof. unfold padStartZero. rewrite string_length_app, zeros_length. lia. Qed.

Lemma padStartZero_long n s :
  (n <= String.length s)%nat -> padStartZero n s = s.
Proof.
  intros Hle. unfold padStartZero.
  by replace (n - String.length s)%nat with 0%nat by lia.
Qed.

(** Zeros in front of the digits of a number are digits of the number. *)
Lemma zeros_digits k (u : Decimal.uint) :
  string_of_list_ascii (replicate k "0"%char)
    +:+ DecimalString.NilEmpty.string_of_uint u
  = DecimalString.NilEmpty.string_of_uint (Nat.iter k Decimal.D0 u).
Proof. induction k as [|k IH]; simpl; [done | by rewrite <- IH]. Qed.

Lemma of_uint_zeros k u :
  Z.of_uint (Nat.iter k Decimal.D0 u) = Z.of_uint u.
Proof. induction k as [|k IH]; [done | exact IH]. Qed.

Lemma iter_D0_nonnil k u : u <> Decimal.Nil -> Nat.iter k Decimal.D0 u <> Decimal.Nil.
Proof. destruct k; [done | discriminate]. Qed.

(** The digits of a number that is not negative. *)
Lemma stringOfInt_digits id :
  0 <= id ->
  exists u, u <> Decimal.Nil /\ Z.of_uint u = id /\
    stringOfInt id = DecimalString.NilEmpty.string_of_uint u.
Proof.
  intros Hid. pose proof (DecimalZ.of_to id) as Hof. unfold stringOfInt.
  destruct id as [|p|p]; [| |lia].
  - exists Decimal.zero. done.
  - exists (Pos.to_uint p). split; [apply DecimalPos.Unsigned.to_uint_nonnil|].
    split; [exact Hof|]. cbn [Z.to_int DecimalString.NilZero.string_of_int].
    unfold DecimalString.NilZero.string_of_uint.
    pose proof (DecimalPos.Unsigned.to_uint_nonnil p).
    by destruct (Pos.to_uint p).
Qed.

Lemma pad3_digits id :
  0 <= id ->
  exists u, u <> Decimal.Nil /\ Z.of_uint u = id /\
    pad3 id = DecimalString.NilZero.string_of_int (Decimal.Pos u).
Proof.
  intros Hid. destruct (stringOfInt_digits id Hid) as (u & Hu & Hval & Hs).
  exists (Nat.iter (3 - String.length (stringOfInt id)) Decimal.D0 u).
  split; [by apply iter_D0_nonnil|]. split; [by rewrite of_uint_zeros|].
  unfold pad3, padStartZero. rewrite Hs at 2. rewrite zeros_digits.
  cbn [DecimalString.NilZero.string_of_int].
  unfold DecimalString.NilZero.string_of_uint.
  pose proof (iter_D0_nonnil (3 - String.length (stringOfInt id)) u Hu).
  by destruct (Nat.iter _ _ _).
Qed.

Lemma parseDecimal_pad3 id : 0 <= id -> parseDecimal (pad3 id) = Some id.
Proof.
  intros Hid. destruct (pad3_digits id Hid) as (u & Hu & Hval & ->).
  unfold parseDecimal. rewrite DecimalString.NilZero.isi; [|congruence|done].
  simpl. by rewrite Hval.
Qed.

Lemma digits_nil (u : Decimal.uint) :
  String.length (DecimalString.NilEmpty.string_of_uint u) = 0%nat -> u = Decimal.Nil.
Proof. by destruct u. Qed.


Lemma three_digits_below_1000 :
  forallb (fun id => (String.length (stringOfInt id) <=? 3)%nat) (seqZ 0 1000) = true.
Proof. vm_compute. reflexivity. Qed.



Lemma pad3_order_table :
  forallb (fun a => forallb (fun b => String.ltb (pad3 a) (pad3 b))
                            (seqZ (a + 1) (999 - a)))
          (seqZ 0 1000) = true.
Proof. vm_compute. reflexivity. Qed.

Lemma compare_app_same s1 s2 t :
  String.length s1 = String.length s2 ->
  String.compare s1 s2 = Lt -> String.compare (s1 +:+ t) (s2 +:+ t) = Lt.
Proof.
  revert s2. induction s1 as [|a s1 IH]; intros [|b s2] Hlen Hlt; try done.
  simpl in *. destruct (Ascii.compare a b); [|done..].
  apply IH; [lia | done].
Qed.

(** X15. Below 1000 the names [pad3] gives sort as the numbers do: for
    two numbers from 0 to 999 the name of the smaller one comes first in
    the order of strings, and so does the name of its file; from 1000 on
    this is no longer so. *)
Theorem pad3_sorts_by_id (a b : Z) :
  0 <= a < b -> b < 1000 ->
  String.ltb (pad3 a) (pad3 b) = true /\
  String.ltb (fileNameOf a) (fileNameOf b) = true /\
  String.ltb (pad3 1000) (pad3 999) = true.
Proof.
  intros Hab Hb.
  assert (Hlt : String.ltb (pad3 a) (pad3 b) = true).
  { pose proof pad3_order_table as Htable. rewrite forallb_forall in Htable.
    specialize (Htable a ltac:(apply list_elem_of_In, elem_of_seqZ; lia)).
    rewrite forallb_forall in Htable.
    apply Htable, list_elem_of_In, elem_of_seqZ. lia. }
  split; [exact Hlt|]. split; [|by vm_compute].
  unfold String.ltb in *. unfold fileNameOf.
  destruct (String.compare (pad3 a) (pad3 b)) eqn:Hcmp; try discriminate.
  rewrite compare_app_same; [done| |done].
  unfold pad3. rewrite !padStartZero_length.
  pose proof three_digits_below_1000 as Hall. rewrite forallb_forall in Hall.
  pose proof (Hall a ltac:(apply list_elem_of_In, elem_of_seqZ; lia)) as Ha.
  pose proof (Hall b ltac:(apply list_elem_of_In, elem_of_seqZ; lia)) as Hb'.
  rewrite Nat.leb_le in Ha, Hb'. lia.
Qed.

Lemma pad3_sorts_by_id_witness :
  String.ltb (pad3 9) (pad3 10) = true /\
  String.ltb (fileNameOf 9) (fileNameOf 10) = true /\
  String.ltb (pad3 1000) (pad3 999) = true.
Proof. apply (pad3_sorts_by_id 9 10); lia. Defined.

(** ** Metadata *)

Lemma traitOfAttribute_traits (generated : list GeneratedTrait) :
  omap traitOfAttribute (traitAttribute <$> generated)
  = (fun t => (traitType t, Text (value t), category t, score t)) <$> generated.
Proof. induction generated as [|t generated IH]; [done|]. cbn. by rewrite IH. Qed.

Lemma attr_score_traits (generated : list GeneratedTrait) :
  omap attr_score (traitAttribute <$> generated) = score <$> generated.
Proof. induction generated as [|t generated IH]; [done|]. cbn. by rewrite IH. Qed.

Lemma findAttribute_traits name generated rest :
  Forall (fun t => traitType t <> name) generated ->
  findAttribute name ((traitAttribute <$> generated) ++ rest) = findAttribute name rest.
Proof.
  induction 1 as [|t generated Ht _ IH]; [done|].
  unfold findAttribute in *. cbn.
  destruct (String.eqb_spec (traitType t) name); [done|]. exact IH.
Qed.

(** X16. The attributes of the metadata of a record are seven fixed
    attributes, one attribute per trait in the order of the traits, then
    the tag and the timestamp.  Read by name, "Station", "Archetype",
    "Tier" and "Tier Score" give the station id, the archetype, the tier
    name and the total score of the record whatever the layers are
    called, and "Inscription Tag" gives the tag unless a layer has that
    name.  The attributes with a category and a score tell the traits
    back (type, value, category, score), and for a record that
    [buildGeneratedNft] returned their scores add up to the "Tier Score". *)
Theorem buildMetadataJson_attributes (nft : GeneratedNft)
    (collection : CollectionConfig) :
  let attrs := meta_attributes (buildMetadataJson nft collection) in
  length attrs = (9 + length (traits nft))%nat /\
  findAttribute "Station" attrs
    = Some (numberAttribute "Station" (station_id (nft_station nft))) /\
  findAttribute "Archetype" attrs
    = Some (plainAttribute "Archetype" (Text (archetypeName (nft_archetype nft)))) /\
  findAttribute "Tier" attrs
    = Some (plainAttribute "Tier" (Text (tier_name (tier nft)))) /\
  findAttribute "Tier Score" attrs
    = Some (numberAttribute "Tier Score" (totalScore nft)) /\
  (Forall (fun t => traitType t <> "Inscription Tag") (traits nft) ->
   findAttribute "Inscription Tag" attrs
     = Some (plainAttribute "Inscription Tag" (Text (inscriptionTag nft)))) /\
  omap traitOfAttribute attrs
    = (fun t => (traitType t, Text (value t), category t, score t)) <$> traits nft /\
  (forall St (next : St -> dyadic * St) blueprint config stamp (c c' : Cursor St),
     buildGeneratedNft next blueprint config stamp c = (inr nft, c') ->
     foldr Z.add 0 (omap attr_score attrs) = totalScore nft).
Proof.
  cbv zeta. cbn [meta_attributes buildMetadataJson].
  split; [|split; [|split; [|split; [|split; [|split; [|split]]]]]];
    try reflexivity.
  - rewrite !length_app, length_fmap. simpl. lia.
  - intros Hnames.
    change (findAttribute "Inscription Tag" (?l1 ++ ?l2 ++ ?l3))
      with (findAttribute "Inscription Tag" (l2 ++ l3)).
    by rewrite findAttribute_traits.
  - rewrite !omap_app, traitOfAttribute_traits. cbn. by rewrite app_nil_r.
  - intros St next blueprint config stamp c c' Hrun.
    apply buildGeneratedNft_fields in Hrun as (_ & _ & _ & _ & ->).
    rewrite !omap_app, attr_score_traits. cbn. rewrite app_nil_r.
    by rewrite computeTotalScore_sum.
Qed.

Lemma buildMetadataJson_attributes_witness :
  exists nft c',
    buildGeneratedNft lcgNext sampleBlueprint sampleConfig 1700000000000
      (fresh (createRng sampleSeed)) = (inr nft, c') /\
    findAttribute "Inscription Tag"
      (meta_attributes (buildMetadataJson nft sampleCollection))
      = Some (plainAttribute "Inscription Tag" (Text (inscriptionTag nft))) /\
    foldr Z.add 0 (omap attr_score
                     (meta_attributes (buildMetadataJson nft sampleCollection)))
    = totalScore nft.
Proof.
  destruct (buildGeneratedNft lcgNext sampleBlueprint sampleConfig 1700000000000
              (fresh (createRng sampleSeed))) as [[e|nft] c'] eqn:Hrun.
  - vm_compute in Hrun. discriminate.
  - exists nft, c'. split; [reflexivity|].
    pose proof (buildMetadataJson_attributes nft sampleCollection) as H.
    cbv zeta in H. destruct H as (_ & _ & _ & _ & _ & Htag & _ & Hsum).
    split; [|by eapply Hsum].
    apply Htag. vm_compute in Hrun. injection Hrun as <- _.
    repeat constructor; discriminate.
Defined.

(** ** The whole run *)

Lemma validateStationDistribution_valid : valid validateStationDistribution = true.
Proof. vm_compute. reflexivity. Qed.

Lemma buildNftBlueprints_reassigned {St} (next : St -> dyadic * St) config dist
    (c c' : Cursor St) blueprints :
  buildNftBlueprints next config dist c = (inr blueprints, c') ->
  bp_id <$> blueprints = seqZ 1 (Z.of_nat (length blueprints)).
Proof.
  unfold buildNftBlueprints. destruct (appendStations _ _ _) as [e|[pre id]];
    [discriminate|].
  intros Hrun. apply bind_ok in Hrun as (shuffled & c1 & _ & Hrun).
  destruct (allDefined shuffled) as [bs|]; [|discriminate].
  injection Hrun as <- _. by rewrite reassignIds_ids, reassignIds_length.
Qed.

Lemma string_app_inj_l s1 s2 t :
  String.length s1 = String.length s2 -> s1 +:+ t = s2 +:+ t -> s1 = s2.
Proof.
  revert s2. induction s1 as [|a s1 IH]; intros [|b s2] Hlen Heq; try done.
  simpl in Hlen, Heq. injection Heq as -> Heq. f_equal. apply IH; [lia | done].
Qed.

Lemma fileNameOf_inj id1 id2 :
  0 <= id1 -> 0 <= id2 -> fileNameOf id1 = fileNameOf id2 -> id1 = id2.
Proof.
  intros H1 H2 Heq. unfold fileNameOf in Heq.
  assert (Hpad : pad3 id1 = pad3 id2).
  { apply (string_app_inj_l _ _ ".json"); [|done].
    apply (f_equal String.length) in Heq. rewrite !string_length_app in Heq. lia. }
  pose proof (parseDecimal_pad3 id1 H1) as P1.
  pose proof (parseDecimal_pad3 id2 H2) as P2.
  rewrite Hpad in P1. congruence.
Qed.

Lemma fileNames_NoDup (n : Z) : NoDup (fileNameOf <$> seqZ 1 n).
Proof.
  apply NoDup_fmap_2_strong; [|apply NoDup_seqZ].
  intros id1 id2 H1%elem_of_seqZ H2%elem_of_seqZ. apply fileNameOf_inj; lia.
Qed.

Section RunFacts.
Context {St : Type}.
Variable next : St -> dyadic * St.

(** The files written are those of the records of the first blueprints,
    in their order: all of them unless a record failed. *)
Lemma writeMetadata_files config collection stamp blueprints written
    (c : Cursor St) (m : Z) :
  bp_id <$> blueprints = seqZ m (Z.of_nat (length blueprints)) ->
  exists records,
    (writeMetadata next config collection stamp blueprints written c).1.2
      = written ++ (metadataFile collection <$> records) /\
    nft_id <$> records = seqZ m (Z.of_nat (length records)) /\
    Forall (fun nft => mintTimestamp nft = stamp) records /\
    (length records <= length blueprints)%nat /\
    ((writeMetadata next config collection stamp blueprints written c).1.1 = None ->
     length records = length blueprints).
Proof.
  revert written c m. induction blueprints as [|bp bps IH]; intros written c m Hids.
  - exists []. simpl. by rewrite app_nil_r.
  - cbn [writeMetadata].
    rewrite seqZ_cons in Hids by (simpl; lia).
    cbn [fmap list_fmap] in Hids. injection Hids as Hid Hids.
    cbn [length] in Hids.
    replace (Z.pred (Z.of_nat (S (length bps)))) with (Z.of_nat (length bps))
      in Hids by lia.
    destruct (buildGeneratedNft next bp config stamp c) as [[e|nft] c1] eqn:Hrun.
    + exists []. simpl. rewrite app_nil_r. repeat split; try done; lia.
    + apply buildGeneratedNft_fields in Hrun as (Hnft & _ & _ & Hstamp & _).
      destruct (IH (written ++ [ {| file_name := pad3 (nft_id nft) +:+ ".json";
                                    file_content := buildMetadataJson nft collection |} ])
                   c1 (Z.succ m) Hids)
        as (records & Hfiles & Hrec & Hstamps & Hlen & Hall).
      exists (nft :: records). rewrite Hfiles. split; [by rewrite <- app_assoc|].
      split.
      { cbn [fmap list_fmap length]. rewrite seqZ_cons by lia.
        rewrite Hnft, Hid. f_equal.
        replace (Z.pred (Z.of_nat (S (length records))))
          with (Z.of_nat (length records)) by lia.
        exact Hrec. }
      split; [by constructor|]. split; [simpl; lia|].
      intros Hnone. simpl. f_equal. by apply Hall.
Qed.

End RunFacts.

Lemma generateCollection_run_files config collection seed env now :
  exists records,
    run_files (generateCollection config collection seed env now)
      = metadataFile collection <$> records /\
    nft_id <$> records = seqZ 1 (Z.of_nat (length records)) /\
    Forall (fun nft => mintTimestamp nft = now) records /\
    (length records <= 333)%nat /\
    (run_error (generateCollection config collection seed env now) = None ->
     length records = 333%nat).
Proof.
  unfold generateCollection. rewrite validateStationDistribution_valid. cbn [negb].
  destruct (buildNftBlueprints _ _ _ _) as [[e|blueprints] c] eqn:Hbp.
  - exists []. cbn [run_files run_error fmap list_fmap length].
    split; [reflexivity|]. split; [reflexivity|]. split; [constructor|].
    split; [lia | discriminate].
  - destruct (Nat.eqb_spec (length blueprints) 333) as [Hlen|Hlen]; cbn [negb].
    + apply buildNftBlueprints_reassigned in Hbp.
      destruct (writeMetadata_files lcgNext config collection now blueprints [] c 1 Hbp)
        as (records & Hfiles & Hids & Hstamps & Hle & Hall).
      destruct (writeMetadata _ _ _ _ _ _ _) as [[e written] c'].
      cbn [fst snd run_files run_error] in *. exists records.
      split; [done|]. split; [done|]. split; [done|]. split; [lia|].
      intros Hnone. rewrite <- Hlen. apply Hall. by destruct e.
    + exists []. cbn [run_files run_error fmap list_fmap length].
      split; [reflexivity|]. split; [reflexivity|]. split; [constructor|].
      split; [lia | discriminate].
Qed.

Section RunSucceeds.
Context {St : Type}.
Variable next : St -> dyadic * St.
Variable config : MetaGenConfig.
Variables lo hi : Z.
Hypothesis layers_have_traits : Forall hasTraits (layers config).
Hypothesis weights_within : weightsWithin config lo hi.
Hypothesis tiers_span :
  tiersSpan (tier_thresholds (scoring config))
            (Z.of_nat (length (layers config)) * lo)
            (Z.of_nat (length (layers config)) * hi).

(** With tiers for every score the traits can add up to, no record
    fails. *)
Lemma buildGeneratedNft_succeeds blueprint stamp (c : Cursor St) :
  draws_in_range next (state c) ->
  exists nft,
    buildGeneratedNft next blueprint config stamp c
    = (inr nft,
       mkCursor (advance next (length (layers config) + 4) (state c))
                (calls c + (length (layers config) + 4))).
Proof.
  intros Hr.
  destruct (buildGeneratedNft_run next blueprint config stamp c layers_have_traits Hr)
    as (generated & Hgen & _ & Hend).
  destruct (generated_score_bounds next config lo hi _ _ _ weights_within Hgen)
    as (_ & _ & Hbounds).
  destruct tiers_span as (Hc & t1 & tn & Hh & Hl & Hlo & Hhi).
  destruct (consecutive_covers _ (computeTotalScore generated) t1 tn Hc Hh Hl)
    as (t & Hin & Ht); [lia|].
  destruct (resolveTier_some _ _ t Hin Ht) as (u & Hu & _).
  rewrite Hu in Hend. destruct Hend as (nft & Hrun & _). by exists nft.
Qed.

Lemma writeMetadata_succeeds collection stamp blueprints written (c : Cursor St) :
  draws_in_range next (state c) ->
  exists files,
    writeMetadata next config collection stamp blueprints written c
    = (None, files,
       mkCursor (advance next (length blueprints * (length (layers config) + 4))
                         (state c))
                (calls c + length blueprints * (length (layers config) + 4))).
Proof.
  revert written c. induction blueprints as [|bp bps IH]; intros written c Hr.
  - exists written. destruct c as [s n]. cbn. by rewrite Nat.add_0_r.
  - cbn [writeMetadata].
    destruct (buildGeneratedNft_succeeds bp stamp c Hr) as (nft & ->).
    match goal with
    | |- context [writeMetadata _ _ _ _ _ ?w ?c1] =>
        destruct (IH w c1) as (files & ->)
    end.
    { by apply draws_in_range_advance. }
    exists files. cbn [state calls length]. rewrite <- advance_add.
    do 2 f_equal; lia.
Qed.

End RunSucceeds.

(** A run over a configuration of that kind ends without error, after
    the draws of the shuffle and of the 333 records. *)
Lemma generateCollection_ends_well (config : MetaGenConfig)
    (collection : CollectionConfig) (seed env : option jsstring) (now lo hi : Z) :
  coversStations config STATION_DISTRIBUTION ->
  Forall hasTraits (layers config) ->
  weightsWithin config lo hi ->
  tiersSpan (tier_thresholds (scoring config))
            (Z.of_nat (length (layers config)) * lo)
            (Z.of_nat (length (layers config)) * hi) ->
  run_error (generateCollection config collection seed env now) = None /\
  run_draws (generateCollection config collection seed env now)
  = drawsOfRun (length (layers config)).
Proof.
  intros Hcov Hne Hw Hspan.
  unfold generateCollection. rewrite validateStationDistribution_valid. cbn [negb].
  destruct (buildNftBlueprints_run lcgNext config STATION_DISTRIBUTION
              (fresh (createRng (chooseSeed seed env))) Hcov
              (createRng_in_range _))
    as (pre & id & shuffled & c' & _ & Hbp & Hperm & Hass & Hc').
  assert (Hlen : length pre = 333%nat).
  { pose proof (expected_total config STATION_DISTRIBUTION Hcov
                  STATION_DISTRIBUTION_nonneg) as Htotal.
    rewrite <- Hass, length_fmap in Htotal.
    change (sumCounts STATION_DISTRIBUTION) with (Z.of_nat 333) in Htotal.
    by apply Nat2Z.inj in Htotal. }
  rewrite Hbp, reassignIds_length, Hperm, Hlen, Nat.eqb_refl. cbn [negb].
  destruct (writeMetadata_succeeds lcgNext config lo hi Hne Hw Hspan collection now
              (reassignIds shuffled) [] c') as (files & ->).
  { subst c'. apply draws_in_range_advance, createRng_in_range. }
  cbn [run_error run_draws fmap option_fmap option_map calls].
  split; [reflexivity|].
  rewrite reassignIds_length, Hperm, Hlen. subst c'. cbn [calls fresh].
  unfold drawsOfRun. rewrite Hlen. lia.
Qed.

(** X17. Whatever the configuration and the seed, and whether the run
    ends well or with an error, the files [generateCollection] has
    written are the metadata of the records number 1, 2, 3 and so on, in
    that order and each with the timestamp of the run, under the names
    "001.json", "002.json" and so on: no name is written twice and none
    is left out before the last; there are 333 of them at most, and
    exactly 333 when the run ends without error. *)
Theorem generateCollection_files (config : MetaGenConfig)
    (collection : CollectionConfig) (seed env : option jsstring) (now : Z) :
  exists records,
    run_files (generateCollection config collection seed env now)
      = metadataFile collection <$> records /\
    nft_id <$> records = seqZ 1 (Z.of_nat (length records)) /\
    Forall (fun nft => mintTimestamp nft = now) records /\
    file_name <$> run_files (generateCollection config collection seed env now)
      = fileNameOf <$> seqZ 1 (Z.of_nat (length records)) /\
    NoDup (file_name <$> run_files (generateCollection config collection seed env now)) /\
    (length records <= 333)%nat /\
    (run_error (generateCollection config collection seed env now) = None ->
     length records = 333%nat).
Proof.
  destruct (generateCollection_run_files config collection seed env now)
    as (records & Hfiles & Hids & Hstamps & Hle & Hall).
  exists records.
  assert (Hnames : file_name <$> run_files
                     (generateCollection config collection seed env now)
                   = fileNameOf <$> seqZ 1 (Z.of_nat (length records))).
  { rewrite Hfiles, <- Hids, <- !list_fmap_compose. done. }
  split; [exact Hfiles|]. split; [exact Hids|]. split; [exact Hstamps|].
  split; [exact Hnames|]. split; [|split; [exact Hle | exact Hall]].
  rewrite Hnames. apply fileNames_NoDup.
Qed.

(** X17 on the sample configuration, whose run ends without error. *)
Lemma generateCollection_files_witness :
  exists records,
    run_files (generateCollection sampleConfig sampleCollection None None 1700000000000)
      = metadataFile sampleCollection <$> records /\
    nft_id <$> records = seqZ 1 333 /\
    length records = 333%nat.
Proof.
  destruct (generateCollection_files sampleConfig sampleCollection None None
              1700000000000)
    as (records & Hfiles & Hids & _ & _ & _ & _ & Hall).
  exists records. split; [exact Hfiles|].
  assert (Hlen : length records = 333%nat).
  { apply Hall.
    apply (generateCollection_ends_well sampleConfig sampleCollection None None
             1700000000000 7 42 sampleConfig_covers sampleConfig_hasTraits).
    - intros []; simpl; lia.
    - exact sampleTiers_span. }
  split; [|exact Hlen]. rewrite Hids, Hlen. reflexivity.
Defined.






(** ** Configuration errors *)

Lemma checkLayers_first before layer after :
  Forall (fun l => lengthIsNot (jl_traits l) 9 = false) before ->
  lengthIsNot (jl_traits layer) 9 = true ->
  checkLayers (before ++ layer :: after)
  = Some (LayerTraitCount (jl_name layer) (lengthOrZero (jl_traits layer))).
Proof.
  induction 1 as [|l before Hl _ IH]; intros Hbad; simpl.
  - by rewrite Hbad.
  - rewrite Hl. by apply IH.
Qed.

Lemma checkCategories_first before cat after (table : gmap string Z) :
  Forall (fun c => is_Some (table !! c)) before ->
  table !! cat = None ->
  checkCategories (before ++ cat :: after) table = Some (MissingCategory cat).
Proof.
  induction 1 as [|c before [w Hc] _ IH]; intros Hnone; simpl.
  - by rewrite Hnone.
  - rewrite Hc. by apply IH.
Qed.

(** X21. [loadConfig] reports the first violation it meets, in a fixed
    order: a number of layers other than 7, with the number found (0
    when the layers are missing); else the first layer without exactly 9
    traits, by its name and with the number of its traits; else, when
    the scoring table is there, the first category it lacks in the order
    CHAOS, THRESHOLD, ORDEAL_REWARD, MYTHIC. *)
Theorem loadConfig_first_failure (config : JsonConfig) :
  (lengthIsNot (jc_layers config) 7 = true ->
   loadConfig config = inl (ExpectedLayers (lengthOrZero (jc_layers config)))) /\
  (forall before layer after,
     jc_layers config = Some (before ++ layer :: after) ->
     length (before ++ layer :: after) = 7%nat ->
     Forall (fun l => lengthIsNot (jl_traits l) 9 = false) before ->
     lengthIsNot (jl_traits layer) 9 = true ->
     loadConfig config
     = inl (LayerTraitCount (jl_name layer) (lengthOrZero (jl_traits layer)))) /\
  (forall ls scoring table before cat after,
     jc_layers config = Some ls -> length ls = 7%nat ->
     Forall (fun l => lengthIsNot (jl_traits l) 9 = false) ls ->
     jc_scoring config = Some scoring -> js_categories scoring = Some table ->
     requiredCategories = before ++ cat :: after ->
     Forall (fun c => is_Some (table !! c)) before ->
     table !! cat = None ->
     loadConfig config = inl (MissingCategory cat)).
Proof.
  split; [|split].
  - intros Hbad. unfold loadConfig. by rewrite Hbad.
  - intros before layer after Hls Hlen Hbefore Hbad. unfold loadConfig.
    rewrite Hls. cbn [lengthIsNot default from_option id]. rewrite Hlen.
    cbn [Nat.eqb negb]. by rewrite checkLayers_first.
  - intros ls scoring table before cat after Hls Hlen Hall Hsc Htab Hreq Hbefore Hnone.
    unfold loadConfig.
    rewrite Hls. cbn [lengthIsNot default from_option id]. rewrite Hlen.
    cbn [Nat.eqb negb].
    assert (Hck : checkLayers ls = None).
    { apply checkLayers_None. eapply Forall_impl; [exact Hall|].
      intros l Hl. by apply lengthIsNot_false in Hl. }
    rewrite Hck, Hsc, Htab, Hreq. by rewrite checkCategories_first.
Qed.

Lemma loadConfig_first_failure_witness :
  loadConfig emptyJson = inl (ExpectedLayers 0).
Proof. apply (proj1 (loadConfig_first_failure emptyJson)). reflexivity. Defined.

(** ** Escaping *)

Lemma replaceAll_app ch r text1 text2 :
  replaceAll ch r (text1 ++ text2) = replaceAll ch r text1 ++ replaceAll ch r text2.
Proof. apply flat_map_app. Qed.

Lemma replaceAll_cons ch r c text :
  replaceAll ch r (c :: text)
  = (if (c =? ch)%N then r else [c]) ++ replaceAll ch r text.
Proof. reflexivity. Qed.

(** The five replacements, one after the other, are one replacement of
    each character: no replacement touches what an earlier one wrote. *)
Lemma escapeXml_cons c text :
  escapeXml (c :: text) = escapeChar c ++ escapeXml text.
Proof.
  unfold escapeXml, escapeChar.
  rewrite (replaceAll_cons AMPERSAND).
  destruct (N.eqb_spec c AMPERSAND) as [->|H1].
  { rewrite !replaceAll_app. f_equal. }
  rewrite replaceAll_app, (replaceAll_cons LESS_THAN).
  destruct (N.eqb_spec c LESS_THAN) as [->|H2].
  { rewrite !replaceAll_app. f_equal. }
  rewrite !replaceAll_app, (replaceAll_cons GREATER_THAN).
  destruct (N.eqb_spec c GREATER_THAN) as [->|H3].
  { rewrite !replaceAll_app. f_equal. }
  rewrite !replaceAll_app, (replaceAll_cons QUOTATION_MARK).
  destruct (N.eqb_spec c QUOTATION_MARK) as [->|H4].
  { rewrite !replaceAll_app. f_equal. }
  rewrite !replaceAll_app, (replaceAll_cons APOSTROPHE).
  destruct (N.eqb_spec c APOSTROPHE) as [->|H5]; reflexivity.
Qed.

Lemma escapeXml_flat_map text : escapeXml text = flat_map escapeChar text.
Proof.
  induction text as [|c text IH]; [done|].
  by rewrite escapeXml_cons, IH.
Qed.

(** X22. [escapeXml] escapes a text character by character: its result
    is the characters of the text in their order, each ampersand, angle
    bracket and quote replaced by its entity and every other character
    kept; so the escaping of two texts one after the other is the
    escaping of the one followed by the escaping of the other, and a
    text without those five characters is left as it is. *)
Theorem escapeXml_char_by_char (text : jsstring) :
  escapeXml text = flat_map escapeChar text /\
  (forall text', escapeXml (text ++ text') = escapeXml text ++ escapeXml text') /\
  (Forall (fun c => c <> AMPERSAND /\ isMarkup c = false) text ->
   escapeXml text = text) /\
  (length text <= length (escapeXml text))%nat.
Proof.
  split; [apply escapeXml_flat_map|]. split; [|split].
  - intros text'. rewrite !escapeXml_flat_map. apply flat_map_app.
  - induction 1 as [|c text' [Hamp Hmark] _ IH]; [done|].
    rewrite escapeXml_cons, IH. unfold escapeChar, isMarkup in *.
    apply N.eqb_neq in Hamp. rewrite Hamp.
    apply orb_false_elim in Hmark as [Hmark H5].
    apply orb_false_elim in Hmark as [Hmark H4].
    apply orb_false_elim in Hmark as [H2 H3].
    by rewrite H2, H3, H4, H5.
  - induction text as [|c text' IH]; [done|].
    rewrite escapeXml_cons, length_app. cbn [length].
    assert (1 <= length (escapeChar c))%nat; [|lia].
    unfold escapeChar. repeat case_match; simpl; lia.
Qed.

Lemma escapeXml_char_by_char_witness :
  escapeXml (ofString "Void-Black Matter Skin") = ofString "Void-Black Matter Skin".
Proof.
  apply (proj1 (proj2 (proj2 (escapeXml_char_by_char
                                (ofString "Void-Black Matter Skin"))))).
  repeat constructor; discriminate.
Defined.

Lemma escapeChar_token c : isToken (escapeChar c).
Proof.
  unfold escapeChar.
  destruct (N.eqb_spec c AMPERSAND) as [->|H1]; [left; set_solver|].
  destruct (N.eqb_spec c LESS_THAN) as [->|H2]; [left; set_solver|].
  destruct (N.eqb_spec c GREATER_THAN) as [->|H3]; [left; set_solver|].
  destruct (N.eqb_spec c QUOTATION_MARK) as [->|H4]; [left; set_solver|].
  destruct (N.eqb_spec c APOSTROPHE) as [->|H5]; [left; set_solver|].
  right. exists c. split; [done|]. split; [done|]. unfold isMarkup.
  apply N.eqb_neq in H2, H3, H4, H5. by rewrite H2, H3, H4, H5.
Qed.

(** X23. The result of [escapeXml] is made of entities and of characters
    that are neither ampersands nor markup, one such token for each
    character of the text; so it holds no angle bracket and no quote, and
    an ampersand in it starts an entity. *)
Theorem escapeXml_no_markup (text : jsstring) :
  (exists tokens,
     escapeXml text = concat tokens /\ length tokens = length text /\
     Forall isToken tokens) /\
  Forall (fun c => isMarkup c = false) (escapeXml text).
Proof.
  split.
  - exists (escapeChar <$> text). rewrite escapeXml_flat_map.
    split; [apply flat_map_concat_map|]. split; [by rewrite length_fmap|].
    apply Forall_fmap, Forall_forall. intros c _. apply escapeChar_token.
  - rewrite escapeXml_flat_map. apply Forall_flat_map, Forall_forall.
    intros c _.
    destruct (escapeChar_token c) as [Hent|(c' & -> & _ & Hc')].
    + unfold ENTITIES in Hent.
      repeat (apply elem_of_cons in Hent as [->|Hent]; [by repeat constructor|]).
      by apply elem_of_nil in Hent.
    + by repeat constructor.
Qed.

Lemma escapeChar_cases c :
  c = AMPERSAND /\ escapeChar c = ofString "&amp;" \/
  c = LESS_THAN /\ escapeChar c = ofString "&lt;" \/
  c = GREATER_THAN /\ escapeChar c = ofString "&gt;" \/
  c = QUOTATION_MARK /\ escapeChar c = ofString "&quot;" \/
  c = APOSTROPHE /\ escapeChar c = ofString "&apos;" \/
  c <> AMPERSAND /\ escapeChar c = [c].
Proof.
  unfold escapeChar.
  destruct (N.eqb_spec c AMPERSAND) as [->|H1]; [by left|].
  destruct (N.eqb_spec c LESS_THAN) as [->|H2]; [by right; left|].
  destruct (N.eqb_spec c GREATER_THAN) as [->|H3]; [by right; right; left|].
  destruct (N.eqb_spec c QUOTATION_MARK) as [->|H4]; [by right; right; right; left|].
  destruct (N.eqb_spec c APOSTROPHE) as [->|H5];
    [by right; right; right; right; left|].
  by right; right; right; right; right.
Qed.

Lemma escapeChar_inj c1 c2 rest1 rest2 :
  escapeChar c1 ++ rest1 = escapeChar c2 ++ rest2 -> c1 = c2 /\ rest1 = rest2.
Proof.
  destruct (escapeChar_cases c1) as [[-> ->]|[[-> ->]|[[-> ->]|[[-> ->]|[[-> ->]|[H1 ->]]]]]];
    destruct (escapeChar_cases c2)
      as [[-> ->]|[[-> ->]|[[-> ->]|[[-> ->]|[[-> ->]|[H2 ->]]]]]];
    cbn; intros Heq; try discriminate;
    try (injection Heq as ?; by subst).
Qed.

(** X24. [escapeXml] loses nothing: two texts with the same escaping are
    the same text. *)
Theorem escapeXml_injective (text1 text2 : jsstring) :
  escapeXml text1 = escapeXml text2 -> text1 = text2.
Proof.
  rewrite !escapeXml_flat_map. revert text2.
  induction text1 as [|c1 text1 IH]; intros [|c2 text2] Heq.
  - done.
  - cbn [flat_map] in Heq.
    destruct (escapeChar_cases c2) as [[_ H]|[[_ H]|[[_ H]|[[_ H]|[[_ H]|[_ H]]]]]];
      rewrite H in Heq; discriminate.
  - cbn [flat_map] in Heq.
    destruct (escapeChar_cases c1) as [[_ H]|[[_ H]|[[_ H]|[[_ H]|[[_ H]|[_ H]]]]]];
      rewrite H in Heq; discriminate.
  - cbn [flat_map] in Heq. apply escapeChar_inj in Heq as [-> Heq].
    f_equal. by apply IH.
Qed.

Lemma escapeXml_injective_witness :
  ofString "a&b" = [97; 38; 98]%N.
Proof.
  apply (escapeXml_injective (ofString "a&b") [97; 38; 98]%N).
  reflexivity.
Defined.

(** ** Layer assets *)

Section ImageFacts.
Variable toLowerCase : string -> string.
Variable pathJoin : list string -> string.

Lemma extract_loop attributes config assetsDir (keys : list string)
    (assets : list LayerAsset) :
  fold_left (fun assets layerKey =>
               match layerAsset toLowerCase pathJoin attributes config assetsDir
                                layerKey with
               | None => assets
               | Some layerAsset => assets ++ [layerAsset]
               end)
            keys assets
  = assets ++ omap (layerAsset toLowerCase pathJoin attributes config assetsDir) keys.
Proof.
  revert assets. induction keys as [|key keys IH]; intros assets; simpl.
  - by rewrite app_nil_r.
  - rewrite IH. destruct (layerAsset _ _ _ _ _ _) as [a|]; [|done].
    by rewrite <- app_assoc.
Qed.

Lemma layerAsset_key attributes config assetsDir layerKey a :
  layerAsset toLowerCase pathJoin attributes config assetsDir layerKey = Some a ->
  asset_key a = layerKey /\
  exists attr layer trait file,
    attr ∈ attributes /\ layer ∈ config /\ trait ∈ asset_traits layer /\
    asset_layer_key layer = layerKey /\
    asset_trait_name trait = stringOfValue (attr_value attr) /\
    asset trait = Some file /\ file <> "" /\
    assetPath a = pathJoin [assetsDir; layerKey; file].
Proof.
  unfold layerAsset, resolveAssetForTrait.
  destruct (List.find _ attributes) as [attr|] eqn:Hattr; [|done].
  destruct (List.find _ config) as [layer|] eqn:Hlayer; [|done].
  destruct (List.find _ (asset_traits layer)) as [trait|] eqn:Htrait; [|done].
  destruct (asset trait) as [file|] eqn:Hfile; [|done].
  destruct (String.eqb_spec file "") as [|Hne]; [done|].
  intros [= <-]. split; [done|].
  apply find_some in Hattr as [Hattr _].
  apply find_some in Hlayer as [Hlayer Hkey].
  apply find_some in Htrait as [Htrait Hname].
  apply String.eqb_eq in Hkey, Hname.
  exists attr, layer, trait, file.
  repeat split; try done; by apply list_elem_of_In.
Qed.

Lemma omap_keys_sublist attributes config assetsDir (keys : list string) :
  sublist (asset_key <$> omap (layerAsset toLowerCase pathJoin attributes config
                                          assetsDir) keys)
          keys.
Proof.
  induction keys as [|key keys IH]; simpl; [constructor|].
  destruct (layerAsset _ _ _ _ _ _) as [a|] eqn:Ha.
  - apply layerAsset_key in Ha as [Hk _]. cbn [fmap list_fmap]. rewrite Hk.
    by constructor.
  - by constructor.
Qed.

End ImageFacts.

(** X25. Whatever the order of the attributes in the metadata, the
    assets [extractLayerAssets] returns come in the order of
    [LAYER_ORDER], from the background to the aura with the headwear
    before the eyes, one per layer at most and so seven at most; each is
    the non-empty asset file of a trait configured for its layer under
    the name that is the value of an attribute of the metadata, inside
    the directory of its layer; and metadata without attributes gives no
    asset. *)
Theorem extractLayerAssets_in_layer_order (toLowerCase : string -> string)
    (pathJoin : list string -> string) (attributes : list MetaplexAttribute)
    (config : list AssetLayer) (assetsDir : string) :
  sublist (asset_key <$> extractLayerAssets toLowerCase pathJoin attributes config
                                            assetsDir)
          LAYER_ORDER /\
  (length (extractLayerAssets toLowerCase pathJoin attributes config assetsDir) <= 7)%nat /\
  Forall (fun a => exists attr layer trait file,
            attr ∈ attributes /\ layer ∈ config /\ trait ∈ asset_traits layer /\
            asset_layer_key layer = asset_key a /\
            asset_trait_name trait = stringOfValue (attr_value attr) /\
            asset trait = Some file /\ file <> "" /\
            assetPath a = pathJoin [assetsDir; asset_key a; file])
         (extractLayerAssets toLowerCase pathJoin attributes config assetsDir) /\
  extractLayerAssets toLowerCase pathJoin [] config assetsDir = [].
Proof.
  unfold extractLayerAssets. rewrite !extract_loop. cbn [app].
  split; [apply omap_keys_sublist|]. split; [|split; [|reflexivity]].
  - pose proof (omap_keys_sublist toLowerCase pathJoin attributes config assetsDir
                  LAYER_ORDER) as Hsub.
    apply sublist_length in Hsub. rewrite length_fmap in Hsub. exact Hsub.
  - apply Forall_forall. intros a Ha.
    apply list_elem_of_omap in Ha as (key & _ & Ha).
    apply layerAsset_key in Ha as [Hkey H]. by rewrite Hkey.
Qed.

(** ** Image files *)

Lemma digits_imageFilename (u : Decimal.uint) :
  imageFilename (DecimalString.NilEmpty.string_of_uint u +:+ ".json")
  = DecimalString.NilEmpty.string_of_uint u +:+ ".png".
Proof.
  unfold imageFilename. induction u as [|u IH|u IH|u IH|u IH|u IH|u IH|u IH|u IH|u IH|u IH];
    [reflexivity|..]; cbn [DecimalString.NilEmpty.string_of_uint]; simpl in *;
    by rewrite IH.
Qed.

Lemma two_digits_below_100 :
  forallb (fun id => (String.length (stringOfInt id) <=? 2)%nat) (seqZ 0 100) = true.
Proof. vm_compute. reflexivity. Qed.

Lemma two_digits_small (u : Decimal.uint) :
  (String.length (DecimalString.NilEmpty.string_of_uint u) <= 2)%nat ->
  Z.of_uint u < 100.
Proof.
  intros Hlen.
  destruct u as [|u|u|u|u|u|u|u|u|u|u]; [done|..];
    (destruct u as [|u|u|u|u|u|u|u|u|u|u]; [done|..];
     (rewrite (digits_nil u) by (simpl in Hlen; lia); done)).
Qed.

(** X26. The image [generateAllImages] writes for the metadata file of
    record number [id] is named [pad3(id)] followed by ".png", while the
    file that the metadata of the record names is [String(id)] followed
    by ".png": the two are the same name from id 100 on, and differ for
    every id below 100. *)
Theorem imageFilename_of_record (nft : GeneratedNft) (collection : CollectionConfig) :
  0 <= nft_id nft ->
  imageFilename (file_name (metadataFile collection nft))
    = pad3 (nft_id nft) +:+ ".png" /\
  uri <$> files (meta_properties (file_content (metadataFile collection nft)))
    = [stringOfInt (nft_id nft) +:+ ".png"] /\
  (imageFilename (file_name (metadataFile collection nft))
     = stringOfInt (nft_id nft) +:+ ".png"
   <-> 100 <= nft_id nft).
Proof.
  intros Hid. cbn [metadataFile file_name file_content].
  assert (Himg : imageFilename (fileNameOf (nft_id nft)) = pad3 (nft_id nft) +:+ ".png").
  { unfold fileNameOf. destruct (pad3_digits (nft_id nft) Hid) as (u & Hu & _ & ->).
    cbn [DecimalString.NilZero.string_of_int].
    unfold DecimalString.NilZero.string_of_uint.
    destruct u; [done|..]; apply digits_imageFilename. }
  split; [exact Himg|]. split; [reflexivity|]. rewrite Himg.
  destruct (stringOfInt_digits (nft_id nft) Hid) as (u & Hu & Hval & Hs).
  split.
  - intros Heq.
    assert (Hlen : String.length (pad3 (nft_id nft))
                   = String.length (stringOfInt (nft_id nft))).
    { apply (f_equal String.length) in Heq. rewrite !string_length_app in Heq. lia. }
    unfold pad3 in Hlen. rewrite padStartZero_length in Hlen.
    destruct (Z_lt_ge_dec (nft_id nft) 100) as [Hlt|Hge]; [|lia].
    pose proof two_digits_below_100 as Hall. rewrite forallb_forall in Hall.
    specialize (Hall (nft_id nft) ltac:(apply list_elem_of_In, elem_of_seqZ; lia)).
    rewrite Nat.leb_le in Hall. lia.
  - intros Hge. unfold pad3. rewrite padStartZero_long; [done|].
    rewrite Hs.
    destruct (le_lt_dec (String.length (DecimalString.NilEmpty.string_of_uint u)) 2)
      as [Hle|Hgt]; [|lia].
    apply two_digits_small in Hle. lia.
Qed.

Lemma imageFilename_of_record_witness :
  exists nft c',
    buildGeneratedNft lcgNext sampleBlueprint sampleConfig 1700000000000
      (fresh (createRng sampleSeed)) = (inr nft, c') /\
    imageFilename (file_name (metadataFile sampleCollection nft)) = "001.png" /\
    uri <$> files (meta_properties (file_content (metadataFile sampleCollection nft)))
      = ["1.png"].
Proof.
  destruct (buildGeneratedNft lcgNext sampleBlueprint sampleConfig 1700000000000
              (fresh (createRng sampleSeed))) as [[e|nft] c'] eqn:Hrun.
  - vm_compute in Hrun. discriminate.
  - exists nft, c'. split; [reflexivity|].
    assert (Hid : nft_id nft = 1).
    { by apply buildGeneratedNft_fields in Hrun as (-> & _). }
    destruct (imageFilename_of_record nft sampleCollection ltac:(lia))
      as (Himg & Huri & _).
    rewrite Himg, Huri, Hid. split; reflexivity.
Defined.
